(** * Image-like displayables: [Solid] and [Frame]

    A shallow embedding of [renpy/display/imagelike.py].

    Python integers are [Z]; [//] and [%] are [Z.div] and [Z.modulo], which
    floor and take the sign of the divisor exactly as Python does.  Python
    floats (the requested sizes of [Solid.render], [Frame.tile_ratio], the
    entries of [Matrix2D]) are read as exact rationals [Q] where only their
    value matters.  The test of [tile_ratio] in integer tiling turns on the
    rounding of a quotient, and is given on binary64 floats as well
    ([Frame.ratio_test64], [Frame.tiling64], [Frame.resize64]).  A [Render]
    is the tree of what was blitted into it, so that "no blit", "no scaling"
    and "cropped" are statements about that tree. *)

From Stdlib Require Import ZArith QArith Qfield Qround List Bool Lia.
From Stdlib Require Import PrimFloat.
From Stdlib Require SpecFloat FloatOps FloatAxioms.
Import ListNotations.

Set Warnings "-inexact-float".

Local Open Scope Z_scope.

(** ** Python built-ins used by the module *)

Module Py.

(** Truth value of an integer: [if n:]. *)
Definition truthy (n : Z) : bool := negb (n =? 0).

(** [min(a, b, c)] on integers. *)
Definition min3 (a b c : Z) : Z := Z.min (Z.min a b) c.

(** [range(0, n)]. *)
Definition range (n : Z) : list Z := map Z.of_nat (seq 0 (Z.to_nat n)).

(** [a < b] on floats, read on rationals. *)
Definition Qltb (a b : Q) : bool := (Qnum a * QDen b <? Qnum b * QDen a)%Z.

(** [a <= b] and [a == b] on floats, read on rationals. *)
Definition Qleb (a b : Q) : bool := Qle_bool a b.
Definition Qeqb (a b : Q) : bool := Qeq_bool a b.

(** [max(a, b)]: Python returns [a] unless [b > a]. *)
Definition Qmax (a b : Q) : Q := if Qltb a b then b else a.

(** Truth value of a float: [if x:]. *)
Definition Qtruthy (x : Q) : bool := negb (Qeqb x 0).

(** [int(x)] for a float [x]: its integer part, toward zero. *)
Definition Qint (x : Q) : Z := Z.quot (Qnum x) (QDen x).

(** [float(n)] for an integer [n]: the binary64 number nearest to [n], ties
    to even. *)
Definition float_of_Z (n : Z) : float :=
  FloatOps.SF2Prim (SpecFloat.binary_normalize FloatOps.prec FloatOps.emax n 0 false).

(** The number a float stands for; infinities and NaN stand for none. *)
Definition float_value (x : float) : option Q :=
  match FloatOps.Prim2SF x with
  | SpecFloat.S754_zero _ => Some 0%Q
  | SpecFloat.S754_finite sign m e =>
      Some (inject_Z (if sign then Z.neg m else Z.pos m) * Qpower 2 e)%Q
  | _ => None
  end.

(** [x // n] for a float [x] and an integer [n <> 0]: the floor of the
    quotient of the two numbers, a float of integral value, given as that
    integer. *)
Definition float_floordiv (x : float) (n : Z) : option Z :=
  match float_value x with
  | Some q => Some (Qfloor (q / inject_Z n))
  | None => None
  end.

End Py.

(** ** [renpy.display.matrix.Matrix2D] and [renpy.display.render.Render] *)

(** [Matrix2D(xdx, xdy, ydx, ydy)]. *)
Record Matrix2D : Type := mkMatrix2D { xdx : Q; xdy : Q; ydx : Q; ydy : Q }.

(** Matrix product, and equality of matrices up to the value of the entries. *)
Definition mat_mul (a b : Matrix2D) : Matrix2D :=
  mkMatrix2D (xdx a * xdx b + xdy a * ydx b) (xdx a * xdy b + xdy a * ydy b)
             (ydx a * xdx b + ydy a * ydx b) (ydx a * xdy b + ydy a * ydy b).

Definition mat_eq (a b : Matrix2D) : Prop :=
  xdx a == xdx b /\ xdy a == xdy b /\ ydx a == ydx b /\ ydy a == ydy b.

Definition mat_identity : Matrix2D := mkMatrix2D 1 0 0 1.

(** An RGBA colour, as [renpy.easy.color] returns it. *)
Definition Color : Type := (Z * Z * Z * Z)%type.

(** A rectangle [(x, y, w, h)] and a position [(x, y)]. *)
Definition Rect : Type := (Z * Z * Z * Z)%type.
Definition Pos : Type := (Z * Z)%type.

Unset Elimination Schemes.

(** Pixel surfaces of the software renderer: the texture of the child render,
    a part of a surface, a fresh surface with what was blitted on it, and a
    surface resampled to a size. *)
Inductive Surface : Type :=
| source
    (* crend.render_to_texture(True) *)
| surf_subsurface (surf : Surface) (rect : Rect)
    (* surf.subsurface((x, y, w, h)) *)
| surface (w h : Z) (blits : list (Surface * Pos))
    (* swdraw.surface(w, h, True) and pgrender.surface_unscaled((w, h), _) *)
| real_transform_scale (surf : Surface) (size : Z * Z).
    (* renpy.display.scale.real_transform_scale(surf, size) *)

(** What can be blitted, and the render tree.  [Render(width, height)] starts
    with no transform ([forward] and [reverse] unset), no clipping and no
    children; [blit] appends a child at a position. *)
Inductive Render : Type :=
| solid_texture (w h : Q) (color : Color)
    (* renpy.display.draw.solid_texture(w, h, color) *)
| subsurface (rect : Rect)
    (* crend.subsurface((x, y, w, h)) of the child render *)
| of_surface (surf : Surface)
    (* a pixel surface blitted into a render *)
| mkRender (width height : Q) (forward reverse : option Matrix2D)
           (xclipping yclipping : bool) (children : list (Render * Pos)).

Set Elimination Schemes.

Definition Render_new (width height : Q) : Render :=
  mkRender width height None None false false [].

Definition blit (rv : Render) (child : Render) (pos : Pos) : Render :=
  match rv with
  | mkRender w h f r xc yc ch => mkRender w h f r xc yc (ch ++ [(child, pos)])
  | other => other
  end.

Definition set_transform (rv : Render) (f r : Matrix2D) : Render :=
  match rv with
  | mkRender w h _ _ xc yc ch => mkRender w h (Some f) (Some r) xc yc ch
  | other => other
  end.

Definition set_clipping (rv : Render) (xc yc : bool) : Render :=
  match rv with
  | mkRender w h f r _ _ ch => mkRender w h f r xc yc ch
  | other => other
  end.

Definition children_of (rv : Render) : list (Render * Pos) :=
  match rv with
  | mkRender _ _ _ _ _ _ ch => ch
  | _ => []
  end.

Definition forward_of (rv : Render) : option Matrix2D :=
  match rv with
  | mkRender _ _ f _ _ _ _ => f
  | _ => None
  end.

Definition reverse_of (rv : Render) : option Matrix2D :=
  match rv with
  | mkRender _ _ _ r _ _ _ => r
  | _ => None
  end.

(** The size of a render, or of a part of the child render. *)
Definition size_of (rv : Render) : option (Q * Q) :=
  match rv with
  | mkRender w h _ _ _ _ _ => Some (w, h)
  | subsurface (_, _, w, h) => Some (inject_Z w, inject_Z h)
  | solid_texture w h _ => Some (w, h)
  | of_surface _ => None
  end.

(** [surf.blit(child, pos)] on a fresh surface. *)
Definition surf_blit (dest : Surface) (child : Surface) (pos : Pos) : Surface :=
  match dest with
  | surface w h bl => surface w h (bl ++ [(child, pos)])
  | other => other
  end.

(** What was blitted on a fresh surface, and the size of a surface where the
    calls that made it give it. *)
Definition blits_of (dest : Surface) : list (Surface * Pos) :=
  match dest with
  | surface _ _ bl => bl
  | _ => []
  end.

Definition surf_size (surf : Surface) : option (Z * Z) :=
  match surf with
  | source => None
  | surf_subsurface _ (_, _, w, h) => Some (w, h)
  | surface w h _ => Some (w, h)
  | real_transform_scale _ size => Some size
  end.

(** ** [class Solid] *)

Module Solid.

(** What [Solid.render] reads from its collaborators: the style's minimum
    size for a request ([renpy.display.layout.xyminimums]), the style's
    fallback colour, and the virtual size of one drawable pixel
    ([renpy.display.draw.draw_to_virt.transform(1, 1)]). *)
Record Host : Type := mkHost {
  xyminimums : Q -> Q -> Q * Q;
  style_color : option Color;
  draw_to_virt_1_1 : Q * Q
}.

(** [self.color] is a colour or [None]. *)
Record Solid : Type := mkSolid { color : option Color }.

Definition SIZE : Q := 10.

(** Lines 67-70: the request raised to the style's minimum size. *)
Definition styled_size (host : Host) (width height : Q) : Q * Q :=
  let '(xminimum, yminimum) := xyminimums host width height in
  (Py.Qmax xminimum width, Py.Qmax yminimum height).

(** Lines 76-80: the size the texture is made for. *)
Definition effective_size (host : Host) (width height : Q) : Q * Q :=
  let '(width, height) := styled_size host width height in
  if Py.Qtruthy width && Py.Qtruthy height then
    let '(minw, minh) := draw_to_virt_1_1 host in
    (Py.Qmax width minw, Py.Qmax height minh)
  else (width, height).

(** Line 72: [self.color or self.style.color]; a colour is a non-empty
    tuple, hence true. *)
Definition usable_color (host : Host) (self : Solid) : option Color :=
  match color self with
  | Some c => Some c
  | None => style_color host
  end.

Definition render (host : Host) (self : Solid) (width height : Q) : Render :=
  let '(w0, h0) := styled_size host width height in
  let color := usable_color host self in
  let rv := Render_new w0 h0 in
  let '(width, height) := effective_size host width height in
  match color with
  | None => rv
  | Some color =>
    if Py.Qleb width 0 || Py.Qleb height 0 then rv
    else if Py.Qltb width SIZE || Py.Qltb height SIZE then
      let tex := solid_texture width height color in
      blit rv tex (0, 0)
    else
      let tex := solid_texture SIZE SIZE color in
      let rv := set_transform rv
                  (mkMatrix2D (1 * SIZE / width) 0 0 (1 * SIZE / height))
                  (mkMatrix2D (1 * width / SIZE) 0 0 (1 * height / SIZE)) in
      blit rv tex (0, 0)
  end.

(** [__init__]: a colour specification goes through [renpy.easy.color],
    [None] is kept. *)
Definition __init__ {Spec : Type} (easy_color : Spec -> Color) (color : option Spec)
  : Solid :=
  match color with
  | Some c => mkSolid (Some (easy_color c))
  | None => mkSolid None
  end.

(** [==] on [self.color]: colours are tuples, compared field by field, and
    [None] equals only [None]. *)
Definition color_eqb (a b : option Color) : bool :=
  match a, b with
  | Some (r1, g1, b1, a1), Some (r2, g2, b2, a2) =>
      (r1 =? r2) && (g1 =? g2) && (b1 =? b2) && (a1 =? a2)
  | None, None => true
  | _, _ => false
  end.

(** [__hash__] and [__eq__]; [hash] is Python's and [_equals] is the
    displayable's own comparison. *)
Definition __hash__ {H : Type} (hash : option Color -> H) (self : Solid) : H :=
  hash (color self).

Definition __eq__ (_equals : Solid -> Solid -> bool) (self o : Solid) : bool :=
  if negb (_equals self o) then false
  else color_eqb (color self) (color o).

(** [visit]: a solid has no children. *)
Definition visit (self : Solid) : list Render := [].

End Solid.

(** ** [class Borders] *)

Module Borders.

Record Borders : Type := mkBorders {
  left : Z;
  top : Z;
  right : Z;
  bottom : Z;
  pad_left : Z;
  pad_top : Z;
  pad_right : Z;
  pad_bottom : Z
}.

(** [__init__], the padding arguments defaulting to 0. *)
Definition __init__ (left top right bottom : Z)
    (pad_left pad_top pad_right pad_bottom : option Z) : Borders :=
  let default (x : option Z) := match x with Some v => v | None => 0 end in
  mkBorders left top right bottom
            (default pad_left) (default pad_top) (default pad_right) (default pad_bottom).

(** The property [padding]. *)
Definition padding (self : Borders) : Z * Z * Z * Z :=
  (left self + pad_left self,
   top self + pad_top self,
   right self + pad_right self,
   bottom self + pad_bottom self).

End Borders.

(** ** [class Frame] *)

Module Frame.

(** [self.tile]: [False], [True] or the string ["integer"]. *)
Inductive Tile : Type := tile_False | tile_True | tile_integer.

Definition tile_truthy (t : Tile) : bool :=
  match t with tile_False => false | _ => true end.

(** The fields of a frame that the module reads.  [xborder] and [yborder] are
    the two fields of the legacy representation. *)
Record Frame : Type := mkFrame {
  xborder : Z;
  yborder : Z;
  left : Z;
  top : Z;
  right : Z;
  bottom : Z;
  tile : Tile;
  tile_ratio : Q
}.

Definition after_upgrade (self : Frame) (version : Z) : Frame :=
  if version <? 2 then
    mkFrame (xborder self) (yborder self)
            (xborder self) (yborder self) (xborder self) (yborder self)
            (tile self) (tile_ratio self)
  else self.

(** Lines 309-326 of [render]: the borders used for drawing, as
    [(left, top, right, bottom)], from the size [sw], [sh] of the child
    render (integers by lines 306-307) and the size [dw], [dh] of the result
    when that is a whole number, as lines 290-291 make it when [self.tile]
    is on.  With [self.tile] off and a fractional request [dw] is a float;
    that case is [axis_borders64]. *)
Definition borders (self : Frame) (sw sh dw dh : Z) : Z * Z * Z * Z :=
  let bw := left self + right self in
  let bh := top self + bottom self in
  let xborder := Py.min3 bw (sw - 2) dw in
  let '(left', right') :=
    if Py.truthy xborder && Py.truthy bw
    then (left self * xborder / bw, right self * xborder / bw)
    else (0, 0) in
  let yborder := Py.min3 bh (sh - 2) dh in
  let '(top', bottom') :=
    if Py.truthy yborder && Py.truthy bh
    then (top self * yborder / bh, bottom self * yborder / bh)
    else (0, 0) in
  (left', top', right', bottom').

(** One axis of [borders] on its own: lines 309-318, which lines 320-326
    repeat with the names of the other axis.  Used to reason about
    [borders] one axis at a time. *)
Definition axis_borders (a b s d : Z) : Z * Z :=
  let n := a + b in
  let x := Py.min3 n (s - 2) d in
  if Py.truthy x && Py.truthy n then (a * x / n, b * x / n) else (0, 0).

(** Lines 312-318 for a result extent [d] that is a float, as [dw] is by line
    293 when [self.tile] is off and the request is a float.  [min] keeps the
    integer [min(bw, sw - 2)] unless [d] is less; when [d] is the minimum,
    [self.left * xborder] is the binary64 product and [//] floors its
    quotient by [bw].  The borders are floats of integral value then, given
    as integers; an infinite or undefined [d] or product gives [None]. *)
Definition axis_borders64 (a b s : Z) (d : float) : option (Z * Z) :=
  let n := a + b in
  let x := Z.min n (s - 2) in
  match Py.float_value d with
  | None => None
  | Some dq =>
    if Py.Qltb dq (inject_Z x) then
      if Py.Qtruthy dq && Py.truthy n then
        match Py.float_floordiv (Py.float_of_Z a * d)%float n,
              Py.float_floordiv (Py.float_of_Z b * d)%float n with
        | Some l, Some r => Some (l, r)
        | _, _ => None
        end
      else Some (0, 0)
    else
      if Py.truthy x && Py.truthy n then Some (a * x / n, b * x / n) else Some (0, 0)
  end.

(** The "left side" and "top side" blocks of [draw]: a coordinate [c0 >= 0]
    is measured from the near edge, a negative one from the far edge.  The
    result is the destination and the source coordinate. *)
Definition near_side (d s c0 : Z) : Z * Z :=
  if c0 >=? 0 then (c0, c0) else (d + c0, s + c0).

(** The "right side" and "bottom side" blocks: [c1 > 0] is measured from the
    near edge, [c1 <= 0] from the far edge. *)
Definition far_side (d s c1 : Z) : Z * Z :=
  if c1 >? 0 then (c1, c1) else (d + c1, s + c1).

(** Lines 387-402: the tile counts and the size [ctw], [cth] of the tiled
    render, as [(xtiles, ytiles, ctw, cth)].  The test of lines 396 and 398
    compares the exact fraction with the exact ratio here; [tiling64] below
    has it on floats, and the two are the same function wherever the two
    tests agree ([tiling64_exact_reading]). *)
Definition tiling (self : Frame) (csw csh cdw cdh : Z) : Z * Z * Z * Z :=
  let xtiles := Z.max 1 (cdw / csw + (if Py.truthy (cdw mod csw) then 1 else 0)) in
  let ytiles := Z.max 1 (cdh / csh + (if Py.truthy (cdh mod csh) then 1 else 0)) in
  if Py.truthy (cdw mod csw) || Py.truthy (cdh mod csh) then
    match tile self with
    | tile_integer =>
      let xtiles :=
        if Py.Qltb (inject_Z (cdw mod csw) / inject_Z csw) (tile_ratio self)
        then Z.max 1 (xtiles - 1) else xtiles in
      let ytiles :=
        if Py.Qltb (inject_Z (cdh mod csh) / inject_Z csh) (tile_ratio self)
        then Z.max 1 (ytiles - 1) else ytiles in
      (xtiles, ytiles, csw * xtiles, csh * ytiles)
    | _ => (xtiles, ytiles, cdw, cdh)
    end
  else (xtiles, ytiles, cdw, cdh).

(** One axis of [tiling] on its own: the count of line 389 (and 390), and
    the count after the test of lines 396-397 (and 398-399). *)
Definition base_count (d s : Z) : Z :=
  Z.max 1 (d / s + (if Py.truthy (d mod s) then 1 else 0)).

Definition integer_count (d s : Z) (ratio : Q) : Z :=
  if Py.Qltb (inject_Z (d mod s) / inject_Z s) ratio
  then Z.max 1 (base_count d s - 1) else base_count d s.

(** The test of lines 396 and 398 as Python evaluates it, for the remainder
    [m = d % s]: [m / float(s) < self.tile_ratio].  [float(s)] and [m] are
    turned into floats, the quotient is the binary64 one, rounded to nearest,
    and [<] compares two floats; [self.tile_ratio] is a float by line 232. *)
Definition ratio_test64 (tile_ratio : float) (m s : Z) : bool :=
  (Py.float_of_Z m / Py.float_of_Z s <? tile_ratio)%float.

(** Lines 387-402 with that test: [tiling] with [self.tile] and
    [self.tile_ratio] given apart, the ratio as the float it is. *)
Definition tiling64 (tile : Tile) (tile_ratio : float) (csw csh cdw cdh : Z)
  : Z * Z * Z * Z :=
  let xtiles := Z.max 1 (cdw / csw + (if Py.truthy (cdw mod csw) then 1 else 0)) in
  let ytiles := Z.max 1 (cdh / csh + (if Py.truthy (cdh mod csh) then 1 else 0)) in
  if Py.truthy (cdw mod csw) || Py.truthy (cdh mod csh) then
    match tile with
    | tile_integer =>
      let xtiles :=
        if ratio_test64 tile_ratio (cdw mod csw) csw
        then Z.max 1 (xtiles - 1) else xtiles in
      let ytiles :=
        if ratio_test64 tile_ratio (cdh mod csh) csh
        then Z.max 1 (ytiles - 1) else ytiles in
      (xtiles, ytiles, csw * xtiles, csh * ytiles)
    | _ => (xtiles, ytiles, cdw, cdh)
    end
  else (xtiles, ytiles, cdw, cdh).

(** One axis of [tiling64]: the count after the test. *)
Definition integer_count64 (d s : Z) (tile_ratio : float) : Z :=
  if ratio_test64 tile_ratio (d mod s) s
  then Z.max 1 (base_count d s - 1) else base_count d s.

(** Lines 408-410: the tiles blitted into the new render. *)
Definition blit_tiles (newcr cr : Render) (csw csh xtiles ytiles : Z) : Render :=
  fold_left
    (fun acc x =>
       fold_left (fun acc y => blit acc cr (x * csw, y * csh)) (Py.range ytiles) acc)
    (Py.range xtiles) newcr.

(** The children the loops of lines 408-410 add, column by column, and the
    clipping render that holds them. *)
Definition tile_grid (cr : Render) (csw csh xtiles ytiles : Z) : list (Render * Pos) :=
  flat_map (fun x => map (fun y => (cr, (x * csw, y * csh))) (Py.range ytiles))
           (Py.range xtiles).

Definition tiled (cr : Render) (csw csh xtiles ytiles ctw cth : Z) : Render :=
  mkRender (inject_Z ctw) (inject_Z cth) None None true true
           (tile_grid cr csw csh xtiles ytiles).

(** The scaling render of lines 417-420. *)
Definition scaled (cr : Render) (csw csh cdw cdh : Z) : Render :=
  let newcr := Render_new (inject_Z cdw) (inject_Z cdh) in
  let newcr :=
    set_transform newcr
      (mkMatrix2D (1 * inject_Z csw / inject_Z cdw) 0 0 (1 * inject_Z csh / inject_Z cdh))
      (mkMatrix2D (1 * inject_Z cdw / inject_Z csw) 0 0 (1 * inject_Z cdh / inject_Z csh)) in
  blit newcr cr (0, 0).

(** Lines 384-422: "scale or tile if we have to". *)
Definition resize (self : Frame) (cr : Render) (csw csh cdw cdh : Z) : Render :=
  if negb (csw =? cdw) || negb (csh =? cdh) then
    let '(cr, csw, csh) :=
      if tile_truthy (tile self) then
        let '(xtiles, ytiles, ctw, cth) := tiling self csw csh cdw cdh in
        let newcr := Render_new (inject_Z ctw) (inject_Z cth) in
        let newcr := set_clipping newcr true true in
        let newcr := blit_tiles newcr cr csw csh xtiles ytiles in
        (newcr, ctw, cth)
      else (cr, csw, csh) in
    if negb (csw =? cdw) || negb (csh =? cdh)
    then scaled cr csw csh cdw cdh
    else cr
  else cr.

(** Lines 384-422 with the binary64 test: [resize] over [tiling64]. *)
Definition resize64 (tile : Tile) (tile_ratio : float) (cr : Render)
    (csw csh cdw cdh : Z) : Render :=
  if negb (csw =? cdw) || negb (csh =? cdh) then
    let '(cr, csw, csh) :=
      if tile_truthy tile then
        let '(xtiles, ytiles, ctw, cth) := tiling64 tile tile_ratio csw csh cdw cdh in
        let newcr := Render_new (inject_Z ctw) (inject_Z cth) in
        let newcr := set_clipping newcr true true in
        let newcr := blit_tiles newcr cr csw csh xtiles ytiles in
        (newcr, ctw, cth)
      else (cr, csw, csh) in
    if negb (csw =? cdw) || negb (csh =? cdh)
    then scaled cr csw csh cdw cdh
    else cr
  else cr.

(** The local function [draw] of [render]; [rv] is the render it blits
    into, returned with the cell added or as it was. *)
Definition draw (self : Frame) (sw sh dw dh : Z) (x0 x1 y0 y1 : Z) (rv : Render)
  : Render :=
  let '(dx0, sx0) := near_side dw sw x0 in
  let '(dx1, sx1) := far_side dw sw x1 in
  let '(dy0, sy0) := near_side dh sh y0 in
  let '(dy1, sy1) := far_side dh sh y1 in
  if (sx0 =? sx1) || (sy0 =? sy1) then rv else
  let csw := sx1 - sx0 in
  let csh := sy1 - sy0 in
  let cdw := dx1 - dx0 in
  let cdh := dy1 - dy0 in
  if (csw <=? 0) || (csh <=? 0) || (cdh <=? 0) || (cdw <=? 0) then rv else
  let cr := subsurface (sx0, sy0, csw, csh) in
  let cr := resize self cr csw csh cdw cdh in
  blit rv cr (dx0, dy0).

(** [draw_pattern]: the calls to [draw], in order; [draw] acts on a state. *)
Definition draw_pattern {S : Type} (draw : Z -> Z -> Z -> Z -> S -> S)
    (left top right bottom : Z) (s : S) : S :=
  (* Top row. *)
  let s :=
    if Py.truthy top then
      let s := if Py.truthy left then draw 0 left 0 top s else s in
      let s := draw left (- right) 0 top s in
      if Py.truthy right then draw (- right) 0 0 top s else s
    else s in
  (* Middle row. *)
  let s := if Py.truthy left then draw 0 left top (- bottom) s else s in
  let s := draw left (- right) top (- bottom) s in
  let s := if Py.truthy right then draw (- right) 0 top (- bottom) s else s in
  (* Bottom row. *)
  if Py.truthy bottom then
    let s := if Py.truthy left then draw 0 left (- bottom) 0 s else s in
    let s := draw left (- right) (- bottom) 0 s in
    if Py.truthy right then draw (- right) 0 (- bottom) 0 s else s
  else s.

(** The local function [draw] of [sw_render]; [sw], [sh] is the size of the
    source texture and [dest] the surface it blits into.  The result size
    [dw], [dh] is a whole number here, and so are the corners of every cell:
    [int] in line 516 leaves the extents as they are. *)
Definition sw_draw (self : Frame) (sw sh dw dh : Z) (x0 x1 y0 y1 : Z)
    (dest : Surface) : Surface :=
  let '(dx0, sx0) := near_side dw sw x0 in
  let '(dx1, sx1) := far_side dw sw x1 in
  let '(dy0, sy0) := near_side dh sh y0 in
  let '(dy1, sy1) := far_side dh sh y1 in
  if (sx0 =? sx1) || (sy0 =? sy1) || (dx1 <=? dx0) || (dy1 <=? dy0) then dest else
  let srcsize := (sx1 - sx0, sy1 - sy0) in
  let dstsize := (dx1 - dx0, dy1 - dy0) in
  let size_ne (a b : Z * Z) := negb ((fst a =? fst b) && (snd a =? snd b)) in
  let surf := surf_subsurface source (sx0, sy0, fst srcsize, snd srcsize) in
  let surf :=
    if size_ne dstsize srcsize then
      let '(surf, srcsize) :=
        if tile_truthy (tile self) then
          let '(tilew, tileh) := srcsize in
          let '(dstw, dsth) := dstsize in
          let xtiles := Z.max 1 (dstw / tilew + (if Py.truthy (dstw mod tilew) then 1 else 0)) in
          let ytiles := Z.max 1 (dsth / tileh + (if Py.truthy (dsth mod tileh) then 1 else 0)) in
          let '(xtiles, ytiles) :=
            if Py.truthy (dstw mod tilew) || Py.truthy (dsth mod tileh) then
              match tile self with
              | tile_integer =>
                let xtiles :=
                  if Py.Qltb (inject_Z (dstw mod tilew) / inject_Z tilew) (tile_ratio self)
                  then Z.max 1 (xtiles - 1) else xtiles in
                let ytiles :=
                  if Py.Qltb (inject_Z (dsth mod tileh) / inject_Z tileh) (tile_ratio self)
                  then Z.max 1 (ytiles - 1) else ytiles in
                (xtiles, ytiles)
              | _ => (xtiles, ytiles)
              end
            else (xtiles, ytiles) in
          let surf2 := surface (tilew * xtiles) (tileh * ytiles) [] in
          let surf2 :=
            fold_left
              (fun acc y =>
                 fold_left (fun acc x => surf_blit acc surf (x * tilew, y * tileh))
                           (Py.range xtiles) acc)
              (Py.range ytiles) surf2 in
          match tile self with
          | tile_True => (surf_subsurface surf2 (0, 0, dstw, dsth), srcsize)
          | _ => (surf2, (tilew * xtiles, tileh * ytiles))
          end
        else (surf, srcsize) in
      if size_ne dstsize srcsize
      then real_transform_scale surf dstsize
      else surf
    else surf in
  surf_blit dest surf (dx0, dy0).

(** The blits the loops of lines 542-544 make, row by row. *)
Definition sw_tile_grid (surf : Surface) (tilew tileh xtiles ytiles : Z)
  : list (Surface * Pos) :=
  flat_map (fun y => map (fun x => (surf, (x * tilew, y * tileh))) (Py.range xtiles))
           (Py.range ytiles).

(** [sw_render], with the size [sw], [sh] of the source texture. *)
Definition sw_render (self : Frame) (sw sh dw dh : Z) (left top right bottom : Z)
  : Render :=
  let dest := surface dw dh [] in
  let rv := draw_pattern (sw_draw self sw sh dw dh) left top right bottom dest in
  let rrv := Render_new (inject_Z dw) (inject_Z dh) in
  blit rrv (of_surface rv) (0, 0).

(** What [render] reads from its collaborators: the style's minimum size,
    the size of the child render for a requested size, whether the renderer
    is the software one, and the size of the child's texture there. *)
Record Host : Type := mkHost {
  xminimum : Z;
  yminimum : Z;
  child_size : Z -> Z -> Z * Z;
  renderer_is_sw : bool;
  texture_size : Z * Z -> Z * Z
}.

(** Lines 285-294 for any request, a float or an integer, and a minimum
    size of the style of either kind: the size of the result is the request
    raised to the minimum, and its integer part when [self.tile] is on. *)
Definition result_size (xminimum yminimum : Q) (tile : Tile) (width height : Q)
  : Q * Q :=
  let width := Py.Qmax xminimum width in
  let height := Py.Qmax yminimum height in
  if tile_truthy tile
  then (inject_Z (Py.Qint width), inject_Z (Py.Qint height))
  else (width, height).

(** Lines 285-294: the size of the result, for an integral request (on
    which [int] is the identity). *)
Definition dest_size (host : Host) (width height : Z) : Z * Z :=
  (Z.max (xminimum host) width, Z.max (yminimum host) height).

(** [render], for an integral request.  [child_size] stands for lines
    296-307: the child rendered at the request (raised to the size of one
    drawable pixel) and the size it reports. *)
Definition render (host : Host) (self : Frame) (width height : Z) : Render :=
  let '(dw, dh) := dest_size host width height in
  let '(sw, sh) := child_size host dw dh in
  let '(left, top, right, bottom) := borders self sw sh dw dh in
  if renderer_is_sw host then
    let '(tw, th) := texture_size host (sw, sh) in
    sw_render self tw th dw dh left top right bottom
  else
    let rv := Render_new (inject_Z dw) (inject_Z dh) in
    draw_pattern (draw self sw sh dw dh) left top right bottom rv.

(** The cells [draw_pattern] enumerates, as the arguments of its calls. *)
Definition cells (left top right bottom : Z) : list (Z * Z * Z * Z) :=
  draw_pattern (fun x0 x1 y0 y1 acc => acc ++ [(x0, x1, y0, y1)])
               left top right bottom [].

(** The destination rectangle [(dx0, dx1, dy0, dy1)] that [draw] resolves
    for a cell. *)
Definition dest_rect (dw dh : Z) (c : Z * Z * Z * Z) : Z * Z * Z * Z :=
  let '(x0, x1, y0, y1) := c in
  (fst (near_side dw 0 x0), fst (far_side dw 0 x1),
   fst (near_side dh 0 y0), fst (far_side dh 0 y1)).

(** The source extents [(csw, csh)] that [draw] resolves for a cell. *)
Definition source_extent (sw sh : Z) (c : Z * Z * Z * Z) : Z * Z :=
  let '(x0, x1, y0, y1) := c in
  (snd (far_side 0 sw x1) - snd (near_side 0 sw x0),
   snd (far_side 0 sh y1) - snd (near_side 0 sh y0)).

(** The spans [(c0, c1)] that [draw_pattern] uses on one axis, for the near
    border [a] and the far border [b]; and rows by columns, row by row.
    [cells] is the grid of the spans of the two axes ([cells_grid]). *)
Definition spans (a b : Z) : list (Z * Z) :=
  (if Py.truthy a then [(0, a)] else [])
  ++ [(a, - b)]
  ++ (if Py.truthy b then [(- b, 0)] else []).

Definition grid (xs ys : list (Z * Z)) : list (Z * Z * Z * Z) :=
  flat_map (fun y => map (fun x => (fst x, snd x, fst y, snd y)) xs) ys.

(** The destination interval that [draw] resolves for a span. *)
Definition resolve_span (d : Z) (c : Z * Z) : Z * Z :=
  (fst (near_side d 0 (fst c)), fst (far_side d 0 (snd c))).

Definition total_length (spans : list (Z * Z)) : Z :=
  fold_right (fun i acc => (snd i - fst i) + acc) 0 spans.

(** A coordinate lies in an interval, its far end excluded. *)
Definition in_span (i : Z * Z) (p : Z) : Prop := fst i <= p < snd i.

(** A cell whose destination extents are both positive. *)
Definition nondegenerate (dw dh : Z) (c : Z * Z * Z * Z) : bool :=
  let '(dx0, dx1, dy0, dy1) := dest_rect dw dh c in
  (0 <? dx1 - dx0) && (0 <? dy1 - dy0).

(** What [draw] blits for a cell it does not skip: the resized part of the
    child, at the corner of the destination rectangle. *)
Definition blit_of_cell (self : Frame) (sw sh dw dh : Z) (c : Z * Z * Z * Z)
  : Render * Pos :=
  let '(x0, x1, y0, y1) := c in
  let '(csw, csh) := source_extent sw sh c in
  let '(dx0, dx1, dy0, dy1) := dest_rect dw dh c in
  (resize self
     (subsurface (snd (near_side dw sw x0), snd (near_side dh sh y0), csw, csh))
     csw csh (dx1 - dx0) (dy1 - dy0),
   (dx0, dy0)).

Definition area (r : Z * Z * Z * Z) : Z :=
  let '(dx0, dx1, dy0, dy1) := r in (dx1 - dx0) * (dy1 - dy0).

(** A pixel [(px, py)] lies in a rectangle, its far sides excluded. *)
Definition covers (r : Z * Z * Z * Z) (px py : Z) : Prop :=
  let '(dx0, dx1, dy0, dy1) := r in dx0 <= px < dx1 /\ dy0 <= py < dy1.

Definition total_area (rs : list (Z * Z * Z * Z)) : Z :=
  fold_right (fun r acc => area r + acc) 0 rs.

(** The argument [left] of [__init__]: absent, a size, or a [Borders]. *)
Inductive LeftArg : Type :=
| left_None
| left_size (n : Z)
| left_Borders (insets : Borders.Borders).

(** Lines 221-248 of [__init__]: the insets, the tile mode and the ratio
    stored in the frame, as [(left, top, right, bottom, tile, tile_ratio)]. *)
Definition __init__ (left : LeftArg) (top right bottom : option Z)
    (xborder yborder : Z) (tile : Tile) (tile_ratio : Q)
  : Z * Z * Z * Z * Tile * Q :=
  let '(left, top, right, bottom) :=
    match left with
    | left_Borders insets =>
        (Some (Borders.left insets), Some (Borders.top insets),
         Some (Borders.right insets), Some (Borders.bottom insets))
    | left_size n => (Some n, top, right, bottom)
    | left_None => (None, top, right, bottom)
    end in
  (* Compat for old argument names. *)
  let left := match left with None => xborder | Some v => v end in
  let top := match top with None => yborder | Some v => v end in
  let right := match right with None => left | Some v => v end in
  let bottom := match bottom with None => top | Some v => v end in
  (left, top, right, bottom, tile, tile_ratio).

(** [==] on [self.tile]. *)
Definition tile_eqb (a b : Tile) : bool :=
  match a, b with
  | tile_False, tile_False | tile_True, tile_True | tile_integer, tile_integer => true
  | _, _ => false
  end.

(** [__eq__]; [_equals] is the displayable's own comparison and [image_ne]
    the answer of [self.image != o.image]. *)
Definition __eq__ (_equals : Frame -> Frame -> bool) (image_ne : bool)
    (self o : Frame) : bool :=
  if negb (_equals self o) then false
  else if image_ne then false
  else if negb (left self =? left o) then false
  else if negb (top self =? top o) then false
  else if negb (right self =? right o) then false
  else if negb (bottom self =? bottom o) then false
  else if negb (tile_eqb (tile self) (tile o)) then false
  else if negb (Py.Qeqb (tile_ratio self) (tile_ratio o)) then false
  else true.

(** A pixel lies in the tile blitted at [pos], of the size of the source
    cell. *)
Definition in_tile (csw csh : Z) (pos : Pos) (px py : Z) : Prop :=
  fst pos <= px < fst pos + csw /\ snd pos <= py < snd pos + csh.

End Frame.

(** * Properties *)

(** ** Python built-ins *)

Lemma truthy_true_iff (n : Z) : Py.truthy n = true <-> n <> 0.
Proof.
  unfold Py.truthy. destruct (Z.eqb_spec n 0); simpl; split; intros; congruence.
Qed.

Lemma truthy_false_iff (n : Z) : Py.truthy n = false <-> n = 0.
Proof.
  unfold Py.truthy. destruct (Z.eqb_spec n 0); simpl; split; intros; congruence.
Qed.

Lemma Qltb_lt (a b : Q) : Py.Qltb a b = true <-> (a < b)%Q.
Proof. unfold Py.Qltb, Qlt. apply Z.ltb_lt. Qed.

Lemma Qltb_ge (a b : Q) : Py.Qltb a b = false <-> (b <= a)%Q.
Proof. unfold Py.Qltb, Qle. apply Z.ltb_ge. Qed.

Lemma Qleb_le (a b : Q) : Py.Qleb a b = true <-> (a <= b)%Q.
Proof. apply Qle_bool_iff. Qed.

Lemma Qleb_gt (a b : Q) : Py.Qleb a b = false <-> (b < a)%Q.
Proof.
  rewrite <- not_true_iff_false, Qleb_le. split.
  - apply Qnot_le_lt.
  - apply Qlt_not_le.
Qed.

Lemma min3_spec (a b c : Z) :
  Py.min3 a b c <= a /\ Py.min3 a b c <= b /\ Py.min3 a b c <= c /\
  (Py.min3 a b c = a \/ Py.min3 a b c = b \/ Py.min3 a b c = c).
Proof. unfold Py.min3. lia. Qed.

(** ** Border clamping *)

(** Two floors of complementary shares of [x] lose at most one unit. *)
Lemma floor_shares (a b n x : Z) :
  0 < n -> a + b = n -> x - 1 <= a * x / n + b * x / n <= x.
Proof.
  intros Hn Hab.
  pose proof (Z.div_mod (a * x) n ltac:(lia)) as Ha.
  pose proof (Z.div_mod (b * x) n ltac:(lia)) as Hb.
  pose proof (Z.mod_pos_bound (a * x) n Hn) as Ra.
  pose proof (Z.mod_pos_bound (b * x) n Hn) as Rb.
  set (qa := a * x / n) in *. set (qb := b * x / n) in *.
  assert (E : n * (x - qa - qb) = (a * x) mod n + (b * x) mod n) by nia.
  split; nia.
Qed.

Lemma floor_share_nonneg (a n x : Z) : 0 <= a -> 0 <= x -> 0 < n -> 0 <= a * x / n.
Proof. intros. apply Z.div_pos; nia. Qed.

Lemma borders_axes (self : Frame.Frame) (sw sh dw dh : Z) :
  Frame.borders self sw sh dw dh =
  (fst (Frame.axis_borders (Frame.left self) (Frame.right self) sw dw),
   fst (Frame.axis_borders (Frame.top self) (Frame.bottom self) sh dh),
   snd (Frame.axis_borders (Frame.left self) (Frame.right self) sw dw),
   snd (Frame.axis_borders (Frame.top self) (Frame.bottom self) sh dh)).
Proof.
  unfold Frame.borders, Frame.axis_borders.
  destruct (Py.truthy (Py.min3 (Frame.left self + Frame.right self) (sw - 2) dw)
            && Py.truthy (Frame.left self + Frame.right self));
  destruct (Py.truthy (Py.min3 (Frame.top self + Frame.bottom self) (sh - 2) dh)
            && Py.truthy (Frame.top self + Frame.bottom self));
  reflexivity.
Qed.

Lemma axis_borders_split (a b s d : Z) :
  let n := a + b in
  let x := Py.min3 n (s - 2) d in
  (0 < x -> 0 < n ->
     Frame.axis_borders a b s d = (a * x / n, b * x / n) /\
     x - 1 <= a * x / n + b * x / n <= x) /\
  (x = 0 \/ n = 0 -> Frame.axis_borders a b s d = (0, 0)).
Proof.
  intros n x. unfold Frame.axis_borders. fold n. fold x. split.
  - intros Hx Hn.
    assert (Tx : Py.truthy x = true) by (apply truthy_true_iff; lia).
    assert (Tn : Py.truthy n = true) by (apply truthy_true_iff; lia).
    rewrite Tx, Tn. simpl. split; [reflexivity|].
    apply floor_shares; [assumption | reflexivity].
  - intros [Hx | Hn].
    + apply truthy_false_iff in Hx. rewrite Hx. reflexivity.
    + apply truthy_false_iff in Hn. rewrite Hn, andb_false_r. reflexivity.
Qed.

Lemma axis_borders_bound (a b s d : Z) :
  0 <= a -> 0 <= b -> 2 <= s -> 0 <= d ->
  let x := Py.min3 (a + b) (s - 2) d in
  let '(l, r) := Frame.axis_borders a b s d in
  0 <= l /\ 0 <= r /\ l + r <= x /\ (x = 0 \/ a + b = 0 -> l = 0 /\ r = 0).
Proof.
  intros Ha Hb Hs Hd x.
  pose proof (min3_spec (a + b) (s - 2) d) as M. fold x in M.
  assert (Hx : 0 <= x) by lia.
  pose proof (axis_borders_split a b s d) as [Hpos Hzero]. cbv zeta in Hpos, Hzero.
  fold x in Hpos, Hzero.
  destruct (Z.eq_dec x 0) as [Ex | Nx].
  - rewrite (Hzero (or_introl Ex)). lia.
  - destruct (Z.eq_dec (a + b) 0) as [En | Nn].
    + rewrite (Hzero (or_intror En)). lia.
    + destruct (Hpos ltac:(lia) ltac:(lia)) as [E B]. rewrite E.
      pose proof (floor_share_nonneg a (a + b) x Ha Hx ltac:(lia)).
      pose proof (floor_share_nonneg b (a + b) x Hb Hx ltac:(lia)).
      repeat split; try lia.
Qed.

(** C1, as amended, for a result size [dw], [dh] that is a whole number.
    With [xb = min(left+right, sw-2, dw)]: when [xb > 0] and
    [left+right > 0] the two borders are floored shares of [xb], the left one
    [left*xb // (left+right)] and the right one [right*xb // (left+right)],
    so their sum is [xb] or [xb - 1]; when [xb = 0] or [left+right = 0] both
    are 0.  The same holds for top and bottom with [top+bottom], [sh], [dh]. *)
Theorem borders_floored_shares (self : Frame.Frame) (sw sh dw dh : Z) :
  let bw := Frame.left self + Frame.right self in
  let bh := Frame.top self + Frame.bottom self in
  let xb := Py.min3 bw (sw - 2) dw in
  let yb := Py.min3 bh (sh - 2) dh in
  let '(l, t, r, b) := Frame.borders self sw sh dw dh in
  (0 < xb -> 0 < bw ->
     l = Frame.left self * xb / bw /\ r = Frame.right self * xb / bw /\
     xb - 1 <= l + r <= xb) /\
  (xb = 0 \/ bw = 0 -> l = 0 /\ r = 0) /\
  (0 < yb -> 0 < bh ->
     t = Frame.top self * yb / bh /\ b = Frame.bottom self * yb / bh /\
     yb - 1 <= t + b <= yb) /\
  (yb = 0 \/ bh = 0 -> t = 0 /\ b = 0).
Proof.
  intros bw bh xb yb. rewrite borders_axes.
  pose proof (axis_borders_split (Frame.left self) (Frame.right self) sw dw) as [Xp Xz].
  pose proof (axis_borders_split (Frame.top self) (Frame.bottom self) sh dh) as [Yp Yz].
  cbv zeta in Xp, Xz, Yp, Yz. fold bw in Xp, Xz. fold bh in Yp, Yz.
  fold xb in Xp, Xz. fold yb in Yp, Yz.
  repeat split.
  - destruct (Xp H H0) as [E _]. rewrite E. reflexivity.
  - destruct (Xp H H0) as [E _]. rewrite E. reflexivity.
  - destruct (Xp H H0) as [E B]. rewrite E. simpl. lia.
  - destruct (Xp H H0) as [E B]. rewrite E. simpl. lia.
  - rewrite (Xz H). reflexivity.
  - rewrite (Xz H). reflexivity.
  - destruct (Yp H H0) as [E _]. rewrite E. reflexivity.
  - destruct (Yp H H0) as [E _]. rewrite E. reflexivity.
  - destruct (Yp H H0) as [E B]. rewrite E. simpl. lia.
  - destruct (Yp H H0) as [E B]. rewrite E. simpl. lia.
  - rewrite (Yz H). reflexivity.
  - rewrite (Yz H). reflexivity.
Qed.

Lemma borders_floored_shares_witness :
  Frame.borders (Frame.mkFrame 0 0 3 1 4 1 Frame.tile_False 0.5) 100 100 5 0
  = (2, 0, 2, 0).
Proof.
  pose proof (borders_floored_shares
                (Frame.mkFrame 0 0 3 1 4 1 Frame.tile_False 0.5) 100 100 5 0) as H.
  cbv zeta in H.
  destruct (Frame.borders (Frame.mkFrame 0 0 3 1 4 1 Frame.tile_False 0.5) 100 100 5 0)
    as [[[l t] r] b].
  destruct H as (Hx & _ & _ & Hy).
  destruct Hx as (Hl & Hr & _); [reflexivity | reflexivity |].
  destruct Hy as (Ht & Hb); [left; reflexivity |].
  rewrite Hl, Hr, Ht, Hb. reflexivity.
Defined.

(** C1 as stated fails.  With borders 3 and 4, a child 100 wide and a result
    5 wide, [xb = 5] and the left border is [3*5 // 7 = 2], but the right
    border is [4*5 // 7 = 2], not [xb - 2 = 3].  And with borders 5 and 5 over
    a child 0 wide, [xb = -2] is not positive, yet the borders are -1 and -1,
    not 0. *)
Lemma borders_right_is_not_the_remainder :
  (let self := Frame.mkFrame 0 0 3 1 4 1 Frame.tile_False 0.5 in
   let xb := Py.min3 (3 + 4) (100 - 2) 5 in
   let '(l, _, r, _) := Frame.borders self 100 100 5 100 in
   0 < xb /\ 0 < 3 + 4 /\ l = 3 * xb / (3 + 4) /\ r <> xb - l /\ l + r <> xb) /\
  (let self := Frame.mkFrame 0 0 5 5 5 5 Frame.tile_False 0.5 in
   let xb := Py.min3 (5 + 5) (0 - 2) 100 in
   let '(l, _, r, _) := Frame.borders self 0 0 100 100 in
   ~ 0 < xb /\ l <> 0 /\ r <> 0).
Proof. cbv. repeat split; congruence. Qed.



(** ** Legacy upgrade *)

(** C10.  A frame persisted at a version below 2 is upgraded to
    [left = right = xborder] and [top = bottom = yborder]; the other fields
    are kept. *)
Theorem after_upgrade_legacy (self : Frame.Frame) (version : Z) :
  version < 2 ->
  let f := Frame.after_upgrade self version in
  Frame.left f = Frame.xborder self /\ Frame.right f = Frame.xborder self /\
  Frame.top f = Frame.yborder self /\ Frame.bottom f = Frame.yborder self /\
  Frame.xborder f = Frame.xborder self /\ Frame.yborder f = Frame.yborder self /\
  Frame.tile f = Frame.tile self /\ Frame.tile_ratio f = Frame.tile_ratio self.
Proof.
  intros Hv f. unfold f, Frame.after_upgrade.
  apply Z.ltb_lt in Hv. rewrite Hv. simpl. repeat split.
Qed.

Lemma after_upgrade_legacy_witness :
  let f := Frame.after_upgrade (Frame.mkFrame 5 3 0 0 0 0 Frame.tile_False 0.5) 1 in
  (Frame.left f, Frame.right f, Frame.top f, Frame.bottom f) = (5, 5, 3, 3).
Proof.
  pose proof (after_upgrade_legacy
                (Frame.mkFrame 5 3 0 0 0 0 Frame.tile_False 0.5) 1 ltac:(lia)) as H.
  cbv zeta in H. destruct H as (Hl & Hr & Ht & Hb & _).
  cbv zeta. rewrite Hl, Hr, Ht, Hb. reflexivity.
Defined.

Lemma after_upgrade_current (self : Frame.Frame) (version : Z) :
  2 <= version -> Frame.after_upgrade self version = self.
Proof.
  intros Hv. unfold Frame.after_upgrade.
  destruct (Z.ltb_spec version 2); [lia | reflexivity].
Qed.

(** ** The nine-slice grid *)

Lemma near_side_nonneg (d s c : Z) : 0 <= c -> Frame.near_side d s c = (c, c).
Proof. intros H. unfold Frame.near_side. destruct (Z.geb_spec c 0); [reflexivity | lia]. Qed.

Lemma near_side_neg (d s c : Z) : c < 0 -> Frame.near_side d s c = (d + c, s + c).
Proof. intros H. unfold Frame.near_side. destruct (Z.geb_spec c 0); [lia | reflexivity]. Qed.

Lemma far_side_pos (d s c : Z) : 0 < c -> Frame.far_side d s c = (c, c).
Proof. intros H. unfold Frame.far_side. destruct (Z.gtb_spec c 0); [reflexivity | lia]. Qed.

Lemma far_side_nonpos (d s c : Z) : c <= 0 -> Frame.far_side d s c = (d + c, s + c).
Proof. intros H. unfold Frame.far_side. destruct (Z.gtb_spec c 0); [lia | reflexivity]. Qed.

(** Rewrites every resolved coordinate whose sign is known. *)
Ltac resolve_sides :=
  repeat match goal with
  | |- context [Frame.near_side ?d ?s ?c] =>
      first [ rewrite (near_side_nonneg d s c) by lia
            | rewrite (near_side_neg d s c) by lia ]
  | |- context [Frame.far_side ?d ?s ?c] =>
      first [ rewrite (far_side_pos d s c) by lia
            | rewrite (far_side_nonpos d s c) by lia ]
  end.

(** Splits on which of the four borders are zero. *)
Ltac split_borders l t r b :=
  destruct (Z.eqb_spec l 0); destruct (Z.eqb_spec t 0);
  destruct (Z.eqb_spec r 0); destruct (Z.eqb_spec b 0); subst; simpl.

(** [draw_pattern] runs [draw] over [cells], in order. *)
Lemma draw_pattern_cells {S : Type} (draw : Z -> Z -> Z -> Z -> S -> S)
    (l t r b : Z) (s : S) :
  Frame.draw_pattern draw l t r b s =
  fold_left (fun s c => let '(x0, x1, y0, y1) := c in draw x0 x1 y0 y1 s)
            (Frame.cells l t r b) s.
Proof.
  unfold Frame.cells, Frame.draw_pattern, Py.truthy.
  split_borders l t r b; reflexivity.
Qed.

Lemma cells_grid (l t r b : Z) :
  Frame.cells l t r b = Frame.grid (Frame.spans l r) (Frame.spans t b).
Proof.
  unfold Frame.cells, Frame.draw_pattern, Frame.grid, Frame.spans.
  destruct (Py.truthy l), (Py.truthy t), (Py.truthy r), (Py.truthy b); reflexivity.
Qed.

Lemma dest_rect_grid (dw dh : Z) (xs ys : list (Z * Z)) :
  map (Frame.dest_rect dw dh) (Frame.grid xs ys)
  = Frame.grid (map (Frame.resolve_span dw) xs) (map (Frame.resolve_span dh) ys).
Proof.
  unfold Frame.grid. induction ys as [|y ys IH]; [reflexivity |].
  cbn [flat_map map]. rewrite map_app, IH, !map_map. reflexivity.
Qed.

(** One axis: the resolved spans are [0..a], [a..d-b] and [d-b..d], the
    first and the last only for a border that is not zero. *)
Lemma spans_resolved (d a b : Z) :
  0 <= a -> 0 <= b ->
  map (Frame.resolve_span d) (Frame.spans a b)
  = (if Py.truthy a then [(0, a)] else [])
    ++ [(a, d - b)]
    ++ (if Py.truthy b then [(d - b, d)] else []).
Proof.
  intros Ha Hb. unfold Frame.spans, Py.truthy.
  destruct (Z.eqb_spec a 0), (Z.eqb_spec b 0); subst; cbn [negb app map];
    unfold Frame.resolve_span; cbn [fst snd]; resolve_sides; cbn [fst snd];
    repeat f_equal; lia.
Qed.

Lemma spans_partition (d a b : Z) :
  0 <= a -> 0 <= b -> a + b <= d ->
  let ivs := map (Frame.resolve_span d) (Frame.spans a b) in
  Forall (fun i => 0 <= fst i <= snd i /\ snd i <= d) ivs /\
  Frame.total_length ivs = d /\
  ForallOrdPairs (fun i j => forall p, ~ (Frame.in_span i p /\ Frame.in_span j p)) ivs /\
  (forall p, 0 <= p < d -> Exists (fun i => Frame.in_span i p) ivs).
Proof.
  intros Ha Hb Hd ivs. subst ivs. rewrite spans_resolved by assumption.
  unfold Py.truthy, Frame.total_length, Frame.in_span.
  destruct (Z.eqb_spec a 0), (Z.eqb_spec b 0); subst; cbn [negb app fold_right fst snd];
    (split; [repeat constructor; cbn [fst snd]; lia |]);
    (split; [lia |]);
    (split; [repeat constructor; cbn [fst snd]; intros; lia |]);
    intros p Hp; repeat rewrite Exists_cons; rewrite Exists_nil; cbn [fst snd]; lia.
Qed.

(** Two axes: what holds of the intervals of each axis holds of the grid. *)
Lemma grid_within (dw dh : Z) (xs ys : list (Z * Z)) :
  Forall (fun i => 0 <= fst i <= snd i /\ snd i <= dw) xs ->
  Forall (fun i => 0 <= fst i <= snd i /\ snd i <= dh) ys ->
  Forall (fun c => let '(dx0, dx1, dy0, dy1) := c in
                   0 <= dx0 <= dx1 /\ dx1 <= dw /\ 0 <= dy0 <= dy1 /\ dy1 <= dh)
         (Frame.grid xs ys).
Proof.
  intros Hx Hy. unfold Frame.grid. apply Forall_flat_map.
  revert Hy. apply Forall_impl. intros y Py.
  apply Forall_map. revert Hx. apply Forall_impl. intros x Px. lia.
Qed.

Lemma total_area_app (l1 l2 : list (Z * Z * Z * Z)) :
  Frame.total_area (l1 ++ l2) = Frame.total_area l1 + Frame.total_area l2.
Proof.
  unfold Frame.total_area. induction l1 as [|c l1 IH]; cbn [app fold_right]; lia.
Qed.

Lemma total_area_row (xs : list (Z * Z)) (y : Z * Z) :
  Frame.total_area (map (fun x => (fst x, snd x, fst y, snd y)) xs)
  = Frame.total_length xs * (snd y - fst y).
Proof.
  unfold Frame.total_area, Frame.total_length.
  induction xs as [|x xs IH]; cbn [map fold_right]; [reflexivity |].
  rewrite IH. unfold Frame.area. ring.
Qed.

Lemma grid_total_area (xs ys : list (Z * Z)) :
  Frame.total_area (Frame.grid xs ys) = Frame.total_length xs * Frame.total_length ys.
Proof.
  unfold Frame.grid. induction ys as [|y ys IH]; cbn [flat_map].
  - unfold Frame.total_area, Frame.total_length. cbn [fold_right]. ring.
  - rewrite total_area_app, total_area_row, IH.
    unfold Frame.total_length. cbn [fold_right]. ring.
Qed.

Lemma ForallOrdPairs_app {A : Type} (R : A -> A -> Prop) (l1 l2 : list A) :
  ForallOrdPairs R l1 -> ForallOrdPairs R l2 ->
  (forall a, In a l1 -> Forall (R a) l2) ->
  ForallOrdPairs R (l1 ++ l2).
Proof.
  intros H1 H2 H12. induction H1 as [|a l1 Ha H1 IH]; [exact H2 |].
  cbn [app]. constructor.
  - apply Forall_app. split; [exact Ha | apply H12; left; reflexivity].
  - apply IH. intros a' Hin. apply H12. right. exact Hin.
Qed.

Lemma grid_disjoint (xs ys : list (Z * Z)) :
  ForallOrdPairs (fun i j => forall p, ~ (Frame.in_span i p /\ Frame.in_span j p)) xs ->
  ForallOrdPairs (fun i j => forall p, ~ (Frame.in_span i p /\ Frame.in_span j p)) ys ->
  ForallOrdPairs
    (fun r1 r2 => forall px py, ~ (Frame.covers r1 px py /\ Frame.covers r2 px py))
    (Frame.grid xs ys).
Proof.
  intros Hx Hy. unfold Frame.grid.
  induction Hy as [|y ys Hyy Hy IH]; cbn [flat_map]; [constructor |].
  apply ForallOrdPairs_app; [| exact IH |].
  - clear - Hx. induction Hx as [|x xs Hxx Hx IHx]; cbn [map]; constructor.
    + apply Forall_map. revert Hxx. apply Forall_impl.
      intros x' D px py [[H1 _] [H2 _]]. apply (D px). split; assumption.
    + exact IHx.
  - intros c Hc. apply in_map_iff in Hc as (x & <- & _).
    apply Forall_flat_map. revert Hyy. apply Forall_impl.
    intros y' D. apply Forall_map. apply Forall_forall.
    intros x' _ px py [[_ H1] [_ H2]]. apply (D py). split; assumption.
Qed.

Lemma grid_covers (xs ys : list (Z * Z)) (px py : Z) :
  Exists (fun i => Frame.in_span i px) xs ->
  Exists (fun i => Frame.in_span i py) ys ->
  Exists (fun c => Frame.covers c px py) (Frame.grid xs ys).
Proof.
  intros Hx Hy. unfold Frame.grid. apply Exists_flat_map.
  revert Hy. apply Exists_impl. intros y Iy.
  apply Exists_map. revert Hx. apply Exists_impl. intros x Ix.
  split; assumption.
Qed.

(** The destination rectangles of the enumerated cells lie in the [dw] by
    [dh] rectangle, with non-negative extents. *)
Lemma cells_rects_within (dw dh l t r b : Z) :
  0 <= l -> 0 <= t -> 0 <= r -> 0 <= b -> l + r <= dw -> t + b <= dh ->
  Forall (fun c => let '(dx0, dx1, dy0, dy1) := c in
                   0 <= dx0 <= dx1 /\ dx1 <= dw /\ 0 <= dy0 <= dy1 /\ dy1 <= dh)
         (map (Frame.dest_rect dw dh) (Frame.cells l t r b)).
Proof.
  intros Hl Ht Hr Hb Hw Hh. rewrite cells_grid, dest_rect_grid.
  apply grid_within.
  - apply (spans_partition dw l r); assumption.
  - apply (spans_partition dh t b); assumption.
Qed.

(** Their areas add up to the area of that rectangle. *)
Lemma cells_total_area (dw dh l t r b : Z) :
  0 <= l -> 0 <= t -> 0 <= r -> 0 <= b -> l + r <= dw -> t + b <= dh ->
  Frame.total_area (map (Frame.dest_rect dw dh) (Frame.cells l t r b)) = dw * dh.
Proof.
  intros Hl Ht Hr Hb Hw Hh. rewrite cells_grid, dest_rect_grid, grid_total_area.
  destruct (spans_partition dw l r Hl Hr Hw) as (_ & -> & _).
  destruct (spans_partition dh t b Ht Hb Hh) as (_ & -> & _).
  reflexivity.
Qed.

(** C6.  For non-negative borders with [left + right <= dw] and
    [top + bottom <= dh], the destination rectangles of the cells that
    [draw_pattern] enumerates (rows and columns of a zero border left out)
    have non-negative extents, their areas add up to [dw * dh], no pixel lies
    in two of them, and every pixel of the [dw] by [dh] rectangle lies in
    one. *)
Theorem draw_pattern_partitions (dw dh l t r b : Z) :
  0 <= l -> 0 <= t -> 0 <= r -> 0 <= b -> l + r <= dw -> t + b <= dh ->
  let rects := map (Frame.dest_rect dw dh) (Frame.cells l t r b) in
  Forall (fun c => let '(dx0, dx1, dy0, dy1) := c in
                   0 <= dx0 <= dx1 /\ dx1 <= dw /\ 0 <= dy0 <= dy1 /\ dy1 <= dh) rects /\
  Frame.total_area rects = dw * dh /\
  ForallOrdPairs
    (fun r1 r2 => forall px py, ~ (Frame.covers r1 px py /\ Frame.covers r2 px py))
    rects /\
  (forall px py, 0 <= px < dw -> 0 <= py < dh ->
     Exists (fun c => Frame.covers c px py) rects).
Proof.
  intros Hl Ht Hr Hb Hw Hh rects.
  split; [apply cells_rects_within; assumption |].
  split; [apply cells_total_area; assumption |].
  subst rects. rewrite cells_grid, dest_rect_grid.
  destruct (spans_partition dw l r Hl Hr Hw) as (_ & _ & Dx & Cx).
  destruct (spans_partition dh t b Ht Hb Hh) as (_ & _ & Dy & Cy).
  split.
  - apply grid_disjoint; assumption.
  - intros px py Hx Hy. apply grid_covers; [apply Cx | apply Cy]; assumption.
Qed.

Lemma draw_pattern_partitions_witness :
  Frame.total_area (map (Frame.dest_rect 100 50) (Frame.cells 5 3 7 0)) = 5000.
Proof.
  destruct (draw_pattern_partitions 100 50 5 3 7 0
              ltac:(lia) ltac:(lia) ltac:(lia) ltac:(lia) ltac:(lia) ltac:(lia))
    as (_ & A & _).
  exact A.
Defined.

(** ** Degenerate cells *)

(** The extents [draw] computes are those of [source_extent] and
    [dest_rect]. *)
Lemma sides_extents (sw sh dw dh x0 x1 y0 y1 : Z) :
  Frame.source_extent sw sh (x0, x1, y0, y1) =
    (snd (Frame.far_side dw sw x1) - snd (Frame.near_side dw sw x0),
     snd (Frame.far_side dh sh y1) - snd (Frame.near_side dh sh y0)) /\
  Frame.dest_rect dw dh (x0, x1, y0, y1) =
    (fst (Frame.near_side dw sw x0), fst (Frame.far_side dw sw x1),
     fst (Frame.near_side dh sh y0), fst (Frame.far_side dh sh y1)).
Proof.
  unfold Frame.source_extent, Frame.dest_rect, Frame.near_side, Frame.far_side.
  destruct (x0 >=? 0), (x1 >? 0), (y0 >=? 0), (y1 >? 0); split; reflexivity.
Qed.

(** The hardware [draw] leaves the render as it was when an extent of the
    cell, in the source or in the destination, is zero or negative. *)
Lemma draw_skips_degenerate (self : Frame.Frame) (sw sh dw dh x0 x1 y0 y1 : Z)
    (rv : Render) :
  let '(csw, csh) := Frame.source_extent sw sh (x0, x1, y0, y1) in
  let '(dx0, dx1, dy0, dy1) := Frame.dest_rect dw dh (x0, x1, y0, y1) in
  csw <= 0 \/ csh <= 0 \/ dx1 - dx0 <= 0 \/ dy1 - dy0 <= 0 ->
  Frame.draw self sw sh dw dh x0 x1 y0 y1 rv = rv.
Proof.
  destruct (sides_extents sw sh dw dh x0 x1 y0 y1) as [Es Ed]. rewrite Es, Ed.
  unfold Frame.draw.
  destruct (Frame.near_side dw sw x0) as [dx0 sx0].
  destruct (Frame.far_side dw sw x1) as [dx1 sx1].
  destruct (Frame.near_side dh sh y0) as [dy0 sy0].
  destruct (Frame.far_side dh sh y1) as [dy1 sy1]. simpl.
  intros H.
  destruct ((sx0 =? sx1) || (sy0 =? sy1)); [reflexivity|].
  destruct (Z.leb_spec (sx1 - sx0) 0); [reflexivity|].
  destruct (Z.leb_spec (sy1 - sy0) 0); [reflexivity|].
  destruct (Z.leb_spec (dy1 - dy0) 0); [reflexivity|].
  destruct (Z.leb_spec (dx1 - dx0) 0); [reflexivity|].
  lia.
Qed.

(** Otherwise it blits exactly one child, the resized cell, at the corner of
    the destination rectangle. *)
Lemma draw_blits_cell (self : Frame.Frame) (sw sh dw dh x0 x1 y0 y1 : Z)
    (rv : Render) :
  let '(csw, csh) := Frame.source_extent sw sh (x0, x1, y0, y1) in
  let '(dx0, dx1, dy0, dy1) := Frame.dest_rect dw dh (x0, x1, y0, y1) in
  0 < csw -> 0 < csh -> 0 < dx1 - dx0 -> 0 < dy1 - dy0 ->
  Frame.draw self sw sh dw dh x0 x1 y0 y1 rv =
  blit rv
       (Frame.resize self
          (subsurface (snd (Frame.near_side dw sw x0), snd (Frame.near_side dh sh y0),
                       csw, csh))
          csw csh (dx1 - dx0) (dy1 - dy0))
       (dx0, dy0).
Proof.
  destruct (sides_extents sw sh dw dh x0 x1 y0 y1) as [Es Ed]. rewrite Es, Ed.
  unfold Frame.draw.
  destruct (Frame.near_side dw sw x0) as [dx0 sx0].
  destruct (Frame.far_side dw sw x1) as [dx1 sx1].
  destruct (Frame.near_side dh sh y0) as [dy0 sy0].
  destruct (Frame.far_side dh sh y1) as [dy1 sy1]. simpl.
  intros H1 H2 H3 H4.
  destruct (Z.eqb_spec sx0 sx1); [lia|].
  destruct (Z.eqb_spec sy0 sy1); [lia|].
  destruct (Z.leb_spec (sx1 - sx0) 0); [lia|].
  destruct (Z.leb_spec (sy1 - sy0) 0); [lia|].
  destruct (Z.leb_spec (dy1 - dy0) 0); [lia|].
  destruct (Z.leb_spec (dx1 - dx0) 0); [lia|].
  reflexivity.
Qed.

(** The software [draw] leaves the surface as it was when a source extent is
    zero or a destination extent is zero or negative. *)
Lemma sw_draw_skips (self : Frame.Frame) (sw sh dw dh x0 x1 y0 y1 : Z)
    (dest : Surface) :
  let '(csw, csh) := Frame.source_extent sw sh (x0, x1, y0, y1) in
  let '(dx0, dx1, dy0, dy1) := Frame.dest_rect dw dh (x0, x1, y0, y1) in
  csw = 0 \/ csh = 0 \/ dx1 - dx0 <= 0 \/ dy1 - dy0 <= 0 ->
  Frame.sw_draw self sw sh dw dh x0 x1 y0 y1 dest = dest.
Proof.
  destruct (sides_extents sw sh dw dh x0 x1 y0 y1) as [Es Ed]. rewrite Es, Ed.
  unfold Frame.sw_draw.
  destruct (Frame.near_side dw sw x0) as [dx0 sx0].
  destruct (Frame.far_side dw sw x1) as [dx1 sx1].
  destruct (Frame.near_side dh sh y0) as [dy0 sy0].
  destruct (Frame.far_side dh sh y1) as [dy1 sy1]. simpl.
  intros H.
  destruct (Z.eqb_spec sx0 sx1); [reflexivity|].
  destruct (Z.eqb_spec sy0 sy1); [reflexivity|].
  destruct (Z.leb_spec dx1 dx0); [reflexivity|].
  destruct (Z.leb_spec dy1 dy0); [reflexivity|].
  lia.
Qed.

(** But a negative source extent does not stop it: with positive destination
    extents it goes on to take the part of the source and to blit. *)
Lemma sw_draw_negative_source_blits (self : Frame.Frame)
    (sw sh dw dh x0 x1 y0 y1 w h : Z) (bl : list (Surface * Pos)) :
  let '(csw, csh) := Frame.source_extent sw sh (x0, x1, y0, y1) in
  let '(dx0, dx1, dy0, dy1) := Frame.dest_rect dw dh (x0, x1, y0, y1) in
  csw < 0 -> csh <> 0 -> 0 < dx1 - dx0 -> 0 < dy1 - dy0 ->
  exists surf,
    Frame.sw_draw self sw sh dw dh x0 x1 y0 y1 (surface w h bl) =
    surface w h (bl ++ [(surf, (dx0, dy0))]).
Proof.
  destruct (sides_extents sw sh dw dh x0 x1 y0 y1) as [Es Ed]. rewrite Es, Ed.
  unfold Frame.sw_draw.
  destruct (Frame.near_side dw sw x0) as [dx0 sx0].
  destruct (Frame.far_side dw sw x1) as [dx1 sx1].
  destruct (Frame.near_side dh sh y0) as [dy0 sy0].
  destruct (Frame.far_side dh sh y1) as [dy1 sy1]. simpl.
  intros H1 H2 H3 H4.
  destruct (Z.eqb_spec sx0 sx1); [lia|].
  destruct (Z.eqb_spec sy0 sy1); [lia|].
  destruct (Z.leb_spec dx1 dx0); [lia|].
  destruct (Z.leb_spec dy1 dy0); [lia|].
  simpl. eexists. reflexivity.
Qed.

(** On a cell with positive source extents, the hardware [draw] blits
    [blit_of_cell] when the destination extents are positive, and nothing
    otherwise. *)
Lemma draw_cell (self : Frame.Frame) (sw sh dw dh x0 x1 y0 y1 : Z) (rv : Render) :
  0 < fst (Frame.source_extent sw sh (x0, x1, y0, y1)) ->
  0 < snd (Frame.source_extent sw sh (x0, x1, y0, y1)) ->
  Frame.draw self sw sh dw dh x0 x1 y0 y1 rv =
  if Frame.nondegenerate dw dh (x0, x1, y0, y1)
  then blit rv (fst (Frame.blit_of_cell self sw sh dw dh (x0, x1, y0, y1)))
               (snd (Frame.blit_of_cell self sw sh dw dh (x0, x1, y0, y1)))
  else rv.
Proof.
  pose proof (draw_skips_degenerate self sw sh dw dh x0 x1 y0 y1 rv) as Hskip.
  pose proof (draw_blits_cell self sw sh dw dh x0 x1 y0 y1 rv) as Hblit.
  unfold Frame.nondegenerate, Frame.blit_of_cell.
  destruct (Frame.source_extent sw sh (x0, x1, y0, y1)) as [csw csh].
  destruct (Frame.dest_rect dw dh (x0, x1, y0, y1)) as [[[dx0 dx1] dy0] dy1].
  cbn [fst snd]. intros Hcw Hch.
  destruct (Z.ltb_spec 0 (dx1 - dx0)) as [Hx | Hx];
    [destruct (Z.ltb_spec 0 (dy1 - dy0)) as [Hy | Hy] |]; cbn [andb].
  - apply Hblit; assumption.
  - apply Hskip. lia.
  - apply Hskip. lia.
Qed.

(** So [draw] run over a list of such cells blits those of positive
    destination extents, in order. *)
Lemma draw_cells_children (self : Frame.Frame) (sw sh dw dh : Z)
    (cs : list (Z * Z * Z * Z)) (w h : Q) (f r : option Matrix2D) (xc yc : bool)
    (ch : list (Render * Pos)) :
  Forall (fun c => 0 < fst (Frame.source_extent sw sh c)
                   /\ 0 < snd (Frame.source_extent sw sh c)) cs ->
  fold_left (fun s c => let '(x0, x1, y0, y1) := c in
                        Frame.draw self sw sh dw dh x0 x1 y0 y1 s)
            cs (mkRender w h f r xc yc ch)
  = mkRender w h f r xc yc
      (ch ++ map (Frame.blit_of_cell self sw sh dw dh)
                 (filter (Frame.nondegenerate dw dh) cs)).
Proof.
  intros Hs. revert ch. induction Hs as [|c cs Hc Hcs IH]; intros ch.
  - simpl. rewrite app_nil_r. reflexivity.
  - destruct c as [[[x0 x1] y0] y1]. destruct Hc as [Hcw Hch].
    cbn [fold_left filter]. rewrite (draw_cell _ _ _ _ _ _ _ _ _ _ Hcw Hch).
    destruct (Frame.nondegenerate dw dh (x0, x1, y0, y1)).
    + cbn [blit map]. rewrite IH, <- app_assoc.
      rewrite <- surjective_pairing. reflexivity.
    + apply IH.
Qed.

(** With borders that leave room in the child, every cell enumerated has
    positive source extents. *)
Lemma cells_source_extents (sw sh l t r b : Z) :
  0 <= l -> 0 <= t -> 0 <= r -> 0 <= b -> l + r < sw -> t + b < sh ->
  Forall (fun c => 0 < fst (Frame.source_extent sw sh c)
                   /\ 0 < snd (Frame.source_extent sw sh c))
         (Frame.cells l t r b).
Proof.
  intros Hl Ht Hr Hb Hw Hh.
  unfold Frame.cells, Frame.draw_pattern, Py.truthy.
  split_borders l t r b; repeat constructor;
    unfold Frame.source_extent; resolve_sides; simpl; lia.
Qed.

(** Cells of no area do not count in the total. *)
Lemma total_area_nondegenerate (dw dh : Z) (cs : list (Z * Z * Z * Z)) :
  Forall (fun c => let '(dx0, dx1, dy0, dy1) := Frame.dest_rect dw dh c in
                   dx0 <= dx1 /\ dy0 <= dy1) cs ->
  Frame.total_area (map (Frame.dest_rect dw dh) (filter (Frame.nondegenerate dw dh) cs))
  = Frame.total_area (map (Frame.dest_rect dw dh) cs).
Proof.
  induction 1 as [|c cs Hc Hcs IH]; [reflexivity |].
  cbn [filter map]. unfold Frame.nondegenerate at 1.
  unfold Frame.total_area in *. cbn [map fold_right].
  destruct (Frame.dest_rect dw dh c) as [[[dx0 dx1] dy0] dy1] eqn:E.
  destruct (Z.ltb_spec 0 (dx1 - dx0)); [destruct (Z.ltb_spec 0 (dy1 - dy0)) |];
    cbn [andb map fold_right]; rewrite ?E, IH; unfold Frame.area; nia.
Qed.

(** C7, at the input where the code departs from it.  A frame with borders
    5, 5, 5, 5 over a child of size 0 by 0, drawn 100 by 100: the borders
    used are all -1, the first cell enumerated is [(0, -1, 0, -1)], its source
    extents are -1 by -1, the hardware [draw] skips it, and the software
    [draw] takes the part [(0, 0, -1, -1)] of the source, scales it and blits
    it.  So the hardware [render] blits nothing, and the first blit of the
    software [render] is that part of the source. *)
Theorem sw_draw_negative_source_extent :
  let self := Frame.mkFrame 0 0 5 5 5 5 Frame.tile_False 0.5 in
  let host (is_sw : bool) := Frame.mkHost 0 0 (fun _ _ => (0, 0)) is_sw (fun s => s) in
  let degenerate :=
    (real_transform_scale (surf_subsurface source (0, 0, -1, -1)) (99, 99), (0, 0)) in
  Frame.borders self 0 0 100 100 = (-1, -1, -1, -1) /\
  hd_error (Frame.cells (-1) (-1) (-1) (-1)) = Some (0, -1, 0, -1) /\
  Frame.source_extent 0 0 (0, -1, 0, -1) = (-1, -1) /\
  Frame.draw self 0 0 100 100 0 (-1) 0 (-1) (Render_new 100 100) = Render_new 100 100 /\
  Frame.sw_draw self 0 0 100 100 0 (-1) 0 (-1) (surface 100 100 []) =
    surface 100 100 [degenerate] /\
  Frame.render (host false) self 100 100 = Render_new 100 100 /\
  exists rest,
    Frame.render (host true) self 100 100 =
    mkRender 100 100 None None false false
      [(of_surface (surface 100 100 (degenerate :: rest)), (0, 0))].
Proof. repeat split. eexists. reflexivity. Qed.

(** ** Tiling *)

Lemma blit_children (w h : Q) (f r : option Matrix2D) (xc yc : bool)
    (ch : list (Render * Pos)) (cr : Render) (csw csh x : Z) (ys : list Z) :
  fold_left (fun acc y => blit acc cr (x * csw, y * csh)) ys (mkRender w h f r xc yc ch)
  = mkRender w h f r xc yc (ch ++ map (fun y => (cr, (x * csw, y * csh))) ys).
Proof.
  revert ch. induction ys as [|y ys IH]; intros ch; simpl.
  - rewrite app_nil_r. reflexivity.
  - rewrite IH, <- app_assoc. reflexivity.
Qed.

Lemma blit_tiles_children (w h : Q) (f r : option Matrix2D) (xc yc : bool)
    (ch : list (Render * Pos)) (cr : Render) (csw csh xtiles ytiles : Z) :
  Frame.blit_tiles (mkRender w h f r xc yc ch) cr csw csh xtiles ytiles
  = mkRender w h f r xc yc (ch ++ Frame.tile_grid cr csw csh xtiles ytiles).
Proof.
  unfold Frame.blit_tiles, Frame.tile_grid.
  generalize (Py.range xtiles) as xs. intros xs. revert ch.
  induction xs as [|x xs IH]; intros ch; simpl.
  - rewrite app_nil_r. reflexivity.
  - rewrite blit_children, IH, <- app_assoc. reflexivity.
Qed.

Lemma sw_blit_row (w h : Z) (bl : list (Surface * Pos)) (surf : Surface)
    (tilew tileh y : Z) (xs : list Z) :
  fold_left (fun acc x => surf_blit acc surf (x * tilew, y * tileh)) xs (surface w h bl)
  = surface w h (bl ++ map (fun x => (surf, (x * tilew, y * tileh))) xs).
Proof.
  revert bl. induction xs as [|x xs IH]; intros bl; simpl.
  - rewrite app_nil_r. reflexivity.
  - rewrite IH, <- app_assoc. reflexivity.
Qed.

Lemma sw_blit_grid (w h : Z) (bl : list (Surface * Pos)) (surf : Surface)
    (tilew tileh xtiles ytiles : Z) :
  fold_left
    (fun acc y =>
       fold_left (fun acc x => surf_blit acc surf (x * tilew, y * tileh))
                 (Py.range xtiles) acc)
    (Py.range ytiles) (surface w h bl)
  = surface w h (bl ++ Frame.sw_tile_grid surf tilew tileh xtiles ytiles).
Proof.
  unfold Frame.sw_tile_grid.
  generalize (Py.range ytiles) as ys. intros ys. revert bl.
  induction ys as [|y ys IH]; intros bl; simpl.
  - rewrite app_nil_r. reflexivity.
  - rewrite sw_blit_row, IH, <- app_assoc. reflexivity.
Qed.

Lemma range_length (n : Z) : length (Py.range n) = Z.to_nat n.
Proof. unfold Py.range. rewrite length_map, length_seq. reflexivity. Qed.

Lemma tile_grid_length (cr : Render) (csw csh xtiles ytiles : Z) :
  length (Frame.tile_grid cr csw csh xtiles ytiles)
  = (Z.to_nat xtiles * Z.to_nat ytiles)%nat.
Proof.
  unfold Frame.tile_grid. rewrite <- (range_length xtiles).
  generalize (Py.range xtiles) as xs. intros xs.
  induction xs as [|x xs IH]; simpl.
  - reflexivity.
  - rewrite length_app, length_map, range_length. f_equal. exact IH.
Qed.

(** The base count is the ceiling of [d / s]: the least count of tiles of
    extent [s] that reaches [d]. *)
Lemma base_count_ceiling (d s : Z) :
  0 < s -> 0 < d ->
  let n := Frame.base_count d s in
  1 <= n /\ (n - 1) * s < d <= n * s.
Proof.
  intros Hs Hd n. subst n. unfold Frame.base_count, Py.truthy.
  pose proof (Z.div_mod d s ltac:(lia)) as E.
  pose proof (Z.mod_pos_bound d s Hs) as B.
  assert (0 <= d / s) by (apply Z.div_pos; lia).
  destruct (Z.eqb_spec (d mod s) 0); simpl; nia.
Qed.

Lemma base_count_exact (d s : Z) :
  0 < s -> 0 < d -> d mod s = 0 -> Frame.base_count d s = d / s /\ s * (d / s) = d.
Proof.
  intros Hs Hd Hm. unfold Frame.base_count, Py.truthy. rewrite Hm. simpl.
  pose proof (Z.div_mod d s ltac:(lia)) as E.
  assert (0 <= d / s) by (apply Z.div_pos; lia).
  nia.
Qed.

Lemma base_count_inexact (d s : Z) :
  0 < s -> 0 < d -> d mod s <> 0 -> Frame.base_count d s = d / s + 1.
Proof.
  intros Hs Hd Hm. unfold Frame.base_count.
  apply truthy_true_iff in Hm. rewrite Hm.
  assert (0 <= d / s) by (apply Z.div_pos; lia).
  lia.
Qed.

(** A multiple of [s] differs from an extent that [s] does not divide. *)
Lemma multiple_differs (d s n : Z) : 0 < s -> d mod s <> 0 -> s * n <> d.
Proof.
  intros Hs Hm E. apply Hm. rewrite <- E, Z.mul_comm. apply Z.mod_mul. lia.
Qed.

(** [tiling], one axis at a time. *)
Lemma tiling_exact (self : Frame.Frame) (csw csh cdw cdh : Z) :
  cdw mod csw = 0 -> cdh mod csh = 0 ->
  Frame.tiling self csw csh cdw cdh =
  (Frame.base_count cdw csw, Frame.base_count cdh csh, cdw, cdh).
Proof.
  intros Hx Hy. unfold Frame.tiling, Frame.base_count.
  rewrite Hx, Hy. reflexivity.
Qed.

Lemma tiling_simple (self : Frame.Frame) (csw csh cdw cdh : Z) :
  Frame.tile self <> Frame.tile_integer ->
  Frame.tiling self csw csh cdw cdh =
  (Frame.base_count cdw csw, Frame.base_count cdh csh, cdw, cdh).
Proof.
  intros Ht. unfold Frame.tiling, Frame.base_count.
  destruct (Py.truthy (cdw mod csw) || Py.truthy (cdh mod csh)); [|reflexivity].
  destruct (Frame.tile self); [reflexivity | reflexivity | congruence].
Qed.

Lemma tiling_integer (self : Frame.Frame) (csw csh cdw cdh : Z) :
  Frame.tile self = Frame.tile_integer ->
  cdw mod csw <> 0 \/ cdh mod csh <> 0 ->
  Frame.tiling self csw csh cdw cdh =
  (Frame.integer_count cdw csw (Frame.tile_ratio self),
   Frame.integer_count cdh csh (Frame.tile_ratio self),
   csw * Frame.integer_count cdw csw (Frame.tile_ratio self),
   csh * Frame.integer_count cdh csh (Frame.tile_ratio self)).
Proof.
  intros Ht Hm. unfold Frame.tiling, Frame.integer_count, Frame.base_count.
  assert (T : Py.truthy (cdw mod csw) || Py.truthy (cdh mod csh) = true).
  { apply orb_true_iff. rewrite !truthy_true_iff. exact Hm. }
  rewrite T, Ht. reflexivity.
Qed.

Lemma sizes_differ_iff (a b c d : Z) :
  negb (a =? b) || negb (c =? d) = true <-> a <> b \/ c <> d.
Proof.
  destruct (Z.eqb_spec a b), (Z.eqb_spec c d); simpl; split; intros; try tauto;
    try discriminate; destruct H; congruence.
Qed.

Lemma sizes_same_iff (a b c d : Z) :
  negb (a =? b) || negb (c =? d) = false <-> a = b /\ c = d.
Proof.
  destruct (Z.eqb_spec a b), (Z.eqb_spec c d); simpl; split; intros; try tauto;
    try discriminate; destruct H; congruence.
Qed.

(** [resize] leaves a cell of the right size alone. *)
Lemma resize_same_size (self : Frame.Frame) (cr : Render) (cdw cdh : Z) :
  Frame.resize self cr cdw cdh cdw cdh = cr.
Proof.
  unfold Frame.resize.
  assert (E : negb (cdw =? cdw) || negb (cdh =? cdh) = false)
    by (apply sizes_same_iff; split; reflexivity).
  rewrite E. reflexivity.
Qed.

(** Without tiling, a cell of another size is scaled. *)
Lemma resize_scales (self : Frame.Frame) (cr : Render) (csw csh cdw cdh : Z) :
  Frame.tile self = Frame.tile_False ->
  csw <> cdw \/ csh <> cdh ->
  Frame.resize self cr csw csh cdw cdh = Frame.scaled cr csw csh cdw cdh.
Proof.
  intros Ht Hd. unfold Frame.resize.
  apply sizes_differ_iff in Hd. rewrite Hd, Ht. simpl. rewrite Hd. reflexivity.
Qed.

(** With tiling, it is tiled by [tiling], and then scaled if the tiled render
    is not of the size of the cell. *)
Lemma resize_tiles (self : Frame.Frame) (cr : Render) (csw csh cdw cdh : Z) :
  Frame.tile self <> Frame.tile_False ->
  csw <> cdw \/ csh <> cdh ->
  Frame.resize self cr csw csh cdw cdh =
  let '(xtiles, ytiles, ctw, cth) := Frame.tiling self csw csh cdw cdh in
  let block := Frame.tiled cr csw csh xtiles ytiles ctw cth in
  if negb (ctw =? cdw) || negb (cth =? cdh)
  then Frame.scaled block ctw cth cdw cdh
  else block.
Proof.
  intros Ht Hd. unfold Frame.resize.
  apply sizes_differ_iff in Hd. rewrite Hd.
  assert (T : Frame.tile_truthy (Frame.tile self) = true)
    by (destruct (Frame.tile self); [congruence | reflexivity | reflexivity]).
  rewrite T.
  destruct (Frame.tiling self csw csh cdw cdh) as [[[xtiles ytiles] ctw] cth].
  unfold Render_new, set_clipping. rewrite blit_tiles_children. reflexivity.
Qed.

Lemma integer_count_cases (d s : Z) (ratio : Q) :
  let f := (inject_Z (d mod s) / inject_Z s)%Q in
  ((f < ratio)%Q -> Frame.integer_count d s ratio = Z.max 1 (Frame.base_count d s - 1)) /\
  ((ratio <= f)%Q -> Frame.integer_count d s ratio = Frame.base_count d s).
Proof.
  intros f. unfold Frame.integer_count. fold f. split; intros H.
  - apply Qltb_lt in H. rewrite H. reflexivity.
  - apply Qltb_ge in H. rewrite H. reflexivity.
Qed.

Lemma integer_count_pos (d s : Z) (ratio : Q) : 1 <= Frame.integer_count d s ratio.
Proof.
  unfold Frame.integer_count, Frame.base_count.
  destruct (Py.Qltb _ ratio); lia.
Qed.

(** [tiling64] and [resize64], one axis at a time. *)
Lemma tiling64_integer (tile_ratio : float) (csw csh cdw cdh : Z) :
  cdw mod csw <> 0 \/ cdh mod csh <> 0 ->
  Frame.tiling64 Frame.tile_integer tile_ratio csw csh cdw cdh =
  (Frame.integer_count64 cdw csw tile_ratio,
   Frame.integer_count64 cdh csh tile_ratio,
   csw * Frame.integer_count64 cdw csw tile_ratio,
   csh * Frame.integer_count64 cdh csh tile_ratio).
Proof.
  intros Hm. unfold Frame.tiling64, Frame.integer_count64, Frame.base_count.
  assert (T : Py.truthy (cdw mod csw) || Py.truthy (cdh mod csh) = true).
  { apply orb_true_iff. rewrite !truthy_true_iff. exact Hm. }
  rewrite T. reflexivity.
Qed.

Lemma resize64_tiles (tile : Frame.Tile) (tile_ratio : float) (cr : Render)
    (csw csh cdw cdh : Z) :
  tile <> Frame.tile_False ->
  csw <> cdw \/ csh <> cdh ->
  Frame.resize64 tile tile_ratio cr csw csh cdw cdh =
  let '(xtiles, ytiles, ctw, cth) := Frame.tiling64 tile tile_ratio csw csh cdw cdh in
  let block := Frame.tiled cr csw csh xtiles ytiles ctw cth in
  if negb (ctw =? cdw) || negb (cth =? cdh)
  then Frame.scaled block ctw cth cdw cdh
  else block.
Proof.
  intros Ht Hd. unfold Frame.resize64.
  apply sizes_differ_iff in Hd. rewrite Hd.
  assert (T : Frame.tile_truthy tile = true)
    by (destruct tile; [congruence | reflexivity | reflexivity]).
  rewrite T.
  destruct (Frame.tiling64 tile tile_ratio csw csh cdw cdh) as [[[xtiles ytiles] ctw] cth].
  unfold Render_new, set_clipping. rewrite blit_tiles_children. reflexivity.
Qed.

Lemma integer_count64_cases (d s : Z) (tile_ratio : float) :
  let f := (Py.float_of_Z (d mod s) / Py.float_of_Z s)%float in
  ((f <? tile_ratio)%float = true ->
     Frame.integer_count64 d s tile_ratio = Z.max 1 (Frame.base_count d s - 1)) /\
  ((f <? tile_ratio)%float = false ->
     Frame.integer_count64 d s tile_ratio = Frame.base_count d s).
Proof.
  intros f. unfold Frame.integer_count64, Frame.ratio_test64. fold f.
  split; intros H; rewrite H; reflexivity.
Qed.

Lemma integer_count64_pos (d s : Z) (tile_ratio : float) :
  1 <= Frame.integer_count64 d s tile_ratio.
Proof.
  unfold Frame.integer_count64, Frame.base_count.
  destruct (Frame.ratio_test64 _ _ _); lia.
Qed.

(** Two floats that compare equal do not compare less. *)
Lemma float_eqb_not_ltb (x y : float) :
  (x =? y)%float = true -> (x <? y)%float = false.
Proof.
  rewrite FloatAxioms.eqb_spec, FloatAxioms.ltb_spec.
  unfold SpecFloat.SFeqb, SpecFloat.SFltb.
  destruct (SpecFloat.SFcompare (FloatOps.Prim2SF x) (FloatOps.Prim2SF y)) as [[| |]|];
    intros H; (discriminate H || reflexivity).
Qed.

(** C3.  In integer mode, for a cell with positive extents of which one at
    least is not a multiple of the source extent, and with the test evaluated
    on binary64 floats as the code evaluates it: on an axis that is not a
    multiple, with [f] the float [(d mod s) / float(s)], the count is the
    ceiling count [n] (for which [(n-1)*s < d < n*s]) less one, and at least
    1, when [f < tile_ratio], and [n] when not, so also when
    [f == tile_ratio]; the tiled render is [csw*xtiles] by [csh*ytiles],
    clipping, and it is blitted into a render of the size of the cell whose
    transform scales the one to the other. *)
Theorem integer_tiling_tie_break (tile_ratio : float) (cr : Render)
    (csw csh cdw cdh : Z) :
  0 < csw -> 0 < csh -> 0 < cdw -> 0 < cdh ->
  cdw mod csw <> 0 \/ cdh mod csh <> 0 ->
  let fx := (Py.float_of_Z (cdw mod csw) / Py.float_of_Z csw)%float in
  let fy := (Py.float_of_Z (cdh mod csh) / Py.float_of_Z csh)%float in
  let nx := Frame.base_count cdw csw in
  let ny := Frame.base_count cdh csh in
  let '(xtiles, ytiles, ctw, cth) :=
    Frame.tiling64 Frame.tile_integer tile_ratio csw csh cdw cdh in
  (cdw mod csw <> 0 ->
     (nx - 1) * csw < cdw < nx * csw /\
     ((fx <? tile_ratio)%float = true -> xtiles = Z.max 1 (nx - 1)) /\
     ((fx <? tile_ratio)%float = false -> xtiles = nx) /\
     ((fx =? tile_ratio)%float = true -> xtiles = nx)) /\
  (cdh mod csh <> 0 ->
     (ny - 1) * csh < cdh < ny * csh /\
     ((fy <? tile_ratio)%float = true -> ytiles = Z.max 1 (ny - 1)) /\
     ((fy <? tile_ratio)%float = false -> ytiles = ny) /\
     ((fy =? tile_ratio)%float = true -> ytiles = ny)) /\
  1 <= xtiles /\ 1 <= ytiles /\ ctw = csw * xtiles /\ cth = csh * ytiles /\
  Frame.resize64 Frame.tile_integer tile_ratio cr csw csh cdw cdh =
    mkRender (inject_Z cdw) (inject_Z cdh)
      (Some (mkMatrix2D (1 * inject_Z ctw / inject_Z cdw) 0
                        0 (1 * inject_Z cth / inject_Z cdh)))
      (Some (mkMatrix2D (1 * inject_Z cdw / inject_Z ctw) 0
                        0 (1 * inject_Z cdh / inject_Z cth)))
      false false
      [(mkRender (inject_Z ctw) (inject_Z cth) None None true true
                 (Frame.tile_grid cr csw csh xtiles ytiles), (0, 0))].
Proof.
  intros Hsw Hsh Hdw Hdh Hm fx fy nx ny.
  assert (Hd : csw <> cdw \/ csh <> cdh).
  { destruct Hm as [Hm | Hm]; [left | right]; intros E; apply Hm; subst;
      apply Z.mod_same; lia. }
  rewrite (resize64_tiles Frame.tile_integer tile_ratio cr csw csh cdw cdh
             ltac:(discriminate) Hd).
  rewrite (tiling64_integer tile_ratio csw csh cdw cdh Hm).
  pose proof (integer_count64_cases cdw csw tile_ratio) as [Xlt Xge].
  pose proof (integer_count64_cases cdh csh tile_ratio) as [Ylt Yge].
  pose proof (integer_count64_pos cdw csw tile_ratio) as Xp.
  pose proof (integer_count64_pos cdh csh tile_ratio) as Yp.
  cbv zeta in Xlt, Xge, Ylt, Yge. fold fx in Xlt, Xge. fold fy in Ylt, Yge.
  fold nx in Xlt, Xge. fold ny in Ylt, Yge.
  assert (S : negb (csw * Frame.integer_count64 cdw csw tile_ratio =? cdw)
              || negb (csh * Frame.integer_count64 cdh csh tile_ratio =? cdh) = true).
  { apply sizes_differ_iff.
    destruct Hm as [Hm | Hm]; [left | right]; apply multiple_differs; assumption. }
  rewrite S.
  split; [| split; [| repeat split; assumption]].
  - intros Hx. split; [| split; [assumption | split; [assumption |]]].
    + pose proof (base_count_ceiling cdw csw Hsw Hdw) as [_ B]. fold nx in B.
      split; [lia |].
      assert (nx * csw <> cdw)
        by (rewrite Z.mul_comm; apply multiple_differs; assumption).
      lia.
    + intros E. apply Xge. apply float_eqb_not_ltb. exact E.
  - intros Hy. split; [| split; [assumption | split; [assumption |]]].
    + pose proof (base_count_ceiling cdh csh Hsh Hdh) as [_ B]. fold ny in B.
      split; [lia |].
      assert (ny * csh <> cdh)
        by (rewrite Z.mul_comm; apply multiple_differs; assumption).
      lia.
    + intros E. apply Yge. apply float_eqb_not_ltb. exact E.
Qed.

Lemma integer_tiling_tie_break_witness :
  Frame.tiling64 Frame.tile_integer 0.5 10 10 15 15 = (2, 2, 20, 20) /\
  Frame.tiling64 Frame.tile_integer 0.51 10 10 15 15 = (1, 1, 10, 10).
Proof.
  split.
  - pose proof (integer_tiling_tie_break 0.5
                  (subsurface (0, 0, 10, 10)) 10 10 15 15
                  ltac:(lia) ltac:(lia) ltac:(lia) ltac:(lia)
                  ltac:(left; discriminate)) as H.
    cbv zeta in H.
    destruct (Frame.tiling64 Frame.tile_integer 0.5 10 10 15 15)
      as [[[xtiles ytiles] ctw] cth].
    destruct H as (Hx & Hy & _ & _ & Hw & Hh & _).
    destruct Hx as (_ & _ & _ & Hx); [discriminate |].
    destruct Hy as (_ & _ & Hy & _); [discriminate |].
    rewrite Hw, Hh, Hx, Hy; reflexivity.
  - pose proof (integer_tiling_tie_break 0.51
                  (subsurface (0, 0, 10, 10)) 10 10 15 15
                  ltac:(lia) ltac:(lia) ltac:(lia) ltac:(lia)
                  ltac:(left; discriminate)) as H.
    cbv zeta in H.
    destruct (Frame.tiling64 Frame.tile_integer 0.51 10 10 15 15)
      as [[[xtiles ytiles] ctw] cth].
    destruct H as (Hx & Hy & _ & _ & Hw & Hh & _).
    destruct Hx as (_ & Hx & _); [discriminate |].
    destruct Hy as (_ & Hy & _); [discriminate |].
    rewrite Hw, Hh, Hx, Hy; reflexivity.
Defined.

(** The cells of the two examples, whole: at 0.5 two tiles by two in a
    clipping render of 20 by 20, in a render of 15 by 15 whose transform
    scales by 20/15; at 0.51 one tile of 10 by 10, scaled by 10/15. *)
Example integer_tiling_two_tiles_scaled_down :
  let cr := subsurface (0, 0, 10, 10) in
  Frame.resize64 Frame.tile_integer 0.5 cr 10 10 15 15
  = mkRender 15 15
      (Some (mkMatrix2D (20 # 15) 0 0 (20 # 15)))
      (Some (mkMatrix2D (15 # 20) 0 0 (15 # 20)))
      false false
      [(mkRender 20 20 None None true true
          [(cr, (0, 0)); (cr, (0, 10)); (cr, (10, 0)); (cr, (10, 10))],
        (0, 0))].
Proof. reflexivity. Qed.

Example integer_tiling_one_tile_scaled_up :
  Frame.resize64 Frame.tile_integer 0.51 (subsurface (0, 0, 10, 10)) 10 10 15 15
  = mkRender 15 15
      (Some (mkMatrix2D (10 # 15) 0 0 (10 # 15)))
      (Some (mkMatrix2D (15 # 10) 0 0 (15 # 10)))
      false false
      [(mkRender 10 10 None None true true [(subsurface (0, 0, 10, 10), (0, 0))],
        (0, 0))].
Proof. reflexivity. Qed.

(** Where the two tests agree, [tiling64] and [resize64] are [tiling] and
    [resize]: the exact reading of the ratio is then the code's. *)
Lemma tiling64_exact_reading (self : Frame.Frame) (tile_ratio : float)
    (csw csh cdw cdh : Z) :
  Frame.ratio_test64 tile_ratio (cdw mod csw) csw
    = Py.Qltb (inject_Z (cdw mod csw) / inject_Z csw) (Frame.tile_ratio self) ->
  Frame.ratio_test64 tile_ratio (cdh mod csh) csh
    = Py.Qltb (inject_Z (cdh mod csh) / inject_Z csh) (Frame.tile_ratio self) ->
  Frame.tiling64 (Frame.tile self) tile_ratio csw csh cdw cdh
    = Frame.tiling self csw csh cdw cdh.
Proof.
  intros Hx Hy. unfold Frame.tiling64, Frame.tiling. rewrite Hx, Hy. reflexivity.
Qed.

Lemma resize64_exact_reading (self : Frame.Frame) (tile_ratio : float)
    (cr : Render) (csw csh cdw cdh : Z) :
  Frame.ratio_test64 tile_ratio (cdw mod csw) csw
    = Py.Qltb (inject_Z (cdw mod csw) / inject_Z csw) (Frame.tile_ratio self) ->
  Frame.ratio_test64 tile_ratio (cdh mod csh) csh
    = Py.Qltb (inject_Z (cdh mod csh) / inject_Z csh) (Frame.tile_ratio self) ->
  Frame.resize64 (Frame.tile self) tile_ratio cr csw csh cdw cdh
    = Frame.resize self cr csw csh cdw cdh.
Proof.
  intros Hx Hy. unfold Frame.resize64, Frame.resize.
  rewrite (tiling64_exact_reading self tile_ratio csw csh cdw cdh Hx Hy).
  reflexivity.
Qed.

(** They need not agree.  The float 0.1 is a little above one tenth, but the
    quotient [1 / float(10)] rounds to that same float: a cell of 21 over a
    source of 10 keeps its third tile at [tile_ratio = 0.1], where the
    comparison of the exact numbers would drop it. *)
Example ratio_test_rounds_the_quotient :
  Py.float_value 0.1 = Some (7205759403792794 # 72057594037927936)%Q /\
  Py.Qltb (inject_Z (21 mod 10) / inject_Z 10)
          (7205759403792794 # 72057594037927936) = true /\
  Frame.ratio_test64 0.1 (21 mod 10) 10 = false /\
  Frame.tiling64 Frame.tile_integer 0.1 10 10 21 21 = (3, 3, 30, 30).
Proof. repeat split. Qed.

(** In integer mode a cell whose two extents are multiples of the source
    extents, and not both equal to them, gets the exact counts and is not
    scaled. *)
Lemma integer_tiling_both_exact (self : Frame.Frame) (cr : Render)
    (csw csh cdw cdh : Z) :
  Frame.tile self = Frame.tile_integer ->
  0 < csw -> 0 < csh -> 0 < cdw -> 0 < cdh ->
  cdw mod csw = 0 -> cdh mod csh = 0 ->
  csw <> cdw \/ csh <> cdh ->
  Frame.tiling self csw csh cdw cdh = (cdw / csw, cdh / csh, cdw, cdh) /\
  Frame.resize self cr csw csh cdw cdh =
    mkRender (inject_Z cdw) (inject_Z cdh) None None true true
             (Frame.tile_grid cr csw csh (cdw / csw) (cdh / csh)).
Proof.
  intros Ht Hsw Hsh Hdw Hdh Hx Hy Hd.
  destruct (base_count_exact cdw csw Hsw Hdw Hx) as [Ex _].
  destruct (base_count_exact cdh csh Hsh Hdh Hy) as [Ey _].
  assert (T : Frame.tiling self csw csh cdw cdh = (cdw / csw, cdh / csh, cdw, cdh))
    by (rewrite tiling_exact, Ex, Ey by assumption; reflexivity).
  split; [exact T |].
  rewrite (resize_tiles self cr csw csh cdw cdh ltac:(congruence) Hd), T.
  assert (S : negb (cdw =? cdw) || negb (cdh =? cdh) = false)
    by (apply sizes_same_iff; split; reflexivity).
  rewrite S. reflexivity.
Qed.

Lemma Qltb_zero_fraction (s : Z) (ratio : Q) :
  (0 < ratio)%Q -> Py.Qltb (inject_Z 0 / inject_Z s) ratio = true.
Proof.
  intros H. apply Qltb_lt.
  assert (E : (inject_Z 0 / inject_Z s == 0)%Q) by (unfold Qdiv; apply Qmult_0_l).
  rewrite E. exact H.
Qed.

(** But when the other axis is not a multiple and [tile_ratio] is positive,
    the exact axis is put to the test too, with a fraction of 0, and loses a
    tile: its count is [d / s - 1] (at least 1). *)
Lemma integer_tiling_exact_axis_loses_tile (self : Frame.Frame) (csw csh cdw cdh : Z) :
  Frame.tile self = Frame.tile_integer ->
  0 < csw -> 0 < cdw ->
  cdw mod csw = 0 -> cdh mod csh <> 0 ->
  (0 < Frame.tile_ratio self)%Q ->
  let '(xtiles, _, ctw, _) := Frame.tiling self csw csh cdw cdh in
  xtiles = Z.max 1 (cdw / csw - 1) /\ ctw = csw * xtiles /\
  (2 * csw <= cdw -> xtiles = cdw / csw - 1 /\ ctw = cdw - csw).
Proof.
  intros Ht Hsw Hdw Hx Hy Hr.
  rewrite (tiling_integer self csw csh cdw cdh Ht (or_intror Hy)).
  destruct (base_count_exact cdw csw Hsw Hdw Hx) as [Ex Em].
  assert (IC : Frame.integer_count cdw csw (Frame.tile_ratio self)
               = Z.max 1 (cdw / csw - 1)).
  { unfold Frame.integer_count.
    rewrite Hx, (Qltb_zero_fraction csw _ Hr), Ex. reflexivity. }
  rewrite IC.
  split; [reflexivity | split; [reflexivity |]].
  intros H2. nia.
Qed.

(** C2, at the input where the code departs from it.  A frame without
    borders in integer mode with the default ratio, over a child of 10 by 10,
    drawn 20 by 15: the one cell is 20 wide, twice the source exactly, and 15
    high.  The width gets one tile, not two, and the tiled render of 10 by 20
    is scaled to 20 by 15: the exact axis is scaled by 2.  The software
    renderer does the same. *)
Theorem integer_tiling_exact_axis_is_scaled :
  let self := Frame.mkFrame 0 0 0 0 0 0 Frame.tile_integer 0.5 in
  let host (is_sw : bool) := Frame.mkHost 0 0 (fun _ _ => (10, 10)) is_sw (fun s => s) in
  let cr := subsurface (0, 0, 10, 10) in
  let surf := surf_subsurface source (0, 0, 10, 10) in
  Frame.borders self 10 10 20 15 = (0, 0, 0, 0) /\
  Frame.cells 0 0 0 0 = [(0, 0, 0, 0)] /\
  20 mod 10 = 0 /\ 20 / 10 = 2 /\
  Frame.tiling self 10 10 20 15 = (1, 2, 10, 20) /\
  Frame.render (host false) self 20 15 =
    mkRender 20 15 None None false false
      [(mkRender 20 15
          (Some (mkMatrix2D (10 # 20) 0 0 (20 # 15)))
          (Some (mkMatrix2D (20 # 10) 0 0 (15 # 20)))
          false false
          [(mkRender 10 20 None None true true [(cr, (0, 0)); (cr, (0, 10))], (0, 0))],
        (0, 0))] /\
  Frame.render (host true) self 20 15 =
    mkRender 20 15 None None false false
      [(of_surface
          (surface 20 15
             [(real_transform_scale
                 (surface 10 20 [(surf, (0, 0)); (surf, (0, 10))]) (20, 15),
               (0, 0))]),
        (0, 0))].
Proof. repeat split. Qed.

(** The same cell with the test on floats: [0 / float(10)] is 0.0, less than
    0.5, and [5 / float(10)] is 0.5, so that the counts and the render of the
    cell are those above. *)
Example integer_tiling_exact_axis_on_floats :
  let self := Frame.mkFrame 0 0 0 0 0 0 Frame.tile_integer 0.5 in
  let cr := subsurface (0, 0, 10, 10) in
  Frame.ratio_test64 0.5 (20 mod 10) 10 = true /\
  Frame.ratio_test64 0.5 (15 mod 10) 10 = false /\
  Frame.tiling64 Frame.tile_integer 0.5 10 10 20 15 = (1, 2, 10, 20) /\
  Frame.resize64 Frame.tile_integer 0.5 cr 10 10 20 15
    = Frame.resize self cr 10 10 20 15.
Proof. repeat split. Qed.

(** In simple mode the hardware [draw] tiles a cell of another size with the
    ceiling counts into a clipping render of exactly the size of the cell, and
    does not scale it. *)
Lemma simple_tiling_is_cropped (self : Frame.Frame) (cr : Render)
    (csw csh cdw cdh : Z) :
  Frame.tile self = Frame.tile_True ->
  0 < csw -> 0 < csh -> 0 < cdw -> 0 < cdh ->
  csw <> cdw \/ csh <> cdh ->
  let nx := Frame.base_count cdw csw in
  let ny := Frame.base_count cdh csh in
  Frame.tiling self csw csh cdw cdh = (nx, ny, cdw, cdh) /\
  (1 <= nx /\ (nx - 1) * csw < cdw <= nx * csw) /\
  (1 <= ny /\ (ny - 1) * csh < cdh <= ny * csh) /\
  Frame.resize self cr csw csh cdw cdh =
    mkRender (inject_Z cdw) (inject_Z cdh) None None true true
             (Frame.tile_grid cr csw csh nx ny).
Proof.
  intros Ht Hsw Hsh Hdw Hdh Hd nx ny.
  assert (T : Frame.tiling self csw csh cdw cdh = (nx, ny, cdw, cdh))
    by (apply tiling_simple; congruence).
  split; [exact T |].
  split; [apply base_count_ceiling; assumption |].
  split; [apply base_count_ceiling; assumption |].
  rewrite (resize_tiles self cr csw csh cdw cdh ltac:(congruence) Hd), T.
  assert (S : negb (cdw =? cdw) || negb (cdh =? cdh) = false)
    by (apply sizes_same_iff; split; reflexivity).
  rewrite S. reflexivity.
Qed.

(** The software [draw] in simple mode uses the same counts and crops the
    tiled surface to the size of the cell, but then always hands the cropped
    surface to [real_transform_scale]: [srcsize] still holds the size of the
    source cell. *)
Lemma sw_simple_tiling_is_scaled (self : Frame.Frame)
    (sw sh dw dh x0 x1 y0 y1 w h : Z) (bl : list (Surface * Pos))
    (dx0 sx0 dx1 sx1 dy0 sy0 dy1 sy1 : Z) :
  Frame.near_side dw sw x0 = (dx0, sx0) -> Frame.far_side dw sw x1 = (dx1, sx1) ->
  Frame.near_side dh sh y0 = (dy0, sy0) -> Frame.far_side dh sh y1 = (dy1, sy1) ->
  Frame.tile self = Frame.tile_True ->
  0 < sx1 - sx0 -> 0 < sy1 - sy0 -> 0 < dx1 - dx0 -> 0 < dy1 - dy0 ->
  sx1 - sx0 <> dx1 - dx0 \/ sy1 - sy0 <> dy1 - dy0 ->
  let tilew := sx1 - sx0 in
  let tileh := sy1 - sy0 in
  let dstw := dx1 - dx0 in
  let dsth := dy1 - dy0 in
  let nx := Frame.base_count dstw tilew in
  let ny := Frame.base_count dsth tileh in
  let surf := surf_subsurface source (sx0, sy0, tilew, tileh) in
  Frame.sw_draw self sw sh dw dh x0 x1 y0 y1 (surface w h bl) =
  surface w h
    (bl ++ [(real_transform_scale
               (surf_subsurface
                  (surface (tilew * nx) (tileh * ny)
                           (Frame.sw_tile_grid surf tilew tileh nx ny))
                  (0, 0, dstw, dsth))
               (dstw, dsth),
             (dx0, dy0))]).
Proof.
  intros Ex0 Ex1 Ey0 Ey1 Ht Hsw Hsh Hdw Hdh Hd tilew tileh dstw dsth nx ny surf.
  unfold Frame.sw_draw. rewrite Ex0, Ex1, Ey0, Ey1, Ht.
  fold tilew tileh dstw dsth.
  destruct (Z.eqb_spec sx0 sx1); [lia|].
  destruct (Z.eqb_spec sy0 sy1); [lia|].
  destruct (Z.leb_spec dx1 dx0); [lia|].
  destruct (Z.leb_spec dy1 dy0); [lia|].
  cbn [orb fst snd Frame.tile_truthy].
  assert (S : negb ((dstw =? tilew) && (dsth =? tileh)) = true).
  { destruct (Z.eqb_spec dstw tilew), (Z.eqb_spec dsth tileh); simpl;
      try reflexivity. lia. }
  rewrite S.
  fold (Frame.base_count dstw tilew). fold (Frame.base_count dsth tileh).
  fold nx ny.
  destruct (Py.truthy (dstw mod tilew) || Py.truthy (dsth mod tileh));
    rewrite sw_blit_grid; cbn [fst snd app]; rewrite S; reflexivity.
Qed.

(** C4, at the input where the code departs from it.  A frame without
    borders in simple mode over a child of 10 by 10, drawn 15 by 15.  The
    hardware [render] blits a clipping render of 15 by 15 holding two by two
    tiles, with no transform.  The software [render] tiles two by two and
    crops to 15 by 15 as well, and then passes the cropped surface through
    [real_transform_scale]. *)
Theorem sw_simple_tiling_runs_scale_pass :
  let self := Frame.mkFrame 0 0 0 0 0 0 Frame.tile_True 0.5 in
  let host (is_sw : bool) := Frame.mkHost 0 0 (fun _ _ => (10, 10)) is_sw (fun s => s) in
  let cr := subsurface (0, 0, 10, 10) in
  let surf := surf_subsurface source (0, 0, 10, 10) in
  Frame.borders self 10 10 15 15 = (0, 0, 0, 0) /\
  Frame.tiling self 10 10 15 15 = (2, 2, 15, 15) /\
  Frame.render (host false) self 15 15 =
    mkRender 15 15 None None false false
      [(mkRender 15 15 None None true true
          [(cr, (0, 0)); (cr, (0, 10)); (cr, (10, 0)); (cr, (10, 10))],
        (0, 0))] /\
  Frame.render (host true) self 15 15 =
    mkRender 15 15 None None false false
      [(of_surface
          (surface 15 15
             [(real_transform_scale
                 (surf_subsurface
                    (surface 20 20
                       [(surf, (0, 0)); (surf, (10, 0)); (surf, (0, 10)); (surf, (10, 10))])
                    (0, 0, 15, 15))
                 (15, 15),
               (0, 0))]),
        (0, 0))].
Proof. repeat split. Qed.

(** ** The hardware path as a whole *)

(** Whatever [resize] does to a part of the child, the result has the size
    of the cell. *)
Lemma resize_size (self : Frame.Frame) (sx0 sy0 csw csh cdw cdh : Z) :
  size_of (Frame.resize self (subsurface (sx0, sy0, csw, csh)) csw csh cdw cdh)
  = Some (inject_Z cdw, inject_Z cdh).
Proof.
  unfold Frame.resize.
  destruct (negb (csw =? cdw) || negb (csh =? cdh)) eqn:D.
  - destruct (Frame.tile_truthy (Frame.tile self)).
    + destruct (Frame.tiling self csw csh cdw cdh) as [[[xtiles ytiles] ctw] cth].
      destruct (negb (ctw =? cdw) || negb (cth =? cdh)) eqn:D'; [reflexivity |].
      apply sizes_same_iff in D' as [-> ->].
      unfold Render_new, set_clipping. rewrite blit_tiles_children. reflexivity.
    + rewrite D. reflexivity.
  - apply sizes_same_iff in D as [-> ->]. reflexivity.
Qed.

Lemma blit_of_cell_size (self : Frame.Frame) (sw sh dw dh : Z) (c : Z * Z * Z * Z) :
  let '(dx0, dx1, dy0, dy1) := Frame.dest_rect dw dh c in
  size_of (fst (Frame.blit_of_cell self sw sh dw dh c))
    = Some (inject_Z (dx1 - dx0), inject_Z (dy1 - dy0)) /\
  snd (Frame.blit_of_cell self sw sh dw dh c) = (dx0, dy0).
Proof.
  destruct c as [[[x0 x1] y0] y1]. unfold Frame.blit_of_cell.
  destruct (Frame.source_extent sw sh (x0, x1, y0, y1)) as [csw csh].
  destruct (Frame.dest_rect dw dh (x0, x1, y0, y1)) as [[[dx0 dx1] dy0] dy1].
  cbn [fst snd]. split; [apply resize_size | reflexivity].
Qed.

(** The hardware path of [render], for non-negative borders, a child at least
    2 by 2 and a non-negative size: the children of the result are the blits
    of the cells of positive destination extents, each of the size of its
    destination rectangle and at its corner ([blit_of_cell_size]), and the
    areas of those rectangles add up to [dw * dh]. *)
Lemma render_blits_fill_destination (host : Frame.Host) (self : Frame.Frame)
    (width height dw dh sw sh : Z) :
  Frame.renderer_is_sw host = false ->
  Frame.dest_size host width height = (dw, dh) ->
  Frame.child_size host dw dh = (sw, sh) ->
  0 <= Frame.left self -> 0 <= Frame.top self ->
  0 <= Frame.right self -> 0 <= Frame.bottom self ->
  2 <= sw -> 2 <= sh -> 0 <= dw -> 0 <= dh ->
  let '(l, t, r, b) := Frame.borders self sw sh dw dh in
  let drawn := filter (Frame.nondegenerate dw dh) (Frame.cells l t r b) in
  children_of (Frame.render host self width height)
    = map (Frame.blit_of_cell self sw sh dw dh) drawn /\
  Frame.total_area (map (Frame.dest_rect dw dh) drawn) = dw * dh.
Proof.
  intros Hhw Hd Hc Hl Ht Hr Hb Hsw Hsh Hdw Hdh.
  unfold Frame.render. rewrite Hd, Hc, Hhw.
  rewrite borders_axes.
  pose proof (axis_borders_bound _ _ sw dw Hl Hr Hsw Hdw) as X.
  pose proof (axis_borders_bound _ _ sh dh Ht Hb Hsh Hdh) as Y.
  cbv zeta in X, Y.
  destruct (Frame.axis_borders (Frame.left self) (Frame.right self) sw dw) as [l r].
  destruct (Frame.axis_borders (Frame.top self) (Frame.bottom self) sh dh) as [t b].
  cbn [fst snd].
  destruct X as (Bl & Br & Bx & _). destruct Y as (Bt & Bb & By & _).
  pose proof (min3_spec (Frame.left self + Frame.right self) (sw - 2) dw) as Mx.
  pose proof (min3_spec (Frame.top self + Frame.bottom self) (sh - 2) dh) as My.
  cbv zeta. split.
  - rewrite draw_pattern_cells. unfold Render_new.
    rewrite draw_cells_children by (apply cells_source_extents; lia).
    reflexivity.
  - pose proof (cells_rects_within dw dh l t r b) as F.
    rewrite total_area_nondegenerate; [apply cells_total_area; lia |].
    rewrite Forall_map in F. specialize (F ltac:(lia) ltac:(lia) ltac:(lia)
                                           ltac:(lia) ltac:(lia) ltac:(lia)).
    revert F. apply Forall_impl.
    intros c. destruct (Frame.dest_rect dw dh c) as [[[dx0 dx1] dy0] dy1]. lia.
Qed.

(** ** [Solid.render] *)

(** C9.  When the solid has no colour and the style has none either, or when
    the effective width or height is zero or negative, [Solid.render] returns
    the render it created, of the styled size, with no transform and no
    child: nothing was blitted. *)
Theorem solid_render_empty (host : Solid.Host) (self : Solid.Solid) (width height : Q) :
  let '(ew, eh) := Solid.effective_size host width height in
  let '(w0, h0) := Solid.styled_size host width height in
  (Solid.color self = None /\ Solid.style_color host = None)
  \/ (ew <= 0)%Q \/ (eh <= 0)%Q ->
  Solid.render host self width height = Render_new w0 h0 /\
  children_of (Solid.render host self width height) = [].
Proof.
  unfold Solid.render, Solid.usable_color.
  destruct (Solid.effective_size host width height) as [ew eh].
  destruct (Solid.styled_size host width height) as [w0 h0].
  intros H.
  destruct (Solid.color self) as [c|] eqn:Ec.
  - destruct H as [[H _] | [H | H]]; [discriminate | |].
    + apply Qleb_le in H. rewrite H. split; reflexivity.
    + apply Qleb_le in H. rewrite H, orb_true_r. split; reflexivity.
  - destruct (Solid.style_color host) as [c|] eqn:Es; [| split; reflexivity].
    destruct H as [[_ H] | [H | H]]; [discriminate | |].
    + apply Qleb_le in H. rewrite H. split; reflexivity.
    + apply Qleb_le in H. rewrite H, orb_true_r. split; reflexivity.
Qed.

Lemma solid_render_empty_witness :
  let host := Solid.mkHost (fun _ _ => (0, 0)%Q) None (1, 1)%Q in
  Solid.render host (Solid.mkSolid (Some (255, 255, 255, 255))) 0 0 = Render_new 0 0 /\
  Solid.render host (Solid.mkSolid None) 640 480 = Render_new 640 480.
Proof.
  intros host. split.
  - apply (solid_render_empty host (Solid.mkSolid (Some (255, 255, 255, 255))) 0 0).
    right. left. discriminate.
  - apply (solid_render_empty host (Solid.mkSolid None) 640 480).
    left. split; reflexivity.
Defined.

(** C8.  With a usable colour and a positive effective size: if the width or
    the height is below 10 the one child is the solid texture of that size
    and no transform is set; otherwise the one child is a solid texture of 10
    by 10, [forward] is [diag(10/width, 10/height)], [reverse] is
    [diag(width/10, height/10)], and each is the inverse of the other. *)
Theorem solid_render_swatch (host : Solid.Host) (self : Solid.Solid)
    (width height : Q) (c : Color) :
  Solid.usable_color host self = Some c ->
  let '(ew, eh) := Solid.effective_size host width height in
  (0 < ew)%Q -> (0 < eh)%Q ->
  let rv := Solid.render host self width height in
  ((ew < 10)%Q \/ (eh < 10)%Q ->
     children_of rv = [(solid_texture ew eh c, (0, 0))] /\
     forward_of rv = None /\ reverse_of rv = None) /\
  ((10 <= ew)%Q /\ (10 <= eh)%Q ->
     let F := mkMatrix2D (1 * 10 / ew) 0 0 (1 * 10 / eh) in
     let R := mkMatrix2D (1 * ew / 10) 0 0 (1 * eh / 10) in
     children_of rv = [(solid_texture 10 10 c, (0, 0))] /\
     forward_of rv = Some F /\ reverse_of rv = Some R /\
     mat_eq F (mkMatrix2D (10 / ew) 0 0 (10 / eh)) /\
     mat_eq R (mkMatrix2D (ew / 10) 0 0 (eh / 10)) /\
     mat_eq (mat_mul F R) mat_identity /\ mat_eq (mat_mul R F) mat_identity).
Proof.
  intros Hc. unfold Solid.render. rewrite Hc.
  destruct (Solid.effective_size host width height) as [ew eh].
  destruct (Solid.styled_size host width height) as [w0 h0].
  cbv zeta. intros Hw Hh.
  apply Qleb_gt in Hw as Lw. apply Qleb_gt in Hh as Lh. rewrite Lw, Lh.
  cbn [orb]. unfold Solid.SIZE. split.
  - intros H.
    assert (T : Py.Qltb ew 10 || Py.Qltb eh 10 = true).
    { apply orb_true_iff. rewrite !Qltb_lt. exact H. }
    rewrite T. repeat split.
  - intros [H1 H2].
    apply Qltb_ge in H1 as T1. apply Qltb_ge in H2 as T2. rewrite T1, T2.
    cbn [orb].
    assert (Nw : ~ (ew == 0)%Q) by (intros E; rewrite E in Hw; discriminate).
    assert (Nh : ~ (eh == 0)%Q) by (intros E; rewrite E in Hh; discriminate).
    split; [reflexivity | split; [reflexivity | split; [reflexivity |]]].
    unfold mat_eq, mat_mul, mat_identity; cbn [xdx xdy ydx ydy].
    repeat split; try reflexivity; field; assumption.
Qed.

Lemma solid_render_swatch_witness :
  let host := Solid.mkHost (fun _ _ => (0, 0)%Q) None (1, 1)%Q in
  let white := (255, 255, 255, 255) in
  let rv := Solid.render host (Solid.mkSolid (Some white)) 500 500 in
  children_of rv = [(solid_texture 10 10 white, (0, 0))] /\
  exists F R, forward_of rv = Some F /\ reverse_of rv = Some R /\
    mat_eq F (mkMatrix2D 0.02 0 0 0.02) /\ mat_eq R (mkMatrix2D 50 0 0 50) /\
    mat_eq (mat_mul F R) mat_identity.
Proof.
  intros host white rv.
  pose proof (solid_render_swatch host (Solid.mkSolid (Some white)) 500 500 white
                eq_refl) as H.
  change (Solid.effective_size host 500 500) with (500%Q, 500%Q) in H.
  cbv zeta in H. fold rv in H.
  destruct (H eq_refl eq_refl) as [_ Hbig].
  destruct Hbig as (Hch & HF & HR & _ & _ & HI & _).
  { split; discriminate. }
  split; [exact Hch |].
  eexists. eexists.
  split; [exact HF | split; [exact HR | split; [| split; [| exact HI]]]];
    unfold mat_eq; cbn [xdx xdy ydx ydy]; repeat split; reflexivity.
Defined.

(** * Further properties *)

(** ** Borders that fit, and borders that do not *)

Lemma axis_borders_fit (a b s d : Z) :
  0 <= a -> 0 <= b -> a + b <= s - 2 -> a + b <= d ->
  Frame.axis_borders a b s d = (a, b).
Proof.
  intros Ha Hb Hs Hd. unfold Frame.axis_borders, Py.min3.
  replace (Z.min (Z.min (a + b) (s - 2)) d) with (a + b) by lia.
  unfold Py.truthy. destruct (Z.eqb_spec (a + b) 0) as [E | N]; cbn [negb andb].
  - f_equal; lia.
  - rewrite !Z.div_mul by assumption. reflexivity.
Qed.

(** Borders that leave two pixels of the child and fit in the result are
    used as they are. *)
Theorem borders_that_fit_are_kept (self : Frame.Frame) (sw sh dw dh : Z) :
  0 <= Frame.left self -> 0 <= Frame.top self ->
  0 <= Frame.right self -> 0 <= Frame.bottom self ->
  Frame.left self + Frame.right self <= sw - 2 ->
  Frame.left self + Frame.right self <= dw ->
  Frame.top self + Frame.bottom self <= sh - 2 ->
  Frame.top self + Frame.bottom self <= dh ->
  Frame.borders self sw sh dw dh
  = (Frame.left self, Frame.top self, Frame.right self, Frame.bottom self).
Proof.
  intros Hl Ht Hr Hb Hsw Hdw Hsh Hdh.
  rewrite borders_axes, !axis_borders_fit by assumption. reflexivity.
Qed.

Lemma borders_that_fit_are_kept_witness :
  Frame.borders (Frame.mkFrame 0 0 10 12 14 16 Frame.tile_False 0.5) 100 80 640 480
  = (10, 12, 14, 16).
Proof.
  apply (borders_that_fit_are_kept
           (Frame.mkFrame 0 0 10 12 14 16 Frame.tile_False 0.5) 100 80 640 480);
    simpl; lia.
Defined.

Lemma floor_share_le (a n x : Z) : 0 <= a -> 0 <= x <= n -> 0 < n -> a * x / n <= a.
Proof.
  intros Ha Hx Hn. apply Z.div_le_upper_bound; [assumption | nia].
Qed.

Lemma floor_share_mono (a b n x : Z) : a <= b -> 0 <= x -> 0 < n -> a * x / n <= b * x / n.
Proof.
  intros Hab Hx Hn. apply Z.div_le_mono; [assumption | nia].
Qed.

Lemma axis_borders_shrink (a b s d : Z) :
  0 <= a -> 0 <= b -> 2 <= s -> 0 <= d ->
  let '(l, r) := Frame.axis_borders a b s d in
  0 <= l <= a /\ 0 <= r <= b /\ (a <= b -> l <= r) /\ (b <= a -> r <= l).
Proof.
  intros Ha Hb Hs Hd. unfold Frame.axis_borders.
  pose proof (min3_spec (a + b) (s - 2) d) as M.
  set (x := Py.min3 (a + b) (s - 2) d) in *.
  destruct (Py.truthy x && Py.truthy (a + b)) eqn:T; [| lia].
  apply andb_true_iff in T as [_ Tn]. apply truthy_true_iff in Tn.
  assert (Hn : 0 < a + b) by lia. assert (Hx : 0 <= x <= a + b) by lia.
  pose proof (floor_share_nonneg a (a + b) x Ha ltac:(lia) Hn).
  pose proof (floor_share_nonneg b (a + b) x Hb ltac:(lia) Hn).
  pose proof (floor_share_le a (a + b) x Ha Hx Hn).
  pose proof (floor_share_le b (a + b) x Hb Hx Hn).
  repeat split; try lia; intros; apply floor_share_mono; lia.
Qed.

(** Clamping only shrinks: for non-negative borders, a child at least 2 by 2
    and a non-negative size, each border used lies between 0 and the border
    asked for, and the smaller of two opposite borders stays the smaller. *)
Theorem borders_only_shrink (self : Frame.Frame) (sw sh dw dh : Z) :
  0 <= Frame.left self -> 0 <= Frame.top self ->
  0 <= Frame.right self -> 0 <= Frame.bottom self ->
  2 <= sw -> 2 <= sh -> 0 <= dw -> 0 <= dh ->
  let '(l, t, r, b) := Frame.borders self sw sh dw dh in
  (0 <= l <= Frame.left self /\ 0 <= r <= Frame.right self /\
   (Frame.left self <= Frame.right self -> l <= r) /\
   (Frame.right self <= Frame.left self -> r <= l)) /\
  (0 <= t <= Frame.top self /\ 0 <= b <= Frame.bottom self /\
   (Frame.top self <= Frame.bottom self -> t <= b) /\
   (Frame.bottom self <= Frame.top self -> b <= t)).
Proof.
  intros Hl Ht Hr Hb Hsw Hsh Hdw Hdh. rewrite borders_axes.
  pose proof (axis_borders_shrink _ _ sw dw Hl Hr Hsw Hdw) as X.
  pose proof (axis_borders_shrink _ _ sh dh Ht Hb Hsh Hdh) as Y.
  destruct (Frame.axis_borders (Frame.left self) (Frame.right self) sw dw) as [l r].
  destruct (Frame.axis_borders (Frame.top self) (Frame.bottom self) sh dh) as [t b].
  cbn [fst snd]. split; assumption.
Qed.

Lemma borders_only_shrink_witness :
  let '(l, t, r, b) :=
    Frame.borders (Frame.mkFrame 0 0 30 5 50 5 Frame.tile_False 0.5) 42 100 640 480 in
  l <= 30 /\ r <= 50 /\ l <= r.
Proof.
  pose proof (borders_only_shrink
                (Frame.mkFrame 0 0 30 5 50 5 Frame.tile_False 0.5) 42 100 640 480
                ltac:(simpl; lia) ltac:(simpl; lia) ltac:(simpl; lia) ltac:(simpl; lia)
                ltac:(lia) ltac:(lia) ltac:(lia) ltac:(lia)) as H.
  destruct (Frame.borders (Frame.mkFrame 0 0 30 5 50 5 Frame.tile_False 0.5) 42 100 640 480)
    as [[[l t] r] b].
  destruct H as [(Hl & Hr & Hlr & _) _].
  split; [apply Hl | split; [apply Hr | apply Hlr; simpl; lia]].
Defined.

(** The centre of the child survives: for non-negative borders, a child at
    least 2 by 2 and a non-negative size, the centre cell takes at least 2 by
    2 pixels of the child, and its destination extents are not negative. *)
Theorem centre_cell_survives (self : Frame.Frame) (sw sh dw dh : Z) :
  0 <= Frame.left self -> 0 <= Frame.top self ->
  0 <= Frame.right self -> 0 <= Frame.bottom self ->
  2 <= sw -> 2 <= sh -> 0 <= dw -> 0 <= dh ->
  let '(l, t, r, b) := Frame.borders self sw sh dw dh in
  let centre := (l, - r, t, - b) in
  Frame.source_extent sw sh centre = (sw - l - r, sh - t - b) /\
  2 <= sw - l - r /\ 2 <= sh - t - b /\
  Frame.dest_rect dw dh centre = (l, dw - r, t, dh - b) /\
  l <= dw - r /\ t <= dh - b.
Proof.
  intros Hl Ht Hr Hb Hsw Hsh Hdw Hdh. rewrite borders_axes.
  pose proof (axis_borders_bound _ _ sw dw Hl Hr Hsw Hdw) as X.
  pose proof (axis_borders_bound _ _ sh dh Ht Hb Hsh Hdh) as Y.
  cbv zeta in X, Y.
  pose proof (min3_spec (Frame.left self + Frame.right self) (sw - 2) dw) as Mx.
  pose proof (min3_spec (Frame.top self + Frame.bottom self) (sh - 2) dh) as My.
  destruct (Frame.axis_borders (Frame.left self) (Frame.right self) sw dw) as [l r].
  destruct (Frame.axis_borders (Frame.top self) (Frame.bottom self) sh dh) as [t b].
  cbn [fst snd]. destruct X as (Bl & Br & Bx & _). destruct Y as (Bt & Bb & By & _).
  unfold Frame.source_extent, Frame.dest_rect. resolve_sides. cbn [fst snd].
  repeat split; try lia; f_equal; lia.
Qed.

Lemma centre_cell_survives_witness :
  let '(l, t, r, b) :=
    Frame.borders (Frame.mkFrame 0 0 30 30 30 30 Frame.tile_False 0.5) 12 12 640 480 in
  2 <= 12 - l - r /\ 2 <= 12 - t - b.
Proof.
  pose proof (centre_cell_survives
                (Frame.mkFrame 0 0 30 30 30 30 Frame.tile_False 0.5) 12 12 640 480
                ltac:(simpl; lia) ltac:(simpl; lia) ltac:(simpl; lia) ltac:(simpl; lia)
                ltac:(lia) ltac:(lia) ltac:(lia) ltac:(lia)) as H.
  destruct (Frame.borders (Frame.mkFrame 0 0 30 30 30 30 Frame.tile_False 0.5) 12 12 640 480)
    as [[[l t] r] b].
  destruct H as (_ & Hx & Hy & _). split; assumption.
Defined.

(** ** A fractional result size *)

Lemma Qint_inject_Z (n : Z) : Py.Qint (inject_Z n) = n.
Proof. unfold Py.Qint, inject_Z. cbn [Qnum Qden]. apply Z.quot_1_r. Qed.

Lemma Qmax_inject_Z (a b : Z) :
  Py.Qmax (inject_Z a) (inject_Z b) = inject_Z (Z.max a b).
Proof.
  unfold Py.Qmax, Py.Qltb, inject_Z. cbn [Qnum Qden]. rewrite !Z.mul_1_r.
  destruct (Z.ltb_spec a b).
  - rewrite Z.max_r by lia. reflexivity.
  - rewrite Z.max_l by lia. reflexivity.
Qed.

(** With [self.tile] on the result size is a whole number whatever the
    request; and for a request and a minimum that are whole numbers it is
    [dest_size], with [self.tile] on or off. *)
Lemma result_size_whole (host : Frame.Host) (tile : Frame.Tile)
    (xminimum yminimum width height : Q) (w h : Z) :
  (Frame.tile_truthy tile = true ->
   exists dw dh : Z,
     Frame.result_size xminimum yminimum tile width height
     = (inject_Z dw, inject_Z dh)) /\
  (let '(dw, dh) := Frame.dest_size host w h in
   Frame.result_size (inject_Z (Frame.xminimum host)) (inject_Z (Frame.yminimum host))
                     tile (inject_Z w) (inject_Z h)
   = (inject_Z dw, inject_Z dh)).
Proof.
  split.
  - intros T. unfold Frame.result_size. rewrite T.
    eexists. eexists. reflexivity.
  - unfold Frame.dest_size, Frame.result_size. rewrite !Qmax_inject_Z.
    destruct (Frame.tile_truthy tile); [| reflexivity].
    rewrite !Qint_inject_Z. reflexivity.
Qed.

(** A request of 7.9 by -3.5 with [self.tile] on gives 7 by 0 when the
    minimum is 0 by 0: [int] cuts toward zero. *)
Example result_size_truncates :
  Frame.result_size 0 0 Frame.tile_True (79 # 10) (- (35 # 10)) = (7%Q, 0%Q) /\
  Frame.result_size 0 0 Frame.tile_False (79 # 10) (35 # 10) = (79 # 10, 35 # 10)%Q /\
  Py.Qint (- (35 # 10)) = (-3)%Z.
Proof. repeat split. Qed.

Lemma Qfloor_sum (x y : Q) :
  Qfloor (x + y) - 1 <= Qfloor x + Qfloor y <= Qfloor (x + y).
Proof.
  pose proof (Qfloor_le x) as Lx. pose proof (Qfloor_le y) as Ly.
  pose proof (Qlt_floor x) as Ux. pose proof (Qlt_floor y) as Uy.
  pose proof (Qfloor_le (x + y)) as L.
  split.
  - assert (H : (inject_Z (Qfloor (x + y)) < inject_Z (Qfloor x + Qfloor y + 2))%Q).
    { apply (Qle_lt_trans _ (x + y)); [exact L |].
      replace (Qfloor x + Qfloor y + 2) with ((Qfloor x + 1) + (Qfloor y + 1)) by lia.
      rewrite inject_Z_plus. apply Qplus_lt_le_compat; [exact Ux |].
      apply Qlt_le_weak. exact Uy. }
    rewrite <- Zlt_Qlt in H. lia.
  - rewrite <- (Qfloor_Z (Qfloor x + Qfloor y)). apply Qfloor_resp_le.
    rewrite inject_Z_plus. apply Qplus_le_compat; assumption.
Qed.

Lemma Qtruthy_pos (x : Q) : (0 < x)%Q -> Py.Qtruthy x = true.
Proof.
  intros H. unfold Py.Qtruthy, Py.Qeqb.
  destruct (Qeq_bool x 0) eqn:E; [| reflexivity].
  apply Qeq_bool_iff in E. rewrite E in H. exfalso. exact (Qlt_irrefl 0 H).
Qed.

(** With [self.tile] off the result size is the request, fractional if that
    is.  When such an extent [d] is the least of [left + right], [sw - 2] and
    itself, and positive, the borders are the floors of the binary64 products
    [left * d] and [right * d] over [left + right]; when the two products are
    exact, as they are for 5.5, these are the floors of the shares of [d],
    and their sum is the floor of [d] or one less. *)
Theorem fractional_borders_floored_shares (a b s : Z) (d : float) (dq pa pb : Q) :
  Py.float_value d = Some dq ->
  (0 < dq)%Q -> (dq < inject_Z (Z.min (a + b) (s - 2)))%Q ->
  Py.float_value (Py.float_of_Z a * d) = Some pa ->
  Py.float_value (Py.float_of_Z b * d) = Some pb ->
  exists l r,
    Frame.axis_borders64 a b s d = Some (l, r) /\
    l = Qfloor (pa / inject_Z (a + b)) /\
    r = Qfloor (pb / inject_Z (a + b)) /\
    ((pa == inject_Z a * dq)%Q -> (pb == inject_Z b * dq)%Q ->
       l = Qfloor (inject_Z a * dq / inject_Z (a + b)) /\
       r = Qfloor (inject_Z b * dq / inject_Z (a + b)) /\
       Qfloor dq - 1 <= l + r <= Qfloor dq).
Proof.
  intros Hd Hpos Hlt Ha Hb.
  assert (Hn : 0 < a + b).
  { assert (H : (inject_Z 0 < inject_Z (Z.min (a + b) (s - 2)))%Q)
      by (apply (Qlt_trans _ dq); assumption).
    rewrite <- Zlt_Qlt in H. lia. }
  exists (Qfloor (pa / inject_Z (a + b))), (Qfloor (pb / inject_Z (a + b))).
  split; [| split; [reflexivity | split; [reflexivity |]]].
  - unfold Frame.axis_borders64, Py.float_floordiv. rewrite Hd.
    apply Qltb_lt in Hlt. rewrite Hlt.
    rewrite (Qtruthy_pos dq Hpos).
    assert (T : Py.truthy (a + b) = true) by (apply truthy_true_iff; lia).
    rewrite T, Ha, Hb. reflexivity.
  - intros Ea Eb.
    assert (Nz : ~ (inject_Z (a + b) == 0)%Q).
    { intros E. assert (H : (inject_Z 0 < inject_Z (a + b))%Q)
        by (rewrite <- Zlt_Qlt; exact Hn).
      rewrite E in H. exact (Qlt_irrefl _ H). }
    assert (Fa : Qfloor (pa / inject_Z (a + b))
                 = Qfloor (inject_Z a * dq / inject_Z (a + b)))
      by (apply Qfloor_comp; rewrite Ea; reflexivity).
    assert (Fb : Qfloor (pb / inject_Z (a + b))
                 = Qfloor (inject_Z b * dq / inject_Z (a + b)))
      by (apply Qfloor_comp; rewrite Eb; reflexivity).
    split; [exact Fa | split; [exact Fb |]].
    rewrite Fa, Fb.
    assert (S : (inject_Z a * dq / inject_Z (a + b)
                 + inject_Z b * dq / inject_Z (a + b) == dq)%Q).
    { rewrite inject_Z_plus in Nz |- *. field. exact Nz. }
    rewrite <- (Qfloor_comp _ _ S). apply Qfloor_sum.
Qed.

(** Borders 3 and 4 for a result 5.5 wide: 2 and 3, that is 5 in all. *)
Lemma fractional_borders_floored_shares_witness :
  Frame.axis_borders64 3 4 100 5.5 = Some (2, 3).
Proof.
  destruct (fractional_borders_floored_shares 3 4 100 5.5 _ _ _
              eq_refl ltac:(reflexivity) ltac:(reflexivity) eq_refl eq_refl)
    as (l & r & E & _ & _ & H).
  destruct H as (Hl & Hr & _); [reflexivity | reflexivity |].
  rewrite E, Hl, Hr. reflexivity.
Defined.

(** A product that is not exact: [3 * 1.3333333333333333] is a little less
    than 4 and rounds to 4.0, so that with borders 3 and 1 the left border is
    1, where the floor of the exact share is 0. *)
Example fractional_borders_rounded_product :
  Py.float_value 1.3333333333333333
    = Some (6004799503160661 # 4503599627370496)%Q /\
  Py.float_value (Py.float_of_Z 3 * 1.3333333333333333)
    = Some (4503599627370496 # 1125899906842624)%Q /\
  Frame.axis_borders64 3 1 100 1.3333333333333333 = Some (1, 0) /\
  Qfloor (3 * (6004799503160661 # 4503599627370496) / inject_Z (3 + 1)) = 0.
Proof. repeat split. Qed.

(** On a whole number below the other two, [axis_borders64] is
    [axis_borders]: 5.0 gives what 5 gives. *)
Example fractional_borders_whole_number :
  Frame.axis_borders64 3 4 100 5 = Some (Frame.axis_borders 3 4 100 5) /\
  Frame.axis_borders64 3 4 100 50 = Some (Frame.axis_borders 3 4 100 50).
Proof. repeat split. Qed.

(** ** Cells that are copied *)

(** A cell whose source and destination extents agree is copied as it is, by
    both renderers. *)
Lemma draw_unscaled (self : Frame.Frame) (sw sh dw dh x0 x1 y0 y1 : Z)
    (rv : Render) (dest : Surface) (dx0 sx0 dx1 sx1 dy0 sy0 dy1 sy1 : Z) :
  Frame.near_side dw sw x0 = (dx0, sx0) -> Frame.far_side dw sw x1 = (dx1, sx1) ->
  Frame.near_side dh sh y0 = (dy0, sy0) -> Frame.far_side dh sh y1 = (dy1, sy1) ->
  0 < sx1 - sx0 -> 0 < sy1 - sy0 ->
  sx1 - sx0 = dx1 - dx0 -> sy1 - sy0 = dy1 - dy0 ->
  Frame.draw self sw sh dw dh x0 x1 y0 y1 rv
    = blit rv (subsurface (sx0, sy0, sx1 - sx0, sy1 - sy0)) (dx0, dy0) /\
  Frame.sw_draw self sw sh dw dh x0 x1 y0 y1 dest
    = surf_blit dest (surf_subsurface source (sx0, sy0, sx1 - sx0, sy1 - sy0)) (dx0, dy0).
Proof.
  intros Ex0 Ex1 Ey0 Ey1 Hw Hh Ew Eh.
  unfold Frame.draw, Frame.sw_draw. rewrite Ex0, Ex1, Ey0, Ey1.
  destruct (Z.eqb_spec sx0 sx1); [lia|].
  destruct (Z.eqb_spec sy0 sy1); [lia|].
  destruct (Z.leb_spec (sx1 - sx0) 0); [lia|].
  destruct (Z.leb_spec (sy1 - sy0) 0); [lia|].
  destruct (Z.leb_spec (dy1 - dy0) 0); [lia|].
  destruct (Z.leb_spec (dx1 - dx0) 0); [lia|].
  destruct (Z.leb_spec dx1 dx0); [lia|].
  destruct (Z.leb_spec dy1 dy0); [lia|].
  cbn [orb fst snd]. rewrite <- Ew, <- Eh, resize_same_size.
  rewrite !Z.eqb_refl. cbn [andb negb]. split; reflexivity.
Qed.

(** The corners keep their size: with four positive borders, each corner
    cell is the corner of the child of that size, copied to the corner of the
    result, whatever the sizes of child and result and whatever the tile
    mode, on the hardware and on the software renderer. *)
Theorem corners_are_copied (self : Frame.Frame) (sw sh dw dh l t r b : Z)
    (rv : Render) (dest : Surface) :
  0 < l -> 0 < t -> 0 < r -> 0 < b ->
  (Frame.draw self sw sh dw dh 0 l 0 t rv
     = blit rv (subsurface (0, 0, l, t)) (0, 0) /\
   Frame.draw self sw sh dw dh (- r) 0 0 t rv
     = blit rv (subsurface (sw - r, 0, r, t)) (dw - r, 0) /\
   Frame.draw self sw sh dw dh 0 l (- b) 0 rv
     = blit rv (subsurface (0, sh - b, l, b)) (0, dh - b) /\
   Frame.draw self sw sh dw dh (- r) 0 (- b) 0 rv
     = blit rv (subsurface (sw - r, sh - b, r, b)) (dw - r, dh - b)) /\
  (Frame.sw_draw self sw sh dw dh 0 l 0 t dest
     = surf_blit dest (surf_subsurface source (0, 0, l, t)) (0, 0) /\
   Frame.sw_draw self sw sh dw dh (- r) 0 0 t dest
     = surf_blit dest (surf_subsurface source (sw - r, 0, r, t)) (dw - r, 0) /\
   Frame.sw_draw self sw sh dw dh 0 l (- b) 0 dest
     = surf_blit dest (surf_subsurface source (0, sh - b, l, b)) (0, dh - b) /\
   Frame.sw_draw self sw sh dw dh (- r) 0 (- b) 0 dest
     = surf_blit dest (surf_subsurface source (sw - r, sh - b, r, b)) (dw - r, dh - b)).
Proof.
  intros Hl Ht Hr Hb.
  assert (N0w : Frame.near_side dw sw 0 = (0, 0)) by (apply near_side_nonneg; lia).
  assert (N0h : Frame.near_side dh sh 0 = (0, 0)) by (apply near_side_nonneg; lia).
  assert (Nrw : Frame.near_side dw sw (- r) = (dw + - r, sw + - r))
    by (apply near_side_neg; lia).
  assert (Nbh : Frame.near_side dh sh (- b) = (dh + - b, sh + - b))
    by (apply near_side_neg; lia).
  assert (F0w : Frame.far_side dw sw 0 = (dw + 0, sw + 0)) by (apply far_side_nonpos; lia).
  assert (F0h : Frame.far_side dh sh 0 = (dh + 0, sh + 0)) by (apply far_side_nonpos; lia).
  pose proof (far_side_pos dw sw l Hl) as Flw.
  pose proof (far_side_pos dh sh t Ht) as Fth.
  destruct (draw_unscaled self sw sh dw dh 0 l 0 t rv dest 0 0 l l 0 0 t t
              N0w Flw N0h Fth ltac:(lia) ltac:(lia) ltac:(lia) ltac:(lia)) as [TL1 TL2].
  destruct (draw_unscaled self sw sh dw dh (- r) 0 0 t rv dest
              (dw + - r) (sw + - r) (dw + 0) (sw + 0) 0 0 t t
              Nrw F0w N0h Fth ltac:(lia) ltac:(lia) ltac:(lia) ltac:(lia)) as [TR1 TR2].
  destruct (draw_unscaled self sw sh dw dh 0 l (- b) 0 rv dest
              0 0 l l (dh + - b) (sh + - b) (dh + 0) (sh + 0)
              N0w Flw Nbh F0h ltac:(lia) ltac:(lia) ltac:(lia) ltac:(lia)) as [BL1 BL2].
  destruct (draw_unscaled self sw sh dw dh (- r) 0 (- b) 0 rv dest
              (dw + - r) (sw + - r) (dw + 0) (sw + 0)
              (dh + - b) (sh + - b) (dh + 0) (sh + 0)
              Nrw F0w Nbh F0h ltac:(lia) ltac:(lia) ltac:(lia) ltac:(lia)) as [BR1 BR2].
  rewrite TL1, TL2, TR1, TR2, BL1, BL2, BR1, BR2.
  replace (l - 0) with l by lia. replace (t - 0) with t by lia.
  replace (sw + 0 - (sw + - r)) with r by lia.
  replace (sh + 0 - (sh + - b)) with b by lia.
  replace (sw + - r) with (sw - r) by lia. replace (sh + - b) with (sh - b) by lia.
  replace (dw + - r) with (dw - r) by lia. replace (dh + - b) with (dh - b) by lia.
  repeat split.
Qed.

Lemma corners_are_copied_witness :
  Frame.draw (Frame.mkFrame 0 0 4 4 6 6 Frame.tile_integer 0.5) 20 20 300 200
             (- 6) 0 (- 6) 0 (Render_new 300 200)
  = mkRender 300 200 None None false false [(subsurface (14, 14, 6, 6), (294, 194))].
Proof.
  destruct (corners_are_copied (Frame.mkFrame 0 0 4 4 6 6 Frame.tile_integer 0.5)
              20 20 300 200 4 4 6 6 (Render_new 300 200) source
              ltac:(lia) ltac:(lia) ltac:(lia) ltac:(lia)) as [(_ & _ & _ & H) _].
  exact H.
Defined.

(** At the size of the child, source and destination of every cell agree. *)
Lemma blit_of_cell_natural (self : Frame.Frame) (dw dh : Z) (c : Z * Z * Z * Z) :
  Frame.blit_of_cell self dw dh dw dh c =
  let '(dx0, dx1, dy0, dy1) := Frame.dest_rect dw dh c in
  (subsurface (dx0, dy0, dx1 - dx0, dy1 - dy0), (dx0, dy0)).
Proof.
  destruct c as [[[x0 x1] y0] y1].
  unfold Frame.blit_of_cell, Frame.source_extent, Frame.dest_rect,
    Frame.near_side, Frame.far_side.
  destruct (x0 >=? 0), (x1 >? 0), (y0 >=? 0), (y1 >? 0); cbn [fst snd];
    rewrite resize_same_size; reflexivity.
Qed.

(** A frame drawn at the size of its child reproduces it: on the hardware
    path, for non-negative borders and a child at least 2 by 2, every child
    of the result is the part of the child render at a rectangle, blitted at
    that same rectangle, and these rectangles add up to the whole, whatever
    the tile mode. *)
Theorem render_at_child_size_copies (host : Frame.Host) (self : Frame.Frame)
    (width height dw dh : Z) :
  Frame.renderer_is_sw host = false ->
  Frame.dest_size host width height = (dw, dh) ->
  Frame.child_size host dw dh = (dw, dh) ->
  0 <= Frame.left self -> 0 <= Frame.top self ->
  0 <= Frame.right self -> 0 <= Frame.bottom self ->
  2 <= dw -> 2 <= dh ->
  let '(l, t, r, b) := Frame.borders self dw dh dw dh in
  let drawn := filter (Frame.nondegenerate dw dh) (Frame.cells l t r b) in
  children_of (Frame.render host self width height)
    = map (fun c => let '(dx0, dx1, dy0, dy1) := Frame.dest_rect dw dh c in
                    (subsurface (dx0, dy0, dx1 - dx0, dy1 - dy0), (dx0, dy0)))
          drawn /\
  Frame.total_area (map (Frame.dest_rect dw dh) drawn) = dw * dh.
Proof.
  intros Hhw Hd Hc Hl Ht Hr Hb Hw Hh.
  pose proof (render_blits_fill_destination host self width height dw dh dw dh
                Hhw Hd Hc Hl Ht Hr Hb Hw Hh ltac:(lia) ltac:(lia)) as R.
  destruct (Frame.borders self dw dh dw dh) as [[[l t] r] b].
  cbv zeta in R |- *. destruct R as [Rc Ra]. split; [| exact Ra].
  rewrite Rc. apply map_ext. intros c. apply blit_of_cell_natural.
Qed.

Lemma render_at_child_size_copies_witness :
  children_of
    (Frame.render (Frame.mkHost 0 0 (fun w h => (w, h)) false (fun s => s))
                  (Frame.mkFrame 0 0 3 0 3 0 Frame.tile_True 0.5) 10 8)
  = [(subsurface (0, 0, 3, 8), (0, 0)); (subsurface (3, 0, 4, 8), (3, 0));
     (subsurface (7, 0, 3, 8), (7, 0))].
Proof.
  pose proof (render_at_child_size_copies
                (Frame.mkHost 0 0 (fun w h => (w, h)) false (fun s => s))
                (Frame.mkFrame 0 0 3 0 3 0 Frame.tile_True 0.5) 10 8 10 8
                eq_refl eq_refl eq_refl
                ltac:(simpl; lia) ltac:(simpl; lia) ltac:(simpl; lia) ltac:(simpl; lia)
                ltac:(lia) ltac:(lia)) as H.
  change (Frame.borders (Frame.mkFrame 0 0 3 0 3 0 Frame.tile_True 0.5) 10 8 10 8)
    with (3, 0, 3, 0) in H.
  cbv zeta in H. destruct H as [H _]. rewrite H. reflexivity.
Defined.

(** ** A frame without borders *)

(** A frame whose four borders are 0 is one cell: on the hardware path, for
    a child and a result of positive sizes, the result holds the whole child
    resized to the whole result, at the origin; without tiling, and unless
    the sizes agree, that is the child scaled. *)
Theorem borderless_frame_is_one_cell (host : Frame.Host) (self : Frame.Frame)
    (width height dw dh sw sh : Z) :
  Frame.renderer_is_sw host = false ->
  Frame.dest_size host width height = (dw, dh) ->
  Frame.child_size host dw dh = (sw, sh) ->
  Frame.left self = 0 -> Frame.top self = 0 ->
  Frame.right self = 0 -> Frame.bottom self = 0 ->
  0 < sw -> 0 < sh -> 0 < dw -> 0 < dh ->
  Frame.render host self width height
    = mkRender (inject_Z dw) (inject_Z dh) None None false false
        [(Frame.resize self (subsurface (0, 0, sw, sh)) sw sh dw dh, (0, 0))] /\
  (Frame.tile self = Frame.tile_False -> sw <> dw \/ sh <> dh ->
   Frame.resize self (subsurface (0, 0, sw, sh)) sw sh dw dh
     = Frame.scaled (subsurface (0, 0, sw, sh)) sw sh dw dh).
Proof.
  intros Hhw Hd Hc Hl Ht Hr Hb Hsw Hsh Hdw Hdh. split.
  - unfold Frame.render. rewrite Hd, Hc, Hhw.
    unfold Frame.borders. rewrite Hl, Ht, Hr, Hb. cbn [Z.add Py.truthy Z.eqb negb].
    rewrite !andb_false_r.
    unfold Frame.draw_pattern. cbn [Py.truthy Z.eqb negb Z.opp].
    pose proof (draw_blits_cell self sw sh dw dh 0 0 0 0
                  (Render_new (inject_Z dw) (inject_Z dh))) as D.
    unfold Frame.source_extent, Frame.dest_rect in D.
    rewrite !near_side_nonneg, !far_side_nonpos in D by lia.
    cbn [fst snd] in D. rewrite ?Z.add_0_r, ?Z.sub_0_r in D.
    rewrite D by lia. reflexivity.
  - intros Tf Hne. apply resize_scales; assumption.
Qed.

Lemma borderless_frame_is_one_cell_witness :
  Frame.render (Frame.mkHost 0 0 (fun _ _ => (64, 48)) false (fun s => s))
               (Frame.mkFrame 0 0 0 0 0 0 Frame.tile_False 0.5) 640 480
  = mkRender 640 480 None None false false
      [(Frame.scaled (subsurface (0, 0, 64, 48)) 64 48 640 480, (0, 0))].
Proof.
  destruct (borderless_frame_is_one_cell
              (Frame.mkHost 0 0 (fun _ _ => (64, 48)) false (fun s => s))
              (Frame.mkFrame 0 0 0 0 0 0 Frame.tile_False 0.5) 640 480 640 480 64 48
              eq_refl eq_refl eq_refl eq_refl eq_refl eq_refl eq_refl
              ltac:(lia) ltac:(lia) ltac:(lia) ltac:(lia)) as [R S].
  rewrite R, S; [reflexivity | reflexivity | left; lia].
Defined.

(** ** The transforms of scaled cells *)

Lemma inject_Z_nonzero (n : Z) : 0 < n -> ~ (inject_Z n == 0)%Q.
Proof. intros H E. unfold Qeq in E. simpl in E. lia. Qed.

Lemma scaled_inverse (cr : Render) (csw csh cdw cdh : Z) :
  0 < csw -> 0 < csh -> 0 < cdw -> 0 < cdh ->
  exists F R,
    forward_of (Frame.scaled cr csw csh cdw cdh) = Some F /\
    reverse_of (Frame.scaled cr csw csh cdw cdh) = Some R /\
    mat_eq (mat_mul F R) mat_identity /\ mat_eq (mat_mul R F) mat_identity /\
    (xdx F * inject_Z cdw == inject_Z csw)%Q /\ (ydy F * inject_Z cdh == inject_Z csh)%Q.
Proof.
  intros Hsw Hsh Hdw Hdh.
  pose proof (inject_Z_nonzero csw Hsw). pose proof (inject_Z_nonzero csh Hsh).
  pose proof (inject_Z_nonzero cdw Hdw). pose proof (inject_Z_nonzero cdh Hdh).
  eexists. eexists. split; [reflexivity | split; [reflexivity |]].
  unfold mat_eq, mat_mul, mat_identity. cbn [xdx xdy ydx ydy].
  repeat split; try reflexivity; field; try split; assumption.
Qed.

Lemma tiling_block_positive (self : Frame.Frame) (csw csh cdw cdh : Z) :
  0 < csw -> 0 < csh -> 0 < cdw -> 0 < cdh ->
  let '(xtiles, ytiles, ctw, cth) := Frame.tiling self csw csh cdw cdh in
  1 <= xtiles /\ 1 <= ytiles /\ 0 < ctw /\ 0 < cth.
Proof.
  intros Hsw Hsh Hdw Hdh. unfold Frame.tiling.
  destruct (Py.truthy (cdw mod csw) || Py.truthy (cdh mod csh));
    [destruct (Frame.tile self) |]; try (repeat split; lia).
  destruct (Py.Qltb _ (Frame.tile_ratio self)), (Py.Qltb _ (Frame.tile_ratio self));
    repeat split; nia.
Qed.

(** Whatever the hardware [draw] does to a cell of positive extents, the
    render it blits either has no transform, or has a [forward] and a
    [reverse] that are inverse to each other. *)
Theorem resize_transform_is_invertible (self : Frame.Frame) (rect : Rect)
    (csw csh cdw cdh : Z) :
  0 < csw -> 0 < csh -> 0 < cdw -> 0 < cdh ->
  let cell := Frame.resize self (subsurface rect) csw csh cdw cdh in
  match forward_of cell, reverse_of cell with
  | Some F, Some R =>
      mat_eq (mat_mul F R) mat_identity /\ mat_eq (mat_mul R F) mat_identity
  | None, None => True
  | _, _ => False
  end.
Proof.
  intros Hsw Hsh Hdw Hdh cell. subst cell. unfold Frame.resize.
  destruct (negb (csw =? cdw) || negb (csh =? cdh)) eqn:D; [| exact I].
  destruct (Frame.tile_truthy (Frame.tile self)).
  - pose proof (tiling_block_positive self csw csh cdw cdh Hsw Hsh Hdw Hdh) as P.
    destruct (Frame.tiling self csw csh cdw cdh) as [[[xtiles ytiles] ctw] cth].
    destruct P as (_ & _ & Pw & Ph).
    unfold Render_new, set_clipping. rewrite blit_tiles_children.
    destruct (negb (ctw =? cdw) || negb (cth =? cdh)); [| exact I].
    destruct (scaled_inverse
                (mkRender (inject_Z ctw) (inject_Z cth) None None true true
                   ([] ++ Frame.tile_grid (subsurface rect) csw csh xtiles ytiles))
                ctw cth cdw cdh Pw Ph Hdw Hdh)
      as (F & R & -> & -> & I1 & I2 & _).
    split; assumption.
  - rewrite D.
    destruct (scaled_inverse (subsurface rect) csw csh cdw cdh Hsw Hsh Hdw Hdh)
      as (F & R & -> & -> & I1 & I2 & _).
    split; assumption.
Qed.

Lemma resize_transform_is_invertible_witness :
  match forward_of (Frame.resize (Frame.mkFrame 0 0 0 0 0 0 Frame.tile_integer 0.5)
                      (subsurface (0, 0, 10, 10)) 10 10 15 25),
        reverse_of (Frame.resize (Frame.mkFrame 0 0 0 0 0 0 Frame.tile_integer 0.5)
                      (subsurface (0, 0, 10, 10)) 10 10 15 25) with
  | Some F, Some R => mat_eq (mat_mul F R) mat_identity
  | _, _ => False
  end.
Proof.
  pose proof (resize_transform_is_invertible
                (Frame.mkFrame 0 0 0 0 0 0 Frame.tile_integer 0.5) (0, 0, 10, 10)
                10 10 15 25 ltac:(lia) ltac:(lia) ltac:(lia) ltac:(lia)) as H.
  cbv zeta in H.
  change (forward_of (Frame.resize (Frame.mkFrame 0 0 0 0 0 0 Frame.tile_integer 0.5)
                        (subsurface (0, 0, 10, 10)) 10 10 15 25))
    with (Some (mkMatrix2D (20 # 15) 0 0 (30 # 25))) in H |- *.
  change (reverse_of (Frame.resize (Frame.mkFrame 0 0 0 0 0 0 Frame.tile_integer 0.5)
                        (subsurface (0, 0, 10, 10)) 10 10 15 25))
    with (Some (mkMatrix2D (15 # 20) 0 0 (25 # 30))) in H |- *.
  cbv iota in H |- *. apply H.
Defined.

(** ** Integer tiling with the default ratio *)

Lemma Qltb_compat_r (a b b' : Q) : (b == b')%Q -> Py.Qltb a b = Py.Qltb a b'.
Proof.
  intros E. destruct (Py.Qltb a b') eqn:T.
  - apply Qltb_lt. apply Qltb_lt in T. rewrite E. exact T.
  - apply Qltb_ge. apply Qltb_ge in T. rewrite E. exact T.
Qed.

Lemma fraction_below_half (m s : Z) :
  0 < s -> Py.Qltb (inject_Z m / inject_Z s) (1 # 2) = (2 * m <? s).
Proof.
  intros Hs. destruct s as [|p|p]; try lia.
  unfold Py.Qltb, Qdiv, Qinv, Qmult, inject_Z. cbn [Qnum Qden].
  rewrite Pos.mul_1_l, Z.mul_1_r.
  destruct (Z.ltb_spec (2 * m) (Z.pos p)), (Z.ltb_spec (m * 2) (1 * Z.pos p));
    try reflexivity; lia.
Qed.

(** With the ratio 0.5, on an axis that is not a multiple and whose cell is
    at least one tile long, the tiled block is the multiple of the tile
    nearest to the cell: it differs from the cell by at most half a tile.
    Each axis answers for itself, whatever the other one is. *)
Theorem integer_tiling_is_nearest (self : Frame.Frame) (csw csh cdw cdh : Z) :
  Frame.tile self = Frame.tile_integer ->
  (Frame.tile_ratio self == 1 # 2)%Q ->
  let '(xtiles, ytiles, ctw, cth) := Frame.tiling self csw csh cdw cdh in
  (0 < csw <= cdw -> cdw mod csw <> 0 ->
     ctw = csw * xtiles /\ 2 * Z.abs (ctw - cdw) <= csw) /\
  (0 < csh <= cdh -> cdh mod csh <> 0 ->
     cth = csh * ytiles /\ 2 * Z.abs (cth - cdh) <= csh).
Proof.
  intros Ht Hr.
  assert (A : forall d s, 0 < s <= d -> d mod s <> 0 ->
              2 * Z.abs (s * Frame.integer_count d s (Frame.tile_ratio self) - d) <= s).
  { intros d s Hs Hm. unfold Frame.integer_count.
    rewrite (Qltb_compat_r _ _ _ Hr), fraction_below_half by lia.
    rewrite (base_count_inexact d s) by lia.
    pose proof (Z.div_mod d s ltac:(lia)) as E.
    pose proof (Z.mod_pos_bound d s ltac:(lia)) as B.
    assert (1 <= d / s) by (apply Z.div_le_lower_bound; lia).
    destruct (Z.ltb_spec (2 * (d mod s)) s); nia. }
  destruct (Frame.tiling self csw csh cdw cdh) as [[[xtiles ytiles] ctw] cth] eqn:T.
  split; intros Hs Hm.
  - rewrite tiling_integer in T by (assumption || (left; exact Hm)).
    injection T as <- <- <- <-. split; [reflexivity | apply A; assumption].
  - rewrite tiling_integer in T by (assumption || (right; exact Hm)).
    injection T as <- <- <- <-. split; [reflexivity | apply A; assumption].
Qed.

Lemma integer_tiling_is_nearest_witness :
  (let '(xtiles, _, ctw, _) :=
     Frame.tiling (Frame.mkFrame 0 0 0 0 0 0 Frame.tile_integer 0.5) 10 10 34 5 in
   ctw = 10 * xtiles /\ 2 * Z.abs (ctw - 34) <= 10) /\
  (let '(_, ytiles, _, cth) :=
     Frame.tiling (Frame.mkFrame 0 0 0 0 0 0 Frame.tile_integer 0.5) 10 10 7 36 in
   cth = 10 * ytiles /\ 2 * Z.abs (cth - 36) <= 10).
Proof.
  split.
  - pose proof (integer_tiling_is_nearest
                  (Frame.mkFrame 0 0 0 0 0 0 Frame.tile_integer 0.5) 10 10 34 5
                  eq_refl ltac:(reflexivity)) as H.
    destruct (Frame.tiling (Frame.mkFrame 0 0 0 0 0 0 Frame.tile_integer 0.5) 10 10 34 5)
      as [[[xtiles ytiles] ctw] cth].
    destruct H as [H _]. apply H; [lia | discriminate].
  - pose proof (integer_tiling_is_nearest
                  (Frame.mkFrame 0 0 0 0 0 0 Frame.tile_integer 0.5) 10 10 7 36
                  eq_refl ltac:(reflexivity)) as H.
    destruct (Frame.tiling (Frame.mkFrame 0 0 0 0 0 0 Frame.tile_integer 0.5) 10 10 7 36)
      as [[[xtiles ytiles] ctw] cth].
    destruct H as [_ H]. apply H; [lia | discriminate].
Defined.

(** ** The tiles of a tiled cell *)

Lemma in_range (x n : Z) : In x (Py.range n) <-> 0 <= x < n.
Proof.
  unfold Py.range. rewrite in_map_iff. split.
  - intros (k & <- & Hk). apply in_seq in Hk. lia.
  - intros H. exists (Z.to_nat x). split; [lia |]. apply in_seq. lia.
Qed.

Lemma in_tile_grid (cr c : Render) (pos : Pos) (csw csh xtiles ytiles : Z) :
  In (c, pos) (Frame.tile_grid cr csw csh xtiles ytiles) <->
  c = cr /\ exists x y, 0 <= x < xtiles /\ 0 <= y < ytiles /\ pos = (x * csw, y * csh).
Proof.
  unfold Frame.tile_grid. rewrite in_flat_map. split.
  - intros (x & Hx & Hin). apply in_map_iff in Hin as (y & E & Hy).
    apply in_range in Hx. apply in_range in Hy. injection E as <- <-.
    split; [reflexivity |]. exists x, y. repeat split; lia.
  - intros (-> & x & y & Hx & Hy & ->). exists x. split; [apply in_range; exact Hx |].
    apply in_map_iff. exists y. split; [reflexivity | apply in_range; exact Hy].
Qed.

(** Every pixel of a block of [xtiles] by [ytiles] tiles lies in exactly one
    of the tiles that the loops blit. *)
Lemma tiles_partition_block (cr : Render) (csw csh xtiles ytiles px py : Z) :
  0 < csw -> 0 < csh ->
  0 <= px < csw * xtiles -> 0 <= py < csh * ytiles ->
  exists pos,
    In (cr, pos) (Frame.tile_grid cr csw csh xtiles ytiles) /\
    Frame.in_tile csw csh pos px py /\
    (forall c' pos', In (c', pos') (Frame.tile_grid cr csw csh xtiles ytiles) ->
                     Frame.in_tile csw csh pos' px py -> c' = cr /\ pos' = pos).
Proof.
  intros Hsw Hsh Hx Hy.
  pose proof (Z.div_mod px csw ltac:(lia)) as Ex.
  pose proof (Z.mod_pos_bound px csw Hsw) as Bx.
  pose proof (Z.div_mod py csh ltac:(lia)) as Ey.
  pose proof (Z.mod_pos_bound py csh Hsh) as By.
  exists (px / csw * csw, py / csh * csh). split; [| split].
  - apply in_tile_grid. split; [reflexivity |].
    exists (px / csw), (py / csh). repeat split; try nia; apply Z.div_pos; lia.
  - unfold Frame.in_tile. cbn [fst snd]. lia.
  - intros c' pos' Hin Ht. apply in_tile_grid in Hin as (-> & x & y & Hxr & Hyr & ->).
    unfold Frame.in_tile in Ht. cbn [fst snd] in Ht.
    split; [reflexivity |].
    assert (x = px / csw) by nia. assert (y = py / csh) by nia.
    subst. reflexivity.
Qed.

(** Simple mode on the hardware path: a cell of another size is tiled with
    the ceiling counts into a clipping render of exactly the size of the
    cell, with no transform, and the tiles leave no gap and no overlap: every
    pixel of the cell lies in exactly one of them. *)
Theorem simple_tiles_cover_cell (self : Frame.Frame) (cr : Render)
    (csw csh cdw cdh px py : Z) :
  Frame.tile self = Frame.tile_True ->
  0 < csw -> 0 < csh -> 0 < cdw -> 0 < cdh ->
  csw <> cdw \/ csh <> cdh ->
  0 <= px < cdw -> 0 <= py < cdh ->
  let '(xtiles, ytiles, ctw, cth) := Frame.tiling self csw csh cdw cdh in
  let cell := Frame.resize self cr csw csh cdw cdh in
  ((xtiles - 1) * csw < cdw <= xtiles * csw /\ (ytiles - 1) * csh < cdh <= ytiles * csh) /\
  cell = mkRender (inject_Z cdw) (inject_Z cdh) None None true true
                  (Frame.tile_grid cr csw csh xtiles ytiles) /\
  exists pos,
    In (cr, pos) (children_of cell) /\ Frame.in_tile csw csh pos px py /\
    (forall c' pos', In (c', pos') (children_of cell) ->
                     Frame.in_tile csw csh pos' px py -> c' = cr /\ pos' = pos).
Proof.
  intros Ht Hsw Hsh Hdw Hdh Hd Hx Hy.
  destruct (simple_tiling_is_cropped self cr csw csh cdw cdh Ht Hsw Hsh Hdw Hdh Hd)
    as (-> & (_ & Bx) & (_ & By) & ->).
  cbv zeta. split; [split; assumption | split; [reflexivity |]].
  cbn [children_of]. apply tiles_partition_block; try assumption; lia.
Qed.

Lemma simple_tiles_cover_cell_witness :
  exists pos,
    In (subsurface (0, 0, 10, 10), pos)
       (children_of (Frame.resize (Frame.mkFrame 0 0 0 0 0 0 Frame.tile_True 0.5)
                       (subsurface (0, 0, 10, 10)) 10 10 25 15)) /\
    Frame.in_tile 10 10 pos 24 14.
Proof.
  pose proof (simple_tiles_cover_cell (Frame.mkFrame 0 0 0 0 0 0 Frame.tile_True 0.5)
                (subsurface (0, 0, 10, 10)) 10 10 25 15 24 14 eq_refl
                ltac:(lia) ltac:(lia) ltac:(lia) ltac:(lia) ltac:(left; lia)
                ltac:(lia) ltac:(lia)) as H.
  destruct (Frame.tiling (Frame.mkFrame 0 0 0 0 0 0 Frame.tile_True 0.5) 10 10 25 15)
    as [[[xtiles ytiles] ctw] cth].
  cbv zeta in H. destruct H as (_ & _ & pos & Hin & Ht & _).
  exists pos. split; assumption.
Defined.

(** ** The two renderers *)

Lemma pair_same_iff (a b c d : Z) :
  negb ((a =? b) && (c =? d)) = false <-> a = b /\ c = d.
Proof.
  destruct (Z.eqb_spec a b), (Z.eqb_spec c d); simpl; split; intros; try tauto;
    try discriminate; destruct H; congruence.
Qed.

(** On a cell with positive source extents, the software [draw] blits one
    surface of the size of the destination rectangle at its corner when the
    destination extents are positive, and nothing otherwise. *)
Lemma sw_draw_cell (self : Frame.Frame) (sw sh dw dh x0 x1 y0 y1 w h : Z)
    (bl : list (Surface * Pos)) :
  0 < fst (Frame.source_extent sw sh (x0, x1, y0, y1)) ->
  0 < snd (Frame.source_extent sw sh (x0, x1, y0, y1)) ->
  exists surf,
    surf_size surf
      = (let '(dx0, dx1, dy0, dy1) := Frame.dest_rect dw dh (x0, x1, y0, y1) in
         Some (dx1 - dx0, dy1 - dy0)) /\
    Frame.sw_draw self sw sh dw dh x0 x1 y0 y1 (surface w h bl)
      = if Frame.nondegenerate dw dh (x0, x1, y0, y1)
        then surface w h
               (bl ++ [(surf,
                        (let '(dx0, _, dy0, _) := Frame.dest_rect dw dh (x0, x1, y0, y1) in
                         (dx0, dy0)))])
        else surface w h bl.
Proof.
  destruct (sides_extents sw sh dw dh x0 x1 y0 y1) as [Es Ed]. rewrite Es.
  unfold Frame.nondegenerate. rewrite Ed. unfold Frame.sw_draw.
  destruct (Frame.near_side dw sw x0) as [dx0 sx0].
  destruct (Frame.far_side dw sw x1) as [dx1 sx1].
  destruct (Frame.near_side dh sh y0) as [dy0 sy0].
  destruct (Frame.far_side dh sh y1) as [dy1 sy1].
  cbn [fst snd]. intros Hcw Hch.
  destruct (Z.eqb_spec sx0 sx1); [lia|].
  destruct (Z.eqb_spec sy0 sy1); [lia|].
  cbn [orb].
  destruct (Z.leb_spec dx1 dx0) as [Hx | Hx].
  { exists (surface (dx1 - dx0) (dy1 - dy0) []). split; [reflexivity |].
    destruct (Z.ltb_spec 0 (dx1 - dx0)); [lia | reflexivity]. }
  destruct (Z.leb_spec dy1 dy0) as [Hy | Hy].
  { exists (surface (dx1 - dx0) (dy1 - dy0) []). split; [reflexivity |].
    destruct (Z.ltb_spec 0 (dx1 - dx0)); [| lia].
    destruct (Z.ltb_spec 0 (dy1 - dy0)); [lia | reflexivity]. }
  destruct (Z.ltb_spec 0 (dx1 - dx0)); [| lia].
  destruct (Z.ltb_spec 0 (dy1 - dy0)); [| lia].
  cbn [orb andb surf_blit]. eexists. split; [| reflexivity].
  destruct (negb ((dx1 - dx0 =? sx1 - sx0) && (dy1 - dy0 =? sy1 - sy0))) eqn:D.
  - destruct (Frame.tile self) eqn:T; cbn [Frame.tile_truthy fst snd].
    + rewrite D. reflexivity.
    + destruct (Py.truthy ((dx1 - dx0) mod (sx1 - sx0))
                || Py.truthy ((dy1 - dy0) mod (sy1 - sy0)));
        rewrite sw_blit_grid; cbn [fst snd]; rewrite D; reflexivity.
    + destruct (Py.truthy ((dx1 - dx0) mod (sx1 - sx0))
                || Py.truthy ((dy1 - dy0) mod (sy1 - sy0)));
        [destruct (Py.Qltb _ (Frame.tile_ratio self)),
                  (Py.Qltb _ (Frame.tile_ratio self)) |];
        rewrite sw_blit_grid; cbn [fst snd];
        match goal with
        | |- context [negb ((?a =? ?b) && (?c =? ?d))] =>
            destruct (negb ((a =? b) && (c =? d))) eqn:D';
              [reflexivity
              | apply pair_same_iff in D' as [E1 E2]; cbn [surf_size]; congruence]
        end.
  - apply pair_same_iff in D as [E1 E2]. cbn [surf_size]. congruence.
Qed.

Lemma sw_draw_cells_blits (self : Frame.Frame) (sw sh dw dh : Z)
    (cs : list (Z * Z * Z * Z)) (w h : Z) (bl : list (Surface * Pos)) :
  Forall (fun c => 0 < fst (Frame.source_extent sw sh c)
                   /\ 0 < snd (Frame.source_extent sw sh c)) cs ->
  exists news,
    fold_left (fun s c => let '(x0, x1, y0, y1) := c in
                          Frame.sw_draw self sw sh dw dh x0 x1 y0 y1 s)
              cs (surface w h bl)
      = surface w h (bl ++ news) /\
    map (fun b => (surf_size (fst b), snd b)) news
      = map (fun c => let '(dx0, dx1, dy0, dy1) := Frame.dest_rect dw dh c in
                      (Some (dx1 - dx0, dy1 - dy0), (dx0, dy0)))
            (filter (Frame.nondegenerate dw dh) cs).
Proof.
  intros Hs. revert bl. induction Hs as [|c cs Hc Hcs IH]; intros bl.
  - exists []. rewrite app_nil_r. split; reflexivity.
  - destruct c as [[[x0 x1] y0] y1]. destruct Hc as [Hcw Hch].
    destruct (sw_draw_cell self sw sh dw dh x0 x1 y0 y1 w h bl Hcw Hch)
      as (surf & Hsize & Hdraw).
    cbn [fold_left filter]. rewrite Hdraw.
    destruct (Frame.nondegenerate dw dh (x0, x1, y0, y1)).
    + destruct (IH (bl ++ [(surf,
                             (let '(dx0, _, dy0, _) :=
                                Frame.dest_rect dw dh (x0, x1, y0, y1) in (dx0, dy0)))]))
        as (news & Hfold & Hmap).
      eexists. split.
      * rewrite Hfold, <- app_assoc. reflexivity.
      * cbn [app map fst snd]. rewrite Hsize, Hmap.
        destruct (Frame.dest_rect dw dh (x0, x1, y0, y1)) as [[[dx0 dx1] dy0] dy1].
        reflexivity.
    + apply IH.
Qed.

(** The two renderers write the same rectangles: for non-negative borders, a
    child at least 2 by 2 whose texture has its size, and a non-negative
    size, the hardware [render] and the software [render] blit, in the same
    order, one piece for each cell of positive destination extents, of the
    size of the destination rectangle of the cell and at its corner. *)
Theorem renderers_blit_same_rectangles (xminimum yminimum : Z)
    (child_size : Z -> Z -> Z * Z) (texture_size : Z * Z -> Z * Z)
    (self : Frame.Frame) (width height dw dh sw sh : Z) :
  let host is_sw := Frame.mkHost xminimum yminimum child_size is_sw texture_size in
  Frame.dest_size (host false) width height = (dw, dh) ->
  child_size dw dh = (sw, sh) -> texture_size (sw, sh) = (sw, sh) ->
  0 <= Frame.left self -> 0 <= Frame.top self ->
  0 <= Frame.right self -> 0 <= Frame.bottom self ->
  2 <= sw -> 2 <= sh -> 0 <= dw -> 0 <= dh ->
  let '(l, t, r, b) := Frame.borders self sw sh dw dh in
  let drawn := filter (Frame.nondegenerate dw dh) (Frame.cells l t r b) in
  map (fun c => (size_of (fst c), snd c))
      (children_of (Frame.render (host false) self width height))
    = map (fun c => let '(dx0, dx1, dy0, dy1) := Frame.dest_rect dw dh c in
                    (Some (inject_Z (dx1 - dx0), inject_Z (dy1 - dy0)), (dx0, dy0)))
          drawn /\
  exists dest,
    Frame.render (host true) self width height
      = mkRender (inject_Z dw) (inject_Z dh) None None false false
          [(of_surface dest, (0, 0))] /\
    map (fun b => (surf_size (fst b), snd b)) (blits_of dest)
      = map (fun c => let '(dx0, dx1, dy0, dy1) := Frame.dest_rect dw dh c in
                      (Some (dx1 - dx0, dy1 - dy0), (dx0, dy0)))
            drawn.
Proof.
  intros host Hd Hc Hts Hl Ht Hr Hb Hsw Hsh Hdw Hdh.
  pose proof (render_blits_fill_destination (host false) self width height dw dh sw sh
                eq_refl Hd Hc Hl Ht Hr Hb Hsw Hsh Hdw Hdh) as Rhw.
  assert (Hd' : Frame.dest_size (host true) width height = (dw, dh)) by exact Hd.
  unfold Frame.render at 2. rewrite Hd'. cbn [Frame.child_size Frame.renderer_is_sw
                                               Frame.texture_size host].
  rewrite Hc, Hts. revert Rhw. rewrite borders_axes.
  pose proof (axis_borders_bound _ _ sw dw Hl Hr Hsw Hdw) as X.
  pose proof (axis_borders_bound _ _ sh dh Ht Hb Hsh Hdh) as Y.
  cbv zeta in X, Y.
  pose proof (min3_spec (Frame.left self + Frame.right self) (sw - 2) dw) as Mx.
  pose proof (min3_spec (Frame.top self + Frame.bottom self) (sh - 2) dh) as My.
  destruct (Frame.axis_borders (Frame.left self) (Frame.right self) sw dw) as [l r].
  destruct (Frame.axis_borders (Frame.top self) (Frame.bottom self) sh dh) as [t b].
  cbn [fst snd]. destruct X as (Bl & Br & Bx & _). destruct Y as (Bt & Bb & By & _).
  cbv zeta. intros [Rc _]. split.
  - rewrite Rc, map_map. apply map_ext. intros c.
    pose proof (blit_of_cell_size self sw sh dw dh c) as S.
    destruct (Frame.dest_rect dw dh c) as [[[dx0 dx1] dy0] dy1].
    destruct S as [-> ->]. reflexivity.
  - unfold Frame.sw_render. rewrite draw_pattern_cells.
    destruct (sw_draw_cells_blits self sw sh dw dh (Frame.cells l t r b) dw dh [])
      as (news & Hfold & Hmap); [apply cells_source_extents; lia |].
    rewrite Hfold. eexists. split; [reflexivity |]. exact Hmap.
Qed.

Lemma renderers_blit_same_rectangles_witness :
  let host is_sw := Frame.mkHost 0 0 (fun _ _ => (10, 10)) is_sw (fun s => s) in
  let self := Frame.mkFrame 0 0 2 0 2 0 Frame.tile_True 0.5 in
  map snd (children_of (Frame.render (host false) self 30 10)) = [(0, 0); (2, 0); (28, 0)] /\
  exists dest,
    Frame.render (host true) self 30 10
      = mkRender 30 10 None None false false [(of_surface dest, (0, 0))] /\
    map snd (blits_of dest) = [(0, 0); (2, 0); (28, 0)].
Proof.
  intros host self.
  pose proof (renderers_blit_same_rectangles 0 0 (fun _ _ => (10, 10)) (fun s => s)
                self 30 10 30 10 10 10 eq_refl eq_refl eq_refl
                ltac:(simpl; lia) ltac:(simpl; lia) ltac:(simpl; lia) ltac:(simpl; lia)
                ltac:(lia) ltac:(lia) ltac:(lia) ltac:(lia)) as H.
  change (Frame.borders self 10 10 30 10) with (2, 0, 2, 0) in H.
  cbv zeta in H. destruct H as [Hhw (dest & Hsw & Hbl)].
  split.
  - apply (f_equal (map snd)) in Hhw. rewrite !map_map in Hhw. exact Hhw.
  - exists dest. split; [exact Hsw |].
    apply (f_equal (map snd)) in Hbl. rewrite !map_map in Hbl. exact Hbl.
Defined.

(** ** Constructing and upgrading frames *)

(** The old argument names and the upgrade of an old frame agree: a frame
    made with [xborder] and [yborder] alone stores the insets that
    [after_upgrade] gives a persisted frame with those two fields, whatever
    insets that frame held and whatever the version below 2. *)
Theorem init_legacy_agrees_with_upgrade (x y : Z) (tile : Frame.Tile) (ratio : Q)
    (l t r b version : Z) :
  version < 2 ->
  let f := Frame.after_upgrade (Frame.mkFrame x y l t r b tile ratio) version in
  Frame.__init__ Frame.left_None None None None x y tile ratio
  = (Frame.left f, Frame.top f, Frame.right f, Frame.bottom f,
     Frame.tile f, Frame.tile_ratio f).
Proof.
  intros Hv f. subst f. unfold Frame.after_upgrade.
  apply Z.ltb_lt in Hv. rewrite Hv. reflexivity.
Qed.

Lemma init_legacy_agrees_with_upgrade_witness :
  Frame.__init__ Frame.left_None None None None 5 3 Frame.tile_False 0.5
  = (5, 3, 5, 3, Frame.tile_False, 0.5%Q).
Proof.
  rewrite (init_legacy_agrees_with_upgrade 5 3 Frame.tile_False 0.5 0 0 0 0 1
             ltac:(lia)).
  reflexivity.
Defined.

(** Upgrading twice is upgrading once: [after_upgrade] keeps the two old
    fields, so a second run, at any version, changes nothing. *)
Theorem after_upgrade_idempotent (self : Frame.Frame) (version version' : Z) :
  version < 2 ->
  Frame.after_upgrade (Frame.after_upgrade self version) version'
  = Frame.after_upgrade self version.
Proof.
  intros Hv. unfold Frame.after_upgrade.
  apply Z.ltb_lt in Hv. rewrite Hv.
  destruct (version' <? 2); reflexivity.
Qed.

Lemma after_upgrade_idempotent_witness :
  Frame.after_upgrade
    (Frame.after_upgrade (Frame.mkFrame 5 3 1 2 3 4 Frame.tile_True 0.5) 0) 1
  = Frame.mkFrame 5 3 5 3 5 3 Frame.tile_True 0.5.
Proof.
  rewrite (after_upgrade_idempotent (Frame.mkFrame 5 3 1 2 3 4 Frame.tile_True 0.5) 0 1
             ltac:(lia)).
  reflexivity.
Defined.

(** A [Borders] object in place of [left] decides all four insets: the
    arguments [top], [right], [bottom], [xborder] and [yborder] are not
    read, and the padding of the object, which [padding] adds to the insets,
    does not reach the frame. *)
Theorem init_from_borders (l t r b : Z) (pl pt pr pb : option Z)
    (top right bottom : option Z) (xborder yborder : Z)
    (tile : Frame.Tile) (ratio : Q) :
  let insets := Borders.__init__ l t r b pl pt pr pb in
  Frame.__init__ (Frame.left_Borders insets) top right bottom xborder yborder tile ratio
    = (l, t, r, b, tile, ratio) /\
  Frame.__init__ (Frame.left_size l) (Some t) (Some r) (Some b) 0 0 tile ratio
    = (l, t, r, b, tile, ratio) /\
  Borders.padding insets
    = (l + Borders.pad_left insets, t + Borders.pad_top insets,
       r + Borders.pad_right insets, b + Borders.pad_bottom insets) /\
  Borders.padding (Borders.__init__ l t r b None None None None) = (l, t, r, b).
Proof.
  intros insets. repeat split.
  unfold Borders.padding. cbn. rewrite !Z.add_0_r. reflexivity.
Qed.

Lemma axis_borders_symmetric (a s d : Z) :
  fst (Frame.axis_borders a a s d) = snd (Frame.axis_borders a a s d).
Proof.
  unfold Frame.axis_borders.
  destruct (Py.truthy (Py.min3 (a + a) (s - 2) d) && Py.truthy (a + a)); reflexivity.
Qed.

(** A frame made from [left] and [top] alone is symmetric, and stays so after
    clamping: its right inset is its left one, its bottom inset its top one,
    and for every child and result size the borders used for drawing are
    equal left and right, and top and bottom. *)
Theorem init_defaults_are_symmetric (self : Frame.Frame) (a t xborder yborder : Z)
    (tile : Frame.Tile) (ratio : Q) (sw sh dw dh : Z) :
  (Frame.left self, Frame.top self, Frame.right self, Frame.bottom self,
   Frame.tile self, Frame.tile_ratio self)
  = Frame.__init__ (Frame.left_size a) (Some t) None None xborder yborder tile ratio ->
  Frame.right self = a /\ Frame.bottom self = t /\
  let '(l', t', r', b') := Frame.borders self sw sh dw dh in
  l' = r' /\ t' = b'.
Proof.
  unfold Frame.__init__. intros E. injection E as El Et Er Eb _ _.
  split; [exact Er | split; [exact Eb |]].
  rewrite borders_axes, El, Et, Er, Eb. cbn [fst snd].
  split; apply axis_borders_symmetric.
Qed.

Lemma init_defaults_are_symmetric_witness :
  let '(l', t', r', b') :=
    Frame.borders (Frame.mkFrame 0 0 10 10 10 10 Frame.tile_False 0.5) 15 100 640 480 in
  l' = r' /\ t' = b'.
Proof.
  exact (proj2 (proj2 (init_defaults_are_symmetric
                         (Frame.mkFrame 0 0 10 10 10 10 Frame.tile_False 0.5) 10 10 0 0
                         Frame.tile_False 0.5 15 100 640 480 eq_refl))).
Defined.

(** ** Equal displayables *)

Lemma draw_pattern_ext {S : Type} (d1 d2 : Z -> Z -> Z -> Z -> S -> S)
    (l t r b : Z) (s : S) :
  (forall x0 x1 y0 y1 s', d1 x0 x1 y0 y1 s' = d2 x0 x1 y0 y1 s') ->
  Frame.draw_pattern d1 l t r b s = Frame.draw_pattern d2 l t r b s.
Proof.
  intros E. rewrite !draw_pattern_cells.
  generalize (Frame.cells l t r b) as cs. intros cs. revert s.
  induction cs as [|[[[x0 x1] y0] y1] cs IH]; intros s; cbn [fold_left];
    [reflexivity | rewrite E; apply IH].
Qed.

Lemma tile_eqb_eq (a b : Frame.Tile) : Frame.tile_eqb a b = true -> a = b.
Proof. destruct a, b; simpl; intros H; congruence. Qed.

(** Two frames with the same tile mode and ratios of the same value tile,
    resize and draw alike. *)
Lemma tiling_alike (a b : Frame.Frame) (csw csh cdw cdh : Z) :
  Frame.tile a = Frame.tile b -> (Frame.tile_ratio a == Frame.tile_ratio b)%Q ->
  Frame.tiling a csw csh cdw cdh = Frame.tiling b csw csh cdw cdh.
Proof.
  intros Et Er. unfold Frame.tiling.
  rewrite Et, !(Qltb_compat_r _ _ _ Er). reflexivity.
Qed.

Lemma draw_alike (a b : Frame.Frame) (sw sh dw dh x0 x1 y0 y1 : Z) (rv : Render) :
  Frame.tile a = Frame.tile b -> (Frame.tile_ratio a == Frame.tile_ratio b)%Q ->
  Frame.draw a sw sh dw dh x0 x1 y0 y1 rv = Frame.draw b sw sh dw dh x0 x1 y0 y1 rv.
Proof.
  intros Et Er. unfold Frame.draw.
  destruct (Frame.near_side dw sw x0) as [dx0 sx0].
  destruct (Frame.far_side dw sw x1) as [dx1 sx1].
  destruct (Frame.near_side dh sh y0) as [dy0 sy0].
  destruct (Frame.far_side dh sh y1) as [dy1 sy1].
  unfold Frame.resize.
  rewrite Et, (tiling_alike a b _ _ _ _ Et Er). reflexivity.
Qed.

Lemma sw_draw_alike (a b : Frame.Frame) (sw sh dw dh x0 x1 y0 y1 : Z)
    (dest : Surface) :
  Frame.tile a = Frame.tile b -> (Frame.tile_ratio a == Frame.tile_ratio b)%Q ->
  Frame.sw_draw a sw sh dw dh x0 x1 y0 y1 dest
  = Frame.sw_draw b sw sh dw dh x0 x1 y0 y1 dest.
Proof.
  intros Et Er. unfold Frame.sw_draw.
  destruct (Frame.near_side dw sw x0) as [dx0 sx0].
  destruct (Frame.far_side dw sw x1) as [dx1 sx1].
  destruct (Frame.near_side dh sh y0) as [dy0 sy0].
  destruct (Frame.far_side dh sh y1) as [dy1 sy1].
  cbn [fst snd].
  rewrite Et, !(Qltb_compat_r _ _ _ Er). reflexivity.
Qed.

(** Frames that [__eq__] holds equal render alike: for every host and every
    request the two renders are the same, on either renderer.  The ratios
    need only have the same value, and the two old fields are not
    compared. *)
Theorem equal_frames_render_alike (_equals : Frame.Frame -> Frame.Frame -> bool)
    (image_ne : bool) (a b : Frame.Frame) :
  Frame.__eq__ _equals image_ne a b = true ->
  _equals a b = true /\ image_ne = false /\
  forall host width height,
    Frame.render host a width height = Frame.render host b width height.
Proof.
  unfold Frame.__eq__. intros H.
  destruct (_equals a b); [| discriminate]. cbn [negb] in H.
  destruct image_ne; [discriminate |].
  destruct (Z.eqb_spec (Frame.left a) (Frame.left b)) as [El |]; [| discriminate].
  destruct (Z.eqb_spec (Frame.top a) (Frame.top b)) as [Et |]; [| discriminate].
  destruct (Z.eqb_spec (Frame.right a) (Frame.right b)) as [Er |]; [| discriminate].
  destruct (Z.eqb_spec (Frame.bottom a) (Frame.bottom b)) as [Eb |]; [| discriminate].
  cbn [negb] in H.
  destruct (Frame.tile_eqb (Frame.tile a) (Frame.tile b)) eqn:Etile; [| discriminate].
  apply tile_eqb_eq in Etile. cbn [negb] in H.
  destruct (Py.Qeqb (Frame.tile_ratio a) (Frame.tile_ratio b)) eqn:Eq; [| discriminate].
  apply Qeq_bool_iff in Eq.
  split; [reflexivity | split; [reflexivity |]].
  intros host width height. unfold Frame.render.
  destruct (Frame.dest_size host width height) as [dw dh].
  destruct (Frame.child_size host dw dh) as [sw sh].
  assert (B : Frame.borders a sw sh dw dh = Frame.borders b sw sh dw dh)
    by (unfold Frame.borders; rewrite El, Et, Er, Eb; reflexivity).
  rewrite B. destruct (Frame.borders b sw sh dw dh) as [[[l t] r] bo].
  destruct (Frame.renderer_is_sw host).
  - destruct (Frame.texture_size host (sw, sh)) as [tw th]. unfold Frame.sw_render.
    rewrite (draw_pattern_ext (Frame.sw_draw a tw th dw dh) (Frame.sw_draw b tw th dw dh));
      [reflexivity |].
    intros. apply sw_draw_alike; assumption.
  - apply draw_pattern_ext. intros. apply draw_alike; assumption.
Qed.

Lemma equal_frames_render_alike_witness :
  let host := Frame.mkHost 0 0 (fun _ _ => (20, 20)) false (fun s => s) in
  Frame.render host (Frame.mkFrame 5 3 4 4 4 4 Frame.tile_integer (1 # 2)) 45 30
  = Frame.render host (Frame.mkFrame 0 0 4 4 4 4 Frame.tile_integer (2 # 4)) 45 30.
Proof.
  intros host.
  destruct (equal_frames_render_alike (fun _ _ => true) false
              (Frame.mkFrame 5 3 4 4 4 4 Frame.tile_integer (1 # 2))
              (Frame.mkFrame 0 0 4 4 4 4 Frame.tile_integer (2 # 4)) eq_refl)
    as (_ & _ & H).
  apply H.
Defined.

Lemma color_eqb_eq (a b : option Color) : Solid.color_eqb a b = true -> a = b.
Proof.
  unfold Solid.color_eqb.
  destruct a as [[[[r1 g1] b1] a1]|], b as [[[[r2 g2] b2] a2]|];
    try discriminate; try reflexivity.
  intros H. apply andb_true_iff in H as [H Ha]. apply andb_true_iff in H as [H Hb].
  apply andb_true_iff in H as [Hr Hg].
  apply Z.eqb_eq in Hr, Hg, Hb, Ha. subst. reflexivity.
Qed.

(** Solids that [__eq__] holds equal have the same hash, whatever the hash
    function, and render alike for every host and request. *)
Theorem equal_solids_hash_and_render_alike {H : Type}
    (_equals : Solid.Solid -> Solid.Solid -> bool) (hash : option Color -> H)
    (a b : Solid.Solid) :
  Solid.__eq__ _equals a b = true ->
  Solid.__hash__ hash a = Solid.__hash__ hash b /\
  forall host width height,
    Solid.render host a width height = Solid.render host b width height.
Proof.
  unfold Solid.__eq__. intros E.
  destruct (_equals a b); [| discriminate]. cbn [negb] in E.
  apply color_eqb_eq in E. destruct a as [ca], b as [cb]. cbn [Solid.color] in E.
  subst cb. split; intros; reflexivity.
Qed.

Lemma equal_solids_hash_and_render_alike_witness :
  Solid.__hash__ (fun c => c) (Solid.__init__ (fun s : Z => (s, s, s, 255)) (Some 7))
  = Solid.__hash__ (fun c => c) (Solid.mkSolid (Some (7, 7, 7, 255))).
Proof.
  apply (equal_solids_hash_and_render_alike (fun _ _ => true) (fun c => c)
           (Solid.__init__ (fun s : Z => (s, s, s, 255)) (Some 7))
           (Solid.mkSolid (Some (7, 7, 7, 255))) eq_refl).
Defined.

(** ** When and what [Solid.render] draws *)

Lemma Qmax_pos (a b : Q) : (0 < b)%Q -> (0 < Py.Qmax a b)%Q.
Proof.
  intros Hb. unfold Py.Qmax. destruct (Py.Qltb a b) eqn:T; [exact Hb |].
  apply Qltb_ge in T. apply (Qlt_le_trans _ b); assumption.
Qed.

(** With a usable colour and a drawable pixel of positive size, a solid draws
    exactly when its styled width and height are both other than zero: a
    negative size is raised to one pixel and drawn, and a zero one draws
    nothing. *)
Theorem solid_draws_iff_nonzero (host : Solid.Host) (self : Solid.Solid)
    (width height : Q) (c : Color) :
  Solid.usable_color host self = Some c ->
  (0 < fst (Solid.draw_to_virt_1_1 host))%Q ->
  (0 < snd (Solid.draw_to_virt_1_1 host))%Q ->
  let '(w0, h0) := Solid.styled_size host width height in
  children_of (Solid.render host self width height) <> []
  <-> ~ (w0 == 0)%Q /\ ~ (h0 == 0)%Q.
Proof.
  intros Hc Hmw Hmh. unfold Solid.render, Solid.effective_size. rewrite Hc.
  destruct (Solid.styled_size host width height) as [w0 h0].
  destruct (Solid.draw_to_virt_1_1 host) as [minw minh]. cbn [fst snd] in Hmw, Hmh.
  unfold Py.Qtruthy, Py.Qeqb.
  destruct (Qeq_bool w0 0) eqn:Zw; [| destruct (Qeq_bool h0 0) eqn:Zh]; cbn [negb andb].
  - apply Qeq_bool_iff in Zw.
    assert (L : Py.Qleb w0 0 = true) by (apply Qleb_le; rewrite Zw; apply Qle_refl).
    rewrite L. cbn [orb children_of Render_new]. split; [congruence | tauto].
  - apply Qeq_bool_iff in Zh.
    assert (L : Py.Qleb h0 0 = true) by (apply Qleb_le; rewrite Zh; apply Qle_refl).
    rewrite L, orb_true_r. cbn [children_of Render_new]. split; [congruence | tauto].
  - apply Qeq_bool_neq in Zw. apply Qeq_bool_neq in Zh.
    pose proof (Qmax_pos w0 minw Hmw) as Pw. pose proof (Qmax_pos h0 minh Hmh) as Ph.
    apply Qleb_gt in Pw. apply Qleb_gt in Ph. rewrite Pw, Ph. cbn [orb].
    split; [intros _; split; assumption | intros _].
    destruct (Py.Qltb _ Solid.SIZE || Py.Qltb _ Solid.SIZE); discriminate.
Qed.

Lemma solid_draws_iff_nonzero_witness :
  let host := Solid.mkHost (fun _ _ => (0, 0)%Q) None (1, 1)%Q in
  let white := (255, 255, 255, 255) in
  children_of (Solid.render host (Solid.mkSolid (Some white)) 0.5 300)
    = [(solid_texture 1 300 white, (0, 0))] /\
  children_of (Solid.render host (Solid.mkSolid (Some white)) 0.5 300) <> [].
Proof.
  intros host white. split; [reflexivity |].
  pose proof (solid_draws_iff_nonzero host (Solid.mkSolid (Some white)) 0.5 300 white
                eq_refl eq_refl eq_refl) as H.
  change (Solid.styled_size host 0.5 300) with (0.5%Q, 300%Q) in H.
  apply H. split; discriminate.
Defined.

(** What [Solid.render] returns has the styled size, and holds nothing or one
    solid texture of the usable colour at the origin, of positive size and
    either below 10 in one dimension or 10 by 10. *)
Theorem solid_render_shape (host : Solid.Host) (self : Solid.Solid) (width height : Q) :
  let rv := Solid.render host self width height in
  size_of rv = Some (Solid.styled_size host width height) /\
  (children_of rv = [] \/
   exists tw th c,
     Solid.usable_color host self = Some c /\
     children_of rv = [(solid_texture tw th c, (0, 0))] /\
     (0 < tw)%Q /\ (0 < th)%Q /\
     ((tw < 10)%Q \/ (th < 10)%Q \/ (tw = 10%Q /\ th = 10%Q))).
Proof.
  unfold Solid.render.
  destruct (Solid.styled_size host width height) as [w0 h0].
  destruct (Solid.effective_size host width height) as [ew eh].
  destruct (Solid.usable_color host self) as [c|]; [| split; [reflexivity | left; reflexivity]].
  destruct (Py.Qleb ew 0) eqn:Lw; [split; [reflexivity | left; reflexivity] |].
  destruct (Py.Qleb eh 0) eqn:Lh; [split; [reflexivity | left; reflexivity] |].
  apply Qleb_gt in Lw. apply Qleb_gt in Lh. cbn [orb]. unfold Solid.SIZE.
  destruct (Py.Qltb ew 10) eqn:Tw; [| destruct (Py.Qltb eh 10) eqn:Th]; cbn [orb];
    (split; [reflexivity | right]).
  - apply Qltb_lt in Tw. exists ew, eh, c. repeat split; try assumption. left. exact Tw.
  - apply Qltb_lt in Th. exists ew, eh, c. repeat split; try assumption.
    right. left. exact Th.
  - exists 10%Q, 10%Q, c. repeat split. right. right. split; reflexivity.
Qed.

(** The colour of the solid comes before the colour of the style: a solid
    with a colour renders the same under any style colour, and a solid
    without one renders as a solid of the style colour does. *)
Theorem solid_color_precedes_style (xyminimums : Q -> Q -> Q * Q)
    (style_color style_color' : option Color) (pixel : Q * Q)
    (c : Color) (width height : Q) :
  Solid.render (Solid.mkHost xyminimums style_color pixel)
               (Solid.mkSolid (Some c)) width height
  = Solid.render (Solid.mkHost xyminimums style_color' pixel)
                 (Solid.mkSolid (Some c)) width height /\
  Solid.render (Solid.mkHost xyminimums style_color pixel)
               (Solid.mkSolid None) width height
  = Solid.render (Solid.mkHost xyminimums style_color pixel)
                 (Solid.mkSolid style_color) width height.
Proof.
  unfold Solid.render, Solid.effective_size, Solid.styled_size, Solid.usable_color.
  cbn [Solid.xyminimums Solid.style_color Solid.draw_to_virt_1_1 Solid.color].
  split; [reflexivity |].
  destruct style_color; reflexivity.
Qed.

(** ** What each [draw] skips *)

(** The hardware [draw] blits a cell exactly when its four extents are
    positive: otherwise the render is left as it was, and then it gains one
    child, of the size of the destination rectangle and at its corner. *)
Theorem hardware_draw_blits_iff_positive (self : Frame.Frame)
    (sw sh dw dh x0 x1 y0 y1 : Z) (w h : Q) (f r : option Matrix2D) (xc yc : bool)
    (ch : list (Render * Pos)) :
  let rv := mkRender w h f r xc yc ch in
  let '(csw, csh) := Frame.source_extent sw sh (x0, x1, y0, y1) in
  let '(dx0, dx1, dy0, dy1) := Frame.dest_rect dw dh (x0, x1, y0, y1) in
  (csw <= 0 \/ csh <= 0 \/ dx1 - dx0 <= 0 \/ dy1 - dy0 <= 0 ->
   Frame.draw self sw sh dw dh x0 x1 y0 y1 rv = rv) /\
  (0 < csw /\ 0 < csh /\ 0 < dx1 - dx0 /\ 0 < dy1 - dy0 ->
   exists cell,
     Frame.draw self sw sh dw dh x0 x1 y0 y1 rv
       = mkRender w h f r xc yc (ch ++ [(cell, (dx0, dy0))]) /\
     size_of cell = Some (inject_Z (dx1 - dx0), inject_Z (dy1 - dy0))).
Proof.
  intros rv.
  pose proof (draw_skips_degenerate self sw sh dw dh x0 x1 y0 y1 rv) as Hskip.
  pose proof (draw_blits_cell self sw sh dw dh x0 x1 y0 y1 rv) as Hblit.
  destruct (Frame.source_extent sw sh (x0, x1, y0, y1)) as [csw csh].
  destruct (Frame.dest_rect dw dh (x0, x1, y0, y1)) as [[[dx0 dx1] dy0] dy1].
  split; [exact Hskip |].
  intros (H1 & H2 & H3 & H4). eexists. split.
  - rewrite (Hblit H1 H2 H3 H4). reflexivity.
  - apply resize_size.
Qed.

Lemma hardware_draw_blits_iff_positive_witness :
  Frame.draw (Frame.mkFrame 0 0 4 4 4 4 Frame.tile_False 0.5) 10 10 8 8 4 (- 4) 4 (- 4)
             (Render_new 8 8)
  = Render_new 8 8.
Proof.
  pose proof (hardware_draw_blits_iff_positive
                (Frame.mkFrame 0 0 4 4 4 4 Frame.tile_False 0.5) 10 10 8 8 4 (- 4) 4 (- 4)
                8 8 None None false false []) as H.
  cbv zeta in H.
  change (Frame.source_extent 10 10 (4, - 4, 4, - 4)) with (2, 2) in H.
  change (Frame.dest_rect 8 8 (4, - 4, 4, - 4)) with (4, 4, 4, 4) in H.
  destruct H as [H _]. apply H. right. right. left. lia.
Defined.

(** The software [draw] leaves the surface as it was exactly when a source
    extent is zero or a destination extent is zero or negative. *)
Theorem software_draw_skips_iff (self : Frame.Frame)
    (sw sh dw dh x0 x1 y0 y1 w h : Z) (bl : list (Surface * Pos)) :
  let dest := surface w h bl in
  let '(csw, csh) := Frame.source_extent sw sh (x0, x1, y0, y1) in
  let '(dx0, dx1, dy0, dy1) := Frame.dest_rect dw dh (x0, x1, y0, y1) in
  Frame.sw_draw self sw sh dw dh x0 x1 y0 y1 dest = dest
  <-> csw = 0 \/ csh = 0 \/ dx1 - dx0 <= 0 \/ dy1 - dy0 <= 0.
Proof.
  intros dest.
  pose proof (sw_draw_skips self sw sh dw dh x0 x1 y0 y1 dest) as Hskip.
  destruct (sides_extents sw sh dw dh x0 x1 y0 y1) as [Es Ed].
  rewrite Es, Ed in *. subst dest. unfold Frame.sw_draw in *.
  destruct (Frame.near_side dw sw x0) as [dx0 sx0].
  destruct (Frame.far_side dw sw x1) as [dx1 sx1].
  destruct (Frame.near_side dh sh y0) as [dy0 sy0].
  destruct (Frame.far_side dh sh y1) as [dy1 sy1].
  cbn [fst snd] in *. split; [| exact Hskip].
  destruct (Z.eqb_spec sx0 sx1); [intros _; left; lia |].
  destruct (Z.eqb_spec sy0 sy1); [intros _; right; left; lia |].
  destruct (Z.leb_spec dx1 dx0); [intros _; right; right; left; lia |].
  destruct (Z.leb_spec dy1 dy0); [intros _; right; right; right; lia |].
  cbn [orb surf_blit]. intros E. exfalso.
  injection E as E. apply (f_equal (@length _)) in E.
  rewrite length_app in E. cbn [length] in E. lia.
Qed.

Lemma software_draw_skips_iff_witness :
  Frame.sw_draw (Frame.mkFrame 0 0 4 4 4 4 Frame.tile_False 0.5) 10 10 8 8 4 (- 4) 4 (- 4)
                (surface 8 8 [])
  = surface 8 8 [].
Proof.
  pose proof (software_draw_skips_iff
                (Frame.mkFrame 0 0 4 4 4 4 Frame.tile_False 0.5) 10 10 8 8 4 (- 4) 4 (- 4)
                8 8 []) as H.
  cbv zeta in H.
  change (Frame.source_extent 10 10 (4, - 4, 4, - 4)) with (2, 2) in H.
  change (Frame.dest_rect 8 8 (4, - 4, 4, - 4)) with (4, 4, 4, 4) in H.
  apply H. right. right. left. lia.
Defined.

(** ** The cells enumerated *)

(** [draw_pattern] calls [draw] once for each pair of a row and a column,
    where the rows are the middle one and the top and bottom ones of a border
    other than zero, and likewise the columns: between 1 and 9 calls, and the
    centre always among them. *)
Theorem cells_count (l t r b : Z) :
  let count (near far : Z) :=
    (1 + (if Py.truthy near then 1 else 0) + (if Py.truthy far then 1 else 0))%nat in
  length (Frame.cells l t r b) = (count l r * count t b)%nat /\
  (1 <= length (Frame.cells l t r b) <= 9)%nat /\
  In (l, - r, t, - b) (Frame.cells l t r b).
Proof.
  unfold Frame.cells, Frame.draw_pattern.
  destruct (Py.truthy l), (Py.truthy t), (Py.truthy r), (Py.truthy b);
    cbn [app length Nat.add Nat.mul In]; repeat split; try lia; tauto.
Qed.

(** ** An axis on which the extents agree *)

Lemma integer_count_same (d : Z) (ratio : Q) : 0 < d -> Frame.integer_count d d ratio = 1.
Proof.
  intros Hd. unfold Frame.integer_count, Frame.base_count, Py.truthy.
  rewrite Z.mod_same, Z.div_same by lia. cbn [Z.eqb negb].
  destruct (Py.Qltb _ ratio); reflexivity.
Qed.

Lemma tiling_same_height (self : Frame.Frame) (csw cdw cdh : Z) :
  0 < cdh ->
  let '(_, ytiles, _, cth) := Frame.tiling self csw cdh cdw cdh in
  ytiles = 1 /\ cth = cdh.
Proof.
  intros Hh. unfold Frame.tiling.
  fold (Frame.base_count cdw csw). fold (Frame.base_count cdh cdh).
  fold (Frame.integer_count cdw csw (Frame.tile_ratio self)).
  fold (Frame.integer_count cdh cdh (Frame.tile_ratio self)).
  rewrite integer_count_same by assumption.
  assert (B : Frame.base_count cdh cdh = 1).
  { unfold Frame.base_count, Py.truthy.
    rewrite Z.mod_same, Z.div_same by lia. reflexivity. }
  rewrite B.
  destruct (Py.truthy (cdw mod csw) || Py.truthy (cdh mod cdh));
    [destruct (Frame.tile self) |]; split; lia.
Qed.

Lemma tiling_same_width (self : Frame.Frame) (csh cdw cdh : Z) :
  0 < cdw ->
  let '(xtiles, _, ctw, _) := Frame.tiling self cdw csh cdw cdh in
  xtiles = 1 /\ ctw = cdw.
Proof.
  intros Hw. unfold Frame.tiling.
  fold (Frame.base_count cdw cdw). fold (Frame.base_count cdh csh).
  fold (Frame.integer_count cdw cdw (Frame.tile_ratio self)).
  fold (Frame.integer_count cdh csh (Frame.tile_ratio self)).
  rewrite integer_count_same by assumption.
  assert (B : Frame.base_count cdw cdw = 1).
  { unfold Frame.base_count, Py.truthy.
    rewrite Z.mod_same, Z.div_same by lia. reflexivity. }
  rewrite B.
  destruct (Py.truthy (cdw mod cdw) || Py.truthy (cdh mod csh));
    [destruct (Frame.tile self) |]; split; lia.
Qed.

Lemma unit_ratio (n : Z) : 0 < n -> (1 * inject_Z n / inject_Z n == 1)%Q.
Proof. intros H. pose proof (inject_Z_nonzero n H). field. assumption. Qed.

(** The edges keep their thickness: on an axis where the source and the
    destination extent of a cell agree, tiling uses one tile and a block of
    that very extent, and the transform of the cell, if it has one, scales
    that axis by 1, in every tile mode. *)
Theorem resize_keeps_agreeing_axis (self : Frame.Frame) (rect : Rect)
    (csw csh cdw cdh : Z) :
  0 < csw -> 0 < csh -> 0 < cdw -> 0 < cdh ->
  let cell := Frame.resize self (subsurface rect) csw csh cdw cdh in
  let '(xtiles, ytiles, ctw, cth) := Frame.tiling self csw csh cdw cdh in
  (csw = cdw ->
   xtiles = 1 /\ ctw = cdw /\
   match forward_of cell with Some F => (xdx F == 1)%Q | None => True end) /\
  (csh = cdh ->
   ytiles = 1 /\ cth = cdh /\
   match forward_of cell with Some F => (ydy F == 1)%Q | None => True end).
Proof.
  intros Hsw Hsh Hdw Hdh cell. subst cell. unfold Frame.resize.
  pose proof (tiling_same_width self csh cdw cdh Hdw) as Tw.
  pose proof (tiling_same_height self csw cdw cdh Hdh) as Th.
  destruct (Frame.tiling self csw csh cdw cdh) as [[[xtiles ytiles] ctw] cth] eqn:T.
  split; intros E; subst.
  - rewrite T in Tw. destruct Tw as [-> ->].
    split; [reflexivity | split; [reflexivity |]].
    destruct (negb (cdw =? cdw) || negb (csh =? cdh)) eqn:D; [| exact I].
    destruct (Frame.tile_truthy (Frame.tile self)).
    + unfold Render_new, set_clipping. rewrite blit_tiles_children.
      destruct (negb (cdw =? cdw) || negb (cth =? cdh)); [| exact I].
      cbn [Frame.scaled Render_new set_transform blit forward_of xdx].
      apply unit_ratio. assumption.
    + rewrite D. cbn [Frame.scaled Render_new set_transform blit forward_of xdx].
      apply unit_ratio. assumption.
  - rewrite T in Th. destruct Th as [-> ->].
    split; [reflexivity | split; [reflexivity |]].
    destruct (negb (csw =? cdw) || negb (cdh =? cdh)) eqn:D; [| exact I].
    destruct (Frame.tile_truthy (Frame.tile self)).
    + unfold Render_new, set_clipping. rewrite blit_tiles_children.
      destruct (negb (ctw =? cdw) || negb (cdh =? cdh)); [| exact I].
      cbn [Frame.scaled Render_new set_transform blit forward_of ydy].
      apply unit_ratio. assumption.
    + rewrite D. cbn [Frame.scaled Render_new set_transform blit forward_of ydy].
      apply unit_ratio. assumption.
Qed.

Lemma resize_keeps_agreeing_axis_witness :
  let '(_, ytiles, _, cth) :=
    Frame.tiling (Frame.mkFrame 0 0 0 0 0 0 Frame.tile_integer 0.5) 10 6 37 6 in
  ytiles = 1 /\ cth = 6.
Proof.
  pose proof (resize_keeps_agreeing_axis
                (Frame.mkFrame 0 0 0 0 0 0 Frame.tile_integer 0.5) (4, 0, 10, 6)
                10 6 37 6 ltac:(lia) ltac:(lia) ltac:(lia) ltac:(lia)) as H.
  cbv zeta in H.
  destruct (Frame.tiling (Frame.mkFrame 0 0 0 0 0 0 Frame.tile_integer 0.5) 10 6 37 6)
    as [[[xtiles ytiles] ctw] cth].
  destruct H as [_ H]. destruct (H eq_refl) as (H1 & H2 & _). split; assumption.
Defined.

(** ** Witnesses for the tiling lemmas *)

Lemma integer_tiling_both_exact_witness :
  Frame.tiling (Frame.mkFrame 0 0 0 0 0 0 Frame.tile_integer 0.5) 10 10 30 20
  = (3, 2, 30, 20).
Proof.
  destruct (integer_tiling_both_exact
              (Frame.mkFrame 0 0 0 0 0 0 Frame.tile_integer 0.5)
              (subsurface (0, 0, 10, 10)) 10 10 30 20 eq_refl
              ltac:(lia) ltac:(lia) ltac:(lia) ltac:(lia) eq_refl eq_refl
              ltac:(left; lia)) as [H _].
  exact H.
Defined.

Lemma integer_tiling_exact_axis_loses_tile_witness :
  let '(xtiles, _, ctw, _) :=
    Frame.tiling (Frame.mkFrame 0 0 0 0 0 0 Frame.tile_integer 0.5) 10 10 30 25 in
  xtiles = 30 / 10 - 1 /\ ctw = 30 - 10.
Proof.
  pose proof (integer_tiling_exact_axis_loses_tile
                (Frame.mkFrame 0 0 0 0 0 0 Frame.tile_integer 0.5) 10 10 30 25 eq_refl
                ltac:(lia) ltac:(lia) eq_refl ltac:(discriminate) eq_refl) as H.
  destruct (Frame.tiling (Frame.mkFrame 0 0 0 0 0 0 Frame.tile_integer 0.5) 10 10 30 25)
    as [[[xtiles ytiles] ctw] cth].
  destruct H as (_ & _ & H). apply H. lia.
Defined.

Lemma sw_simple_tiling_is_scaled_witness :
  exists tiled,
    Frame.sw_draw (Frame.mkFrame 0 0 0 0 0 0 Frame.tile_True 0.5) 10 10 25 10 0 0 0 0
                  (surface 25 10 [])
    = surface 25 10
        [(real_transform_scale (surf_subsurface tiled (0, 0, 25, 10)) (25, 10), (0, 0))]
    /\ surf_size tiled = Some (30, 10).
Proof.
  eexists. split.
  - rewrite (sw_simple_tiling_is_scaled
               (Frame.mkFrame 0 0 0 0 0 0 Frame.tile_True 0.5)
               10 10 25 10 0 0 0 0 25 10 [] 0 0 25 10 0 0 10 10
               eq_refl eq_refl eq_refl eq_refl eq_refl
               ltac:(lia) ltac:(lia) ltac:(lia) ltac:(lia) ltac:(left; lia)).
    reflexivity.
  - reflexivity.
Defined.
